(** * pyvantage: the protocol dispatch engine of [pyvantage/__init__.py]

    A shallow embedding of the live part of the Vantage client: the
    level/kelvin conversions, the request helper, the registry, the entity
    update handlers and the inbound line dispatcher [Vantage._recv].

    Conventions of the embedding.
    - Python objects live in a heap indexed by references ([ref]); the
      registries, the subscriber table and the [_keypad] field of a button
      hold references, so two tables naming one object alias it.
    - A computation is a function from the world to an outcome and the
      world it leaves: a raised exception keeps the mutations made before
      the raise, as in Python.
    - Floating point numbers are modelled by their exact rational value,
      together with the two infinities and NaN; binary rounding, overflow
      and underflow are not modelled.
    - Strings are ASCII strings (the connection decodes lines as ASCII,
      line 201); characters above 127 are outside the model.
    - Logging calls are left out, except that the evaluation of their
      arguments is kept where it can raise.
    - A subscriber is known by a number; calling it is recorded, and it is
      taken to return.
    - The limit that recent versions of Python put on the number of digits
      that [int] reads and [str] writes is not modelled. *)

From Stdlib Require Import Ascii String QArith Qminmax Lqa.
From stdpp Require Import gmap strings list fin_maps pretty.

Local Open Scope Z_scope.

(** ** Numbers *)

Module Num.

(** A Python float: a finite value, an infinity, or NaN. *)
Inductive pyfloat :=
| Fin (q : Q)
| PosInf
| NegInf
| NaN.

Definition Qltb (x y : Q) : bool := negb (Qle_bool y x).

(** [a < b] on floats: every comparison with NaN is false. *)
Definition flt (a b : pyfloat) : bool :=
  match a, b with
  | NaN, _ | _, NaN => false
  | Fin x, Fin y => Qltb x y
  | NegInf, NegInf => false
  | NegInf, _ => true
  | _, PosInf => match a with PosInf => false | _ => true end
  | _, _ => false
  end.

(** [a == b] on floats: NaN differs from everything, itself included. *)
Definition feqb (a b : pyfloat) : bool :=
  match a, b with
  | Fin x, Fin y => Qeq_bool x y
  | PosInf, PosInf | NegInf, NegInf => true
  | _, _ => false
  end.

(** Arithmetic with a finite constant on one side, which is all the
    source uses: [x - c], [x + c], and [c * x], [x / c], [x * c] for a
    constant [c > 0]. *)
Definition fsubc (x : pyfloat) (c : Q) : pyfloat :=
  match x with Fin q => Fin (q - c) | _ => x end.
Definition faddc (x : pyfloat) (c : Q) : pyfloat :=
  match x with Fin q => Fin (q + c) | _ => x end.
Definition fmulc (c : Q) (x : pyfloat) : pyfloat :=
  match x with Fin q => Fin (c * q) | _ => x end.
Definition fmulr (x : pyfloat) (c : Q) : pyfloat :=
  match x with Fin q => Fin (q * c) | _ => x end.
Definition fdivc (x : pyfloat) (c : Q) : pyfloat :=
  match x with Fin q => Fin (q / c) | _ => x end.

(** The same numeric value (the rational is compared by [Qeq]). *)
Definition same (a b : pyfloat) : Prop :=
  match a, b with
  | Fin x, Fin y => (x == y)%Q
  | PosInf, PosInf | NegInf, NegInf | NaN, NaN => True
  | _, _ => False
  end.

Definition in_range (lo hi : Q) (a : pyfloat) : Prop :=
  match a with Fin q => (lo <= q /\ q <= hi)%Q | _ => False end.

End Num.
Export Num.

(** ** Level and kelvin (lines 51-66) *)

Definition kelvin_to_level (kelvin : pyfloat) : pyfloat :=
  if flt kelvin (Fin 2200) then Fin 0
  else if flt (Fin 6000) kelvin then Fin 100
  else fmulr (fdivc (fsubc kelvin 2200) (6000 - 2200)) 100.

Definition level_to_kelvin (level : pyfloat) : pyfloat :=
  if flt level (Fin 0) then Fin 2200
  else if flt (Fin 100) level then Fin 6000
  else faddc (fdivc (fmulc (6000 - 2200) level) 100) 2200.

(** ** Python values, exceptions and the builtins the source calls *)

Inductive pyval :=
| VNone
| VInt (z : Z)
| VFloat (x : pyfloat)
| VStr (s : string).

(** The exceptions the modelled code can raise.  [IllFormed] is not a
    Python exception: it marks a reference that is unbound in the heap or
    bound to an object of a class the field cannot hold ([_vid_to_load]
    holds outputs, lines 287 and 298; [Button._keypad] holds a keypad or
    [None], lines 598 and 613-621).  No Python run reaches it: in a
    well-formed world [_recv] never raises it ([recv_well_formed]). *)
Inductive exn :=
| IndexError
| ValueError
| TypeError
| OverflowError
| KeyError
| VIDExistsError (vid : Z)
| Exception (msg : string)
| IllFormed.

Module Str.

Definition code (c : ascii) : N := N_of_ascii c.

Definition is_digit (c : ascii) : bool := (48 <=? code c)%N && (code c <=? 57)%N.

Definition digit_val (c : ascii) : Z := Z.of_N (code c) - 48.

(** Whitespace as [str.strip] sees it, within ASCII: the characters 9 to
    13, the separators 28 to 31 and the space. *)
Definition is_space (c : ascii) : bool :=
  ((9 <=? code c)%N && (code c <=? 13)%N)
  || ((28 <=? code c)%N && (code c <=? 32)%N).

Definition lower_char (c : ascii) : ascii :=
  if (65 <=? code c)%N && (code c <=? 90)%N then ascii_of_N (code c + 32) else c.

Fixpoint lstrip (l : list ascii) : list ascii :=
  match l with
  | c :: l' => if is_space c then lstrip l' else l
  | [] => []
  end.

Definition rstrip (l : list ascii) : list ascii := rev (lstrip (rev l)).

Definition strip (l : list ascii) : list ascii := rstrip (lstrip l).

(** Whitespace as [float] and [int] see it, within ASCII: the characters
    9 to 13 and the space.  The separators 28 to 31, which [str.strip]
    takes, are not skipped by the two conversions. *)
Definition is_num_space (c : ascii) : bool :=
  ((9 <=? code c)%N && (code c <=? 13)%N) || (code c =? 32)%N.

Fixpoint num_lstrip (l : list ascii) : list ascii :=
  match l with
  | c :: l' => if is_num_space c then num_lstrip l' else l
  | [] => []
  end.

(** The text of a number without the whitespace around it. *)
Definition num_strip (l : list ascii) : list ascii :=
  rev (num_lstrip (rev (num_lstrip l))).

Definition chars (s : string) : list ascii := list_ascii_of_string s.

Definition of_chars (l : list ascii) : string := string_of_list_ascii l.

(** [s.isdigit()], within ASCII: non-empty and digits only. *)
Definition isdigit (s : string) : bool :=
  match chars s with
  | [] => false
  | l => forallb is_digit l
  end.

(** The value of a run of decimal digits, most significant first. *)
Definition digits_val (l : list ascii) : Z :=
  fold_left (fun acc c => 10 * acc + digit_val c) l 0.

(** [digit (["_"] digit)*]: the longest such prefix (its digits, without
    the underscores) and the rest; no digits when [l] starts with none. *)
Fixpoint digitpart (l : list ascii) : list ascii * list ascii :=
  match l with
  | c :: l' =>
      if is_digit c then
        match l' with
        | "_"%char :: ((d :: _) as l'') =>
            if is_digit d
            then let '(ds, rest) := digitpart l'' in (c :: ds, rest)
            else ([c], l')
        | _ => let '(ds, rest) := digitpart l' in (c :: ds, rest)
        end
      else ([], l)
  | [] => ([], [])
  end.

(** An optional sign: [true] for a minus. *)
Definition sign (l : list ascii) : bool * list ascii :=
  match l with
  | "-"%char :: l' => (true, l')
  | "+"%char :: l' => (false, l')
  | _ => (false, l)
  end.

(** [line[n:]] *)
Fixpoint drop_chars (n : nat) (s : string) : string :=
  match n, s with
  | O, _ => s
  | S n', String _ s' => drop_chars n' s'
  | S _, EmptyString => EmptyString
  end.

(** [line[0]], for a non-empty line. *)
Definition first_char (s : string) : option ascii :=
  match s with String c _ => Some c | EmptyString => None end.

(** [s.startswith(p)] *)
Definition startswith (p s : string) : bool := String.prefix p s.

(** [re.split(r'[ :]', s)]: cut at every space and every colon; empty
    pieces are kept, and the result is never empty. *)
Fixpoint split_sp_colon_aux (cur : list ascii) (l : list ascii) : list string :=
  match l with
  | [] => [of_chars (rev cur)]
  | c :: l' =>
      if (Ascii.eqb c " " || Ascii.eqb c ":")%bool
      then of_chars (rev cur) :: split_sp_colon_aux [] l'
      else split_sp_colon_aux (c :: cur) l'
  end.

Definition split_sp_colon (s : string) : list string :=
  split_sp_colon_aux [] (chars s).

End Str.

(** [int(s)] for a string, base ten: surrounding whitespace, a sign,
    digits with single underscores between them. *)
Definition int_of_string (s : string) : option Z :=
  let '(neg, l) := Str.sign (Str.num_strip (Str.chars s)) in
  match Str.digitpart l with
  | ((_ :: _) as ds, []) =>
      Some (if neg then - Str.digits_val ds else Str.digits_val ds)
  | _ => None
  end.

(** The exponent part of a float literal: empty, or [e] or [E], a sign
    and digits, up to the end of the text. *)
Definition exponent (l : list ascii) : option Z :=
  match l with
  | [] => Some 0
  | c :: l' =>
      if (Ascii.eqb c "e" || Ascii.eqb c "E")%bool then
        let '(neg, l'') := Str.sign l' in
        match Str.digitpart l'' with
        | ((_ :: _) as ds, []) =>
            Some (if neg then - Str.digits_val ds else Str.digits_val ds)
        | _ => None
        end
      else None
  end.

(** [m * 10^e] as a rational. *)
Definition scale10 (m e : Z) : Q :=
  if 0 <=? e then inject_Z (m * 10 ^ e)
  else Qmake m (Z.to_pos (10 ^ (- e))).

(** [float(s)] for a string: surrounding whitespace, a sign, then
    [inf], [infinity] or [nan] in any case, or a decimal literal
    [digits[.digits]], [.digits] or [digits.] with an optional exponent. *)
Definition float_of_string (s : string) : option pyfloat :=
  let '(neg, l) := Str.sign (Str.num_strip (Str.chars s)) in
  let word := Str.of_chars (map Str.lower_char l) in
  if (String.eqb word "inf" || String.eqb word "infinity")%bool
  then Some (if neg then NegInf else PosInf)
  else if String.eqb word "nan" then Some NaN
  else
    let '(ip, r1) := Str.digitpart l in
    let number (fp : list ascii) (r : list ascii) :=
      match ip ++ fp with
      | [] => None
      | ds =>
          e ← exponent r;
          let m := Str.digits_val ds in
          Some (Fin (scale10 (if neg then - m else m) (e - Z.of_nat (length fp))))
      end in
    match r1 with
    | "."%char :: r2 => let '(fp, r3) := Str.digitpart r2 in number fp r3
    | _ => number [] r1
    end.

(** [float(x)] *)
Definition py_float (x : pyval) : exn + pyfloat :=
  match x with
  | VNone => inl TypeError
  | VInt z => inr (Fin (inject_Z z))
  | VFloat f => inr f
  | VStr s => match float_of_string s with Some f => inr f | None => inl ValueError end
  end.

(** [int(x)] *)
Definition py_int (x : pyval) : exn + Z :=
  match x with
  | VNone => inl TypeError
  | VInt z => inr z
  | VFloat (Fin q) => inr (Z.quot (Qnum q) (Zpos (Qden q)))
  | VFloat NaN => inl ValueError
  | VFloat _ => inl OverflowError
  | VStr s => match int_of_string s with Some z => inr z | None => inl ValueError end
  end.

(** [x == s] for a string literal [s]. *)
Definition eq_str (x : pyval) (s : string) : bool :=
  match x with VStr t => String.eqb t s | _ => false end.

(** ** Objects *)

(** Objects are named by references; [threading.Event] objects by
    numbers of their own. *)
Definition ref := nat.
Definition event := nat.
Definition handler := nat.

(** The [threading.Event] objects created so far and the ones that are
    set.  A new event is not set. *)
Module Events.

Record t := { next : event; flagged : gset event }.

Definition init : t := {| next := 0%nat; flagged := ∅ |}.

(** [threading.Event()] *)
Definition fresh (es : t) : event * t :=
  (next es, {| next := S (next es); flagged := flagged es |}).

(** [ev.set()] *)
Definition set (es : t) (ev : event) : t :=
  {| next := next es; flagged := {[ev]} ∪ flagged es |}.

(** [for ev in events: ev.set()] *)
Definition set_all (evs : list event) (es : t) : t := foldl set es evs.

End Events.

(** [_RequestHelper] (lines 1037-1081). *)
Module RequestHelper.

Record t := { __events : list event }.

(** [__init__] *)
Definition init : t := {| __events := [] |}.

(** The locked part of [request]: is the list empty, then append. *)
Definition enqueue (ev : event) (h : t) : bool * t :=
  (bool_decide (__events h = []), {| __events := __events h ++ [ev] |}).

(** The locked part of [notify]: take the list, leave [[]]. *)
Definition take (h : t) : list event * t := (__events h, {| __events := [] |}).

(** A helper in its surroundings: the event objects and whatever the
    requested actions act on. *)
Record state (E : Type) := State { helper : t; evs : Events.t; env : E }.
Arguments State {E} _ _ _.
Arguments helper {E} _.
Arguments evs {E} _.
Arguments env {E} _.

(** [request(action)]: the event handed back and the state left. *)
Definition request {E} (action : state E → state E) (s : state E)
  : event * state E :=
  let '(ev, es) := Events.fresh (evs s) in
  let '(first, h) := enqueue ev (helper s) in
  let s1 := State h es (env s) in
  (ev, if first then action s1 else s1).

(** [notify()] *)
Definition notify {E} (s : state E) : state E :=
  let '(events, h) := take (helper s) in
  State h (Events.set_all events (evs s)) (env s).

End RequestHelper.

(** [VantageEntity]: the fields every entity has. *)
Module Entity.

Record t := {
  _name : string;
  _area : option Z;
  _vid : Z;
  _extra_info : gmap string pyval
}.

Definition with_name (n : string) (e : t) : t :=
  {| _name := n; _area := _area e; _vid := _vid e; _extra_info := _extra_info e |}.

Definition with_extra_info (ei : gmap string pyval) (e : t) : t :=
  {| _name := _name e; _area := _area e; _vid := _vid e; _extra_info := ei |}.

End Entity.

Module Area.

Record t := { _name : string; _parent : Z; _vid : Z }.

End Area.

Module Variable_.

Record t := { base : Entity.t; _value : option pyfloat }.

End Variable_.

(** [Output]; a [LoadGroup] is an output whose two types are ['GROUP']
    and inherits [handle_update]. *)
Module Output.

Record t := {
  base : Entity.t;
  _output_type : string;
  _load_type : string;
  _level : pyfloat;
  _color_temp : pyfloat;
  _rgb : list pyval;
  _hs : list pyval;
  _color_control_vid : option Z;
  _dmx_color : bool;
  _query_waiters : RequestHelper.t;
  _ramp_sec : list pyval;
  _addedstatus : bool
}.

Definition with_level (v : pyfloat) (o : t) : t :=
  {| base := base o; _output_type := _output_type o; _load_type := _load_type o;
     _level := v; _color_temp := _color_temp o; _rgb := _rgb o; _hs := _hs o;
     _color_control_vid := _color_control_vid o; _dmx_color := _dmx_color o;
     _query_waiters := _query_waiters o; _ramp_sec := _ramp_sec o;
     _addedstatus := _addedstatus o |}.

Definition with_color_temp (v : pyfloat) (o : t) : t :=
  {| base := base o; _output_type := _output_type o; _load_type := _load_type o;
     _level := _level o; _color_temp := v; _rgb := _rgb o; _hs := _hs o;
     _color_control_vid := _color_control_vid o; _dmx_color := _dmx_color o;
     _query_waiters := _query_waiters o; _ramp_sec := _ramp_sec o;
     _addedstatus := _addedstatus o |}.

Definition with_rgb (v : list pyval) (o : t) : t :=
  {| base := base o; _output_type := _output_type o; _load_type := _load_type o;
     _level := _level o; _color_temp := _color_temp o; _rgb := v; _hs := _hs o;
     _color_control_vid := _color_control_vid o; _dmx_color := _dmx_color o;
     _query_waiters := _query_waiters o; _ramp_sec := _ramp_sec o;
     _addedstatus := _addedstatus o |}.

Definition with_query_waiters (h : RequestHelper.t) (o : t) : t :=
  {| base := base o; _output_type := _output_type o; _load_type := _load_type o;
     _level := _level o; _color_temp := _color_temp o; _rgb := _rgb o; _hs := _hs o;
     _color_control_vid := _color_control_vid o; _dmx_color := _dmx_color o;
     _query_waiters := h; _ramp_sec := _ramp_sec o;
     _addedstatus := _addedstatus o |}.

Definition with_base (b : Entity.t) (o : t) : t :=
  {| base := b; _output_type := _output_type o; _load_type := _load_type o;
     _level := _level o; _color_temp := _color_temp o; _rgb := _rgb o; _hs := _hs o;
     _color_control_vid := _color_control_vid o; _dmx_color := _dmx_color o;
     _query_waiters := _query_waiters o; _ramp_sec := _ramp_sec o;
     _addedstatus := _addedstatus o |}.

(** [__init__] (lines 1297-1317), before the registration call. *)
Definition init (name : string) (area : option Z) (output_type load_type : string)
    (cc_vid : option Z) (dmx_color : bool) (vid : Z) : t :=
  {| base := {| Entity._name := name; Entity._area := area; Entity._vid := vid;
                Entity._extra_info := ∅ |};
     _output_type := output_type; _load_type := load_type;
     _level := Fin 0; _color_temp := Fin 2700;
     _rgb := [VInt 0; VInt 0; VInt 0]; _hs := [VInt 0; VInt 0];
     _color_control_vid := cc_vid; _dmx_color := dmx_color;
     _query_waiters := RequestHelper.init;
     _ramp_sec := [VInt 0; VInt 0; VInt 0]; _addedstatus := false |}.

End Output.

(** [Button]: a keypad button, or a dry contact when [_keypad] is [None]. *)
Module Button.

Record t := {
  base : Entity.t;
  _num : Z;
  _parent : Z;
  _keypad : option ref;
  _desc : option string;
  _value : pyval
}.

Definition with_value (v : pyval) (b : t) : t :=
  {| base := base b; _num := _num b; _parent := _parent b; _keypad := _keypad b;
     _desc := _desc b; _value := v |}.

End Button.

Module Keypad.

Record t := { base : Entity.t; _buttons : list ref; _value : pyval }.

End Keypad.

Module Task.

Record t := { base : Entity.t }.

End Task.

(** [PollingSensor], the base of [LightSensor] and [OmniSensor]. *)
Module PollingSensor.

Record t := { base : Entity.t; _value : option pyfloat; _kind : string }.

End PollingSensor.

Module Shade.

Record t := {
  base : Entity.t;
  _level : option pyfloat;
  _load_type : string;
  _query_waiters : RequestHelper.t
}.

End Shade.

(** An object of the heap, by its class. *)
Inductive obj :=
| OVariable (v : Variable_.t)
| OOutput (o : Output.t)
| OButton (b : Button.t)
| OKeypad (k : Keypad.t)
| OTask (t : Task.t)
| OSensor (s : PollingSensor.t)
| OShade (s : Shade.t).

Definition obj_base (o : obj) : Entity.t :=
  match o with
  | OVariable v => Variable_.base v
  | OOutput o => Output.base o
  | OButton b => Button.base b
  | OKeypad k => Keypad.base k
  | OTask t => Task.base t
  | OSensor s => PollingSensor.base s
  | OShade s => Shade.base s
  end.

Definition obj_with_base (b : Entity.t) (o : obj) : obj :=
  match o with
  | OVariable v => OVariable {| Variable_.base := b; Variable_._value := Variable_._value v |}
  | OOutput o => OOutput (Output.with_base b o)
  | OButton x =>
      OButton {| Button.base := b; Button._num := Button._num x;
                 Button._parent := Button._parent x; Button._keypad := Button._keypad x;
                 Button._desc := Button._desc x; Button._value := Button._value x |}
  | OKeypad k =>
      OKeypad {| Keypad.base := b; Keypad._buttons := Keypad._buttons k;
                 Keypad._value := Keypad._value k |}
  | OTask _ => OTask {| Task.base := b |}
  | OSensor s =>
      OSensor {| PollingSensor.base := b; PollingSensor._value := PollingSensor._value s;
                 PollingSensor._kind := PollingSensor._kind s |}
  | OShade s =>
      OShade {| Shade.base := b; Shade._level := Shade._level s;
                Shade._load_type := Shade._load_type s;
                Shade._query_waiters := Shade._query_waiters s |}
  end.

(** ** The world *)

(** A line handed to the connection: built by hand ([send_cmd]), or by
    [Vantage.send], which joins [op], [str(vid)] and the [str] of every
    argument with spaces (the text of a float is not modelled). *)
Inductive command :=
| Line (s : string)
| Formatted (op : string) (vid : Z) (args : list pyval).

(** A value of [name_mappings]: [True] drops the area from the name, a
    string replaces it. *)
Inductive name_mapping :=
| MapTrue
| MapTo (s : string).

(** The [Vantage] object with everything it reaches.
    [sent] are the lines written to the connection, oldest first (the
    connection is taken to be up, so that a write succeeds); [called]
    are the subscriber calls made, oldest first. *)
Record World := {
  heap : gmap ref obj;
  events : Events.t;
  _cmds : list command;
  _ids : gmap (option string) (gmap Z ref);
  _names : gmap string Z;
  _subscribers : gmap ref handler;
  _vid_to_area : gmap Z Area.t;
  _vid_to_load : gmap Z ref;
  _name_mappings : option (gmap string name_mapping);
  sent : list command;
  called : list (handler * ref)
}.

Definition with_heap (h : gmap ref obj) (w : World) : World :=
  {| heap := h; events := events w; _cmds := _cmds w; _ids := _ids w;
     _names := _names w; _subscribers := _subscribers w;
     _vid_to_area := _vid_to_area w; _vid_to_load := _vid_to_load w;
     _name_mappings := _name_mappings w; sent := sent w; called := called w |}.

Definition with_events (es : Events.t) (w : World) : World :=
  {| heap := heap w; events := es; _cmds := _cmds w; _ids := _ids w;
     _names := _names w; _subscribers := _subscribers w;
     _vid_to_area := _vid_to_area w; _vid_to_load := _vid_to_load w;
     _name_mappings := _name_mappings w; sent := sent w; called := called w |}.

Definition with_cmds (c : list command) (w : World) : World :=
  {| heap := heap w; events := events w; _cmds := c; _ids := _ids w;
     _names := _names w; _subscribers := _subscribers w;
     _vid_to_area := _vid_to_area w; _vid_to_load := _vid_to_load w;
     _name_mappings := _name_mappings w; sent := sent w; called := called w |}.

Definition with_ids (i : gmap (option string) (gmap Z ref)) (w : World) : World :=
  {| heap := heap w; events := events w; _cmds := _cmds w; _ids := i;
     _names := _names w; _subscribers := _subscribers w;
     _vid_to_area := _vid_to_area w; _vid_to_load := _vid_to_load w;
     _name_mappings := _name_mappings w; sent := sent w; called := called w |}.

Definition with_names (n : gmap string Z) (w : World) : World :=
  {| heap := heap w; events := events w; _cmds := _cmds w; _ids := _ids w;
     _names := n; _subscribers := _subscribers w;
     _vid_to_area := _vid_to_area w; _vid_to_load := _vid_to_load w;
     _name_mappings := _name_mappings w; sent := sent w; called := called w |}.

Definition with_sent (l : list command) (w : World) : World :=
  {| heap := heap w; events := events w; _cmds := _cmds w; _ids := _ids w;
     _names := _names w; _subscribers := _subscribers w;
     _vid_to_area := _vid_to_area w; _vid_to_load := _vid_to_load w;
     _name_mappings := _name_mappings w; sent := l; called := called w |}.

Definition with_called (l : list (handler * ref)) (w : World) : World :=
  {| heap := heap w; events := events w; _cmds := _cmds w; _ids := _ids w;
     _names := _names w; _subscribers := _subscribers w;
     _vid_to_area := _vid_to_area w; _vid_to_load := _vid_to_load w;
     _name_mappings := _name_mappings w; sent := sent w; called := l |}.

(** ** Computations: state and exceptions *)

Inductive outcome (A : Type) :=
| Ret (a : A)
| Raise (e : exn).
Arguments Ret {A} _.
Arguments Raise {A} _.

(** A computation runs in a world and leaves a world, whether it returns
    or raises. *)
Definition M (A : Type) : Type := World → outcome A * World.

#[global] Instance M_ret : MRet M := λ A a w, (Ret a, w).

#[global] Instance M_bind : MBind M := λ A B k m w,
  match m w with
  | (Ret a, w') => k a w'
  | (Raise e, w') => (Raise e, w')
  end.

Definition raise {A} (e : exn) : M A := λ w, (Raise e, w).

Definition lift {A} (x : exn + A) : M A :=
  match x with inl e => raise e | inr a => mret a end.

Definition gets {A} (f : World → A) : M A := λ w, (Ret (f w), w).

Definition modify (f : World → World) : M unit := λ w, (Ret (), f w).

(** [l[i]] for [i >= 0] *)
Definition index {A} (l : list A) (i : nat) : M A :=
  match l !! i with Some x => mret x | None => raise IndexError end.

(** Read the object behind a reference. *)
Definition deref (r : ref) : M obj := λ w,
  match heap w !! r with Some o => (Ret o, w) | None => (Raise IllFormed, w) end.

(** Overwrite the object behind a reference. *)
Definition store (r : ref) (o : obj) : M unit :=
  modify (λ w, with_heap (<[r := o]> (heap w)) w).

(** ** The entity update handlers *)

(** [h.notify()] for a helper [h] held by an object: the helper left,
    its events set. *)
Definition notify_waiters (h : RequestHelper.t) : M RequestHelper.t := λ w,
  let s := RequestHelper.notify (RequestHelper.State h (events w) ()) in
  (Ret (RequestHelper.helper s), with_events (RequestHelper.evs s) w).

(** [light._query_waiters.notify()] for the output behind [r]. *)
Definition Output_notify (r : ref) : M unit :=
  o ← deref r;
  match o with
  | OOutput out =>
      h ← notify_waiters (Output._query_waiters out);
      store r (OOutput (Output.with_query_waiters h out))
  | _ => raise IllFormed
  end.

(** [Variable.handle_update] (lines 1277-1287) *)
Definition Variable_handle_update (r : ref) (self : Variable_.t)
    (args : list pyval) : M (option ref) :=
  a0 ← index args 0;
  value ← lift (py_float a0);
  store r (OVariable {| Variable_.base := Variable_.base self;
                        Variable_._value := Some value |});;
  mret (Some r).

(** [self._rgb[char] = val]: a negative index counts from the end. *)
Definition list_assign (l : list pyval) (i : Z) (v : pyval) : M (list pyval) :=
  let n := Z.of_nat (length l) in
  let j := if i <? 0 then i + n else i in
  if (0 <=? j) && (j <? n) then mret (<[Z.to_nat j := v]> l)
  else raise IndexError.

(** [Output.handle_update] (lines 1352-1389) *)
Definition Output_handle_update (r : ref) (self : Output.t)
    (args : list pyval) : M (option ref) :=
  if decide (length args = 1%nat) then
    a0 ← index args 0;
    level ← lift (py_float a0);
    if decide (Output._output_type self = "COLOR") then
      let color_temp := level_to_kelvin level in
      light ← gets (λ w, Output._color_control_vid self ≫= (_vid_to_load w !!.));
      match light with
      | Some lr =>
          l ← deref lr;
          match l with
          | OOutput l =>
              store lr (OOutput (Output.with_color_temp color_temp l));;
              Output_notify lr;;
              mret (Some lr)
          | _ => raise IllFormed
          end
      | None => mret (Some r)
      end
    else
      store r (OOutput (Output.with_level level self));;
      Output_notify r;;
      mret (Some r)
  else
    a0 ← index args 0;
    (if eq_str a0 "RGBLoad.GetRGB" then
       a1 ← index args 1;
       a2 ← index args 2;
       val ← lift (py_int a1);
       char ← lift (py_int a2);
       (if char <? 3 then
          rgb ← list_assign (Output._rgb self) char (VInt val);
          store r (OOutput (Output.with_rgb rgb self))
        else mret ());;
       (if char =? 2 then Output_notify r else mret ())
     else mret ());;
    mret (Some r).

(** [Keypad.handle_update] (lines 1672-1682) *)
Definition Keypad_handle_update (r : ref) (self : Keypad.t)
    (args : list pyval) : M (option ref) :=
  a0 ← index args 0;
  store r (OKeypad {| Keypad.base := Keypad.base self;
                      Keypad._buttons := Keypad._buttons self;
                      Keypad._value := a0 |});;
  a1 ← index args 1;
  a2 ← index args 2;
  let ei : gmap string pyval := <["button_action" := a2]> (<["button_name" := a1]> ∅) in
  store r (OKeypad {| Keypad.base := Entity.with_extra_info ei (Keypad.base self);
                      Keypad._buttons := Keypad._buttons self;
                      Keypad._value := a0 |});;
  mret (Some r).

(** The second half of [handle_update_and_notify] (lines 857-859): call
    the subscriber of the object that was handled, if it has one. *)
Definition notify_subscriber (handled : option ref) : M unit :=
  match handled with
  | Some h => λ w,
      match _subscribers w !! h with
      | Some f => (Ret (), with_called (called w ++ [(f, h)]) w)
      | None => (Ret (), w)
      end
  | None => mret ()
  end.

(** [Button.handle_update] (lines 1582-1608).  The call of
    [handle_update_and_notify] on the keypad runs the keypad's handler
    and then the keypad's subscriber. *)
Definition Button_handle_update (r : ref) (self : Button.t)
    (args : list pyval) : M (option ref) :=
  action ← index args 0;
  match Button._keypad self with
  | Some kr =>
      store r (OButton (Button.with_value action self));;
      k ← deref kr;
      match k with
      | OKeypad kp =>
          handled ← Keypad_handle_update kr kp
            [VInt (Button._num self); VStr (Entity._name (Button.base self)); action];
          notify_subscriber handled
      | _ => raise IllFormed
      end
  | None =>
      if eq_str action "PRESS" then
        store r (OButton (Button.with_value (VStr "Violated") self))
      else if eq_str action "RELEASE" then
        store r (OButton (Button.with_value (VStr "Normal") self))
      else
        store r (OButton (Button.with_value action self))
  end;;
  mret (Some r).

(** [[int(x) for x in l]] *)
Fixpoint ints (l : list pyval) : M (list Z) :=
  match l with
  | [] => mret []
  | x :: l' => z ← lift (py_int x); zs ← ints l'; mret (z :: zs)
  end.

(** [Task.handle_update] (lines 1701-1712) *)
Definition Task_handle_update (r : ref) (self : Task.t)
    (args : list pyval) : M (option ref) :=
  a0 ← index args 0;
  component ← lift (py_int a0);
  a1 ← index args 1;
  action ← lift (py_int a1);
  params ← ints (drop 2 args);
  mret (Some r).

(** [PollingSensor.handle_update] (lines 1744-1754) *)
Definition PollingSensor_handle_update (r : ref) (self : PollingSensor.t)
    (args : list pyval) : M (option ref) :=
  a0 ← index args 0;
  value ← lift (py_float a0);
  store r (OSensor {| PollingSensor.base := PollingSensor.base self;
                      PollingSensor._value := Some value;
                      PollingSensor._kind := PollingSensor._kind self |});;
  mret (Some r).

(** [Shade.handle_update] (lines 1864-1884) *)
Definition Shade_handle_update (r : ref) (self : Shade.t)
    (args : list pyval) : M (option ref) :=
  value ← index args 0;
  value ← (if eq_str value "OPEN" then mret (Some (Fin 100))
           else if eq_str value "CLOSE" then mret (Some (Fin 0))
           else if eq_str value "STOP" then mret None
           else if eq_str value "POS" then
             a1 ← index args 1; v ← lift (py_float a1); mret (Some v)
           else v ← lift (py_float value); mret (Some v));
  store r (OShade {| Shade.base := Shade.base self; Shade._level := value;
                     Shade._load_type := Shade._load_type self;
                     Shade._query_waiters := Shade._query_waiters self |});;
  mret (Some r).

(** [obj.handle_update(args)]: the method of the object's class. *)
Definition handle_update (r : ref) (args : list pyval) : M (option ref) :=
  o ← deref r;
  match o with
  | OVariable v => Variable_handle_update r v args
  | OOutput o => Output_handle_update r o args
  | OButton b => Button_handle_update r b args
  | OKeypad k => Keypad_handle_update r k args
  | OTask t => Task_handle_update r t args
  | OSensor s => PollingSensor_handle_update r s args
  | OShade s => Shade_handle_update r s args
  end.

(** [Vantage.handle_update_and_notify] (lines 854-859) *)
Definition handle_update_and_notify (r : ref) (args : list pyval) : M unit :=
  handled ← handle_update r args;
  notify_subscriber handled.

(** ** The dispatcher *)

Inductive line_type := R | S.

Definition _r_cmds : list string :=
  ["LOGIN"; "LOAD"; "STATUS"; "GETLOAD"; "VARIABLE"; "ERROR";
   "TASK"; "GETBLIND"; "BLIND"; "INVOKE";
   "GETLIGHT"; "GETPOWER"; "GETCURRENT";
   "GETSENSOR"; "ADDSTATUS"; "DELSTATUS";
   "GETCUSTOM"; "RAMPLOAD"; "GETTEMPERATURE"].

Definition _s_cmds : list string :=
  ["LOAD"; "TASK"; "BTN"; "VARIABLE"; "BLIND"; "STATUS"].

(** [self._cmds.popleft()] when the queue is not empty. *)
Definition pop_cmd : M unit := modify (λ w, with_cmds (tail (_cmds w)) w).

(** Lines 834-852 of [_recv]: find the object and let it update itself. *)
Definition _recv_lookup (typ : line_type) (cmd_type vid : string)
    (args : list string) : M unit :=
  ids ← gets (λ w, _ids w !! Some cmd_type);
  match ids with
  | None => mret ()
  | Some ids =>
      if negb (Str.isdigit vid) then mret ()
      else
        let vid := Str.digits_val (Str.chars vid) in
        match ids !! vid with
        | None => mret ()
        | Some obj =>
            if match typ with
               | S => true
               | R => bool_decide (cmd_type ∈ ["LOAD"; "POWER"; "CURRENT"; "SENSOR"; "LIGHT"])
               end
            then handle_update_and_notify obj (VStr <$> args)
            else mret ()
        end
  end.

(** Lines 798-832 of [_recv]: split the line and filter by command. *)
Definition _recv_parts (typ : line_type) (line : string) : M unit :=
  let cmds := match typ with R => _r_cmds | S => _s_cmds end in
  let parts := Str.split_sp_colon (Str.drop_chars 2 line) in
  cmd_type ← index parts 0;
  vid ← index parts 1;
  let args := drop 2 parts in
  if negb (bool_decide (cmd_type ∈ cmds)) then mret ()
  else if decide (cmd_type = "LOGIN") then mret ()
  else if match typ with
          | R => bool_decide (cmd_type ∈ ["STATUS"; "ADDSTATUS"; "DELSTATUS"; "INVOKE";
                                          "GETCUSTOM"; "RAMPLOAD"; "GETTEMPERATURE"])
          | S => false
          end then mret ()
  else if match typ with R => bool_decide (cmd_type = "ERROR") | S => false end then mret ()
  else if decide (cmd_type = "ERROR") then mret ()
  else if bool_decide (cmd_type ∈ ["GETLOAD"; "GETPOWER"; "GETCURRENT"; "GETSENSOR"; "GETLIGHT"])
  then _recv_lookup typ (Str.drop_chars 3 cmd_type) vid args
  else if decide (cmd_type = "GETBLIND") then mret ()
  else if decide (cmd_type = "TASK") then mret ()
  else _recv_lookup typ cmd_type vid args.

(** [Vantage._recv] (lines 777-852) *)
Definition _recv (line : string) : M unit :=
  if decide (line = "") then mret ()
  else
    match Str.first_char line with
    | Some "R"%char => pop_cmd;; _recv_parts R line
    | Some "S"%char => _recv_parts S line
    | _ => mret ()
    end.

(** ** Registration *)

(** [Vantage.subscribe] (lines 692-701) *)
Definition subscribe (r : ref) (f : handler) : M unit := λ w,
  (Ret (),
   {| heap := heap w; events := events w; _cmds := _cmds w; _ids := _ids w;
      _names := _names w; _subscribers := <[r := f]> (_subscribers w);
      _vid_to_area := _vid_to_area w; _vid_to_load := _vid_to_load w;
      _name_mappings := _name_mappings w; sent := sent w; called := called w |}).

(** The loop of [get_lineage_from_obj] with [n] rounds left. *)
Fixpoint lineage_loop (n : nat) (areas : gmap Z Area.t) (area : Area.t)
    (answer : list string) : list string :=
  match n with
  | O => answer
  | Datatypes.S n' =>
      let parent_vid := Area._parent area in
      if parent_vid =? 0 then answer
      else match areas !! parent_vid with
           | Some a => lineage_loop n' areas a (answer ++ [Area._name a])
           | None => answer
           end
  end.

(** [Vantage.get_lineage_from_obj] (lines 703-719) *)
Definition get_lineage_from_obj (areas : gmap Z Area.t) (o : obj) : list string :=
  match Entity._area (obj_base o) ≫= (areas !!.) with
  | None => []
  | Some area => lineage_loop 10 areas area [Area._name area]
  end.

Definition str_strip (s : string) : string := Str.of_chars (Str.strip (Str.chars s)).

Definition str_lower (s : string) : string :=
  Str.of_chars (map Str.lower_char (Str.chars s)).

(** [s[0:-1]] *)
Definition str_init (s : string) : string := Str.of_chars (removelast (Str.chars s)).

(** The loop of [register_id] over the areas above the object's own
    (lines 739-753): the prefix of the qualified name. *)
Fixpoint name_prefix (mappings : option (gmap string name_mapping))
    (areas : list string) (name : string) : string :=
  match areas with
  | [] => name
  | n :: rest =>
      let ns := str_strip n in
      if Str.startswith "Station Load " ns then name_prefix mappings rest name
      else if Str.startswith "Color Load " ns then name_prefix mappings rest name
      else
        match (match mappings with
               | Some m => if decide (m = ∅) then None else m !! str_lower ns
               | None => None
               end) with
        | Some MapTrue => name_prefix mappings rest name
        | Some (MapTo mapped_name) => name_prefix mappings rest (name +:+ mapped_name +:+ "-")
        | None => name_prefix mappings rest (name +:+ ns +:+ "-")
        end
  end.

(** [self._ids.setdefault(k, {})] *)
Definition setdefault (k : option string) : M unit :=
  modify (λ w, match _ids w !! k with
               | Some _ => w
               | None => with_ids (<[k := ∅]> (_ids w)) w
               end).

(** [self._ids[k][vid] = obj] *)
Definition ids_assign (k : option string) (vid : Z) (r : ref) : M unit := λ w,
  match _ids w !! k with
  | Some m => (Ret (), with_ids (<[k := <[vid := r]> m]> (_ids w)) w)
  | None => (Raise KeyError, w)
  end.

(** [Vantage.register_id] (lines 722-774); [cmd_type2] is a string or
    [None]. *)
Definition register_id (cmd_type : string) (cmd_type2 : option string)
    (r : ref) : M unit :=
  o ← deref r;
  let vid := Entity._vid (obj_base o) in
  setdefault (Some cmd_type);;
  setdefault cmd_type2;;
  ids ← gets (λ w, default ∅ (_ids w !! cmd_type2));
  if decide (is_Some (ids !! vid)) then raise (VIDExistsError vid)
  else
    ids_assign (Some cmd_type) vid r;;
    (match cmd_type2 with
     | Some c2 => if decide (c2 = "") then mret () else ids_assign cmd_type2 vid r
     | None => mret ()
     end);;
    areas ← gets _vid_to_area;
    mappings ← gets _name_mappings;
    let lineage := get_lineage_from_obj areas o in
    let name := name_prefix mappings (rev (removelast lineage)) "" in
    let obj_name := Entity._name (obj_base o) in
    let obj_name :=
      if Str.startswith (str_init name) obj_name
      then name +:+ Str.drop_chars (String.length name) obj_name
      else name +:+ obj_name in
    names ← gets _names;
    let obj_name :=
      if decide (is_Some (names !! obj_name))
      then obj_name +:+ " (" +:+ pretty vid +:+ ")"
      else obj_name in
    store r (obj_with_base (Entity.with_name obj_name (obj_base o)) o);;
    modify (λ w, with_names (<[obj_name := vid]> (_names w)) w).

(** ** Sending *)

(** [Vantage.send_cmd] (lines 871-874) *)
Definition send_cmd (cmd : command) : M unit :=
  modify (λ w, with_cmds (_cmds w ++ [cmd]) w);;
  modify (λ w, with_sent (sent w ++ [cmd]) w).

(** [Vantage.send] (lines 877-882) *)
Definition send (op : string) (vid : Z) (args : list pyval) : M unit :=
  send_cmd (Formatted op vid args).

(** [num.match(value)] for the pattern of line 889, within ASCII: one or
    more digits up to the end of the text, or up to a newline that ends
    the text. *)
Definition match_num (s : string) : bool :=
  let l := Str.chars s in
  let l := match last l with
           | Some "010"%char => removelast l
           | _ => l
           end in
  match l with
  | [] => false
  | _ => forallb Str.is_digit l
  end.

(** [p.match(value)] for the pattern of line 893, a character class of
    the double quote, the newline and the carriage return: [match] looks
    at the start of the text only. *)
Definition match_quote_newline (s : string) : bool :=
  match s with
  | String c _ =>
      bool_decide (c = "034"%char) || bool_decide (c = "010"%char)
      || bool_decide (c = "013"%char)
  | EmptyString => false
  end.

(** The double quote, as a string. *)
Definition dquote : string := String "034"%char EmptyString.

(** [Vantage.set_variable_vid] (lines 886-898) *)
Definition set_variable_vid (vid : Z) (value : pyval) : M unit :=
  match value with
  | VInt z => send_cmd (Line ("VARIABLE " +:+ pretty vid +:+ " " +:+ pretty z))
  | VStr s =>
      if match_num s then
        send_cmd (Line ("VARIABLE " +:+ pretty vid +:+ " " +:+ s))
      else if match_quote_newline s then
        raise (Exception "Newlines and quotes are not allowed in Text values")
      else
        send_cmd (Line ("VARIABLE " +:+ pretty vid +:+ " " +:+ dquote +:+ s +:+ dquote))
  | _ => raise TypeError
  end.

(** The setter of [Output.level] (lines 1423-1434), for a number. *)
Definition Output_set_level (r : ref) (new_level : pyfloat) : M unit :=
  o ← deref r;
  match o with
  | OOutput self =>
      if feqb (Output._level self) new_level then mret ()
      else
        ramp_sec ← (if feqb new_level (Fin 0)
                    then index (Output._ramp_sec self) 1
                    else index (Output._ramp_sec self) 0);
        send "RAMPLOAD" (Entity._vid (Output.base self)) [VFloat new_level; ramp_sec];;
        store r (OOutput (Output.with_level new_level self))
  | _ => raise IllFormed
  end.

(** ** Runs of a request helper *)

(** A call on one helper: [request(action)], where the action is known by
    a label and running it records the label, or [notify()]. *)
Inductive call (T : Type) :=
| Request (action : T)
| Notify.
Arguments Request {T} _.
Arguments Notify {T}.

(** Running the action labelled [a]. *)
Definition fire {T} (a : T) (s : RequestHelper.state (list T))
  : RequestHelper.state (list T) :=
  RequestHelper.State (RequestHelper.helper s) (RequestHelper.evs s)
    (RequestHelper.env s ++ [a]).

Definition step {T} (s : RequestHelper.state (list T)) (c : call T)
  : RequestHelper.state (list T) :=
  match c with
  | Request a => snd (RequestHelper.request (fire a) s)
  | Notify => RequestHelper.notify s
  end.

Definition run {T} (cs : list (call T)) (s : RequestHelper.state (list T))
  : RequestHelper.state (list T) := foldl step s cs.

(** A helper that was just made, with no event made and no action run. *)
Definition start {T} : RequestHelper.state (list T) :=
  RequestHelper.State RequestHelper.init Events.init [].

(** ** The invariant of a request helper *)

(** What holds of a helper however it was used: the events waiting and
    the events set were all made before, and no waiting event is set. *)
Definition helper_inv {T} (s : RequestHelper.state (list T)) : Prop :=
  (∀ e, e ∈ RequestHelper.__events (RequestHelper.helper s) →
        (e < Events.next (RequestHelper.evs s))%nat)
  ∧ (∀ e, e ∈ Events.flagged (RequestHelper.evs s) →
          (e < Events.next (RequestHelper.evs s))%nat)
  ∧ (∀ e, e ∈ RequestHelper.__events (RequestHelper.helper s) →
          e ∉ Events.flagged (RequestHelper.evs s)).

(** ** Worlds the constructors can build *)

(** The typing of the references that the handlers follow: the loads of
    [_vid_to_load] are outputs (lines 287, 298), the keypad of a button is
    a keypad (lines 613-621), and a registered object exists. *)
Definition wf_world (w : World) : Prop :=
  (∀ vid r, _vid_to_load w !! vid = Some r → ∃ o, heap w !! r = Some (OOutput o))
  ∧ (∀ r b kr, heap w !! r = Some (OButton b) → Button._keypad b = Some kr →
               ∃ k, heap w !! kr = Some (OKeypad k))
  ∧ (∀ c ids vid r, _ids w !! c = Some ids → ids !! vid = Some r →
                    is_Some (heap w !! r)).

(** ** Reading [_recv] *)

(** The first character of a line of each type. *)
Definition line_prefix (typ : line_type) : ascii :=
  match typ with R => "R"%char | S => "S"%char end.

(** The command types [_recv] knows for a line of each type. *)
Definition known_cmds (typ : line_type) : list string :=
  match typ with R => _r_cmds | S => _s_cmds end.

(** The pieces [_recv] cuts a line into (line 798). *)
Definition tokens (line : string) : list string :=
  Str.split_sp_colon (Str.drop_chars 2 line).

(** The command type used for the lookup (lines 824-826): [GET] is cut
    off the five query commands. *)
Definition canonical (cmd_type : string) : string :=
  if bool_decide (cmd_type ∈ ["GETLOAD"; "GETPOWER"; "GETCURRENT"; "GETSENSOR"; "GETLIGHT"])
  then Str.drop_chars 3 cmd_type
  else cmd_type.

(** The world when [_recv] starts on the pieces: a response line has
    taken the oldest pending command. *)
Definition popped (typ : line_type) (w : World) : World :=
  match typ with R => with_cmds (tail (_cmds w)) w | S => w end.

(** The keypad as a button's update leaves it (lines 1594-1595 and
    1677-1681): the button's number as the value, its name and the action
    as the extra information. *)
Definition keypad_after (b : Button.t) (action : pyval) (k : Keypad.t) : Keypad.t :=
  {| Keypad.base :=
       Entity.with_extra_info
         (<["button_action" := action]>
            (<["button_name" := VStr (Entity._name (Button.base b))]> ∅))
         (Keypad.base k);
     Keypad._buttons := Keypad._buttons k;
     Keypad._value := VInt (Button._num b) |}.

(** The call that [handle_update_and_notify] makes for the object [h]
    (lines 858-859): to its subscriber, if it has one. *)
Definition subscriber_calls (w : World) (h : ref) : list (handler * ref) :=
  match _subscribers w !! h with Some f => [(f, h)] | None => [] end.

(** The value a dry contact keeps for an action (lines 1598-1606). *)
Definition contact_value (action : pyval) : pyval :=
  if eq_str action "PRESS" then VStr "Violated"
  else if eq_str action "RELEASE" then VStr "Normal"
  else action.

(** The objects whose handler reads a single argument [a] as a float: a
    variable (line 1283), a polling sensor (line 1750), an output
    (line 1359), and a shade unless [a] is one of its four words
    (line 1880). *)
Definition reads_float (o : obj) (a : string) : Prop :=
  match o with
  | OVariable _ | OSensor _ | OOutput _ => True
  | OShade _ => a ∉ ["OPEN"; "CLOSE"; "STOP"; "POS"]
  | _ => False
  end.

(** ** More of the source *)

(** [s.replace(c, new)] for a pattern [c] of one character. *)
Fixpoint replace_char (c : ascii) (new : string) (s : string) : string :=
  match s with
  | EmptyString => EmptyString
  | String x s' =>
      if Ascii.eqb x c then new +:+ replace_char c new s'
      else String x (replace_char c new s')
  end.

(** [xml_escape] (lines 44-48) *)
Definition xml_escape (s : string) : string :=
  let answer := replace_char "<" "&lt;" s in
  let answer := replace_char "&" "&amp;" answer in
  answer.

(** The error of a division. *)
Inductive arith_error := ZeroDivisionError.

(** [c / x] for a constant [c > 0]. *)
Definition fdiv_into (c : Q) (x : pyfloat) : arith_error + pyfloat :=
  match x with
  | Fin q => if Qeq_bool q 0 then inl ZeroDivisionError else inr (Fin (c / q))
  | PosInf | NegInf => inr (Fin 0)
  | NaN => inr NaN
  end.

(** [level_to_mireds] (lines 69-73) *)
Definition level_to_mireds (level : pyfloat) : arith_error + pyfloat :=
  let kelvin := level_to_kelvin level in
  fdiv_into 1000000 kelvin.

(** [_desc_from_t1t2] (lines 204-209); a text of the XML is a string or
    [None]. *)
Definition _desc_from_t1t2 (t1 t2 : option string) : exn + string :=
  match t2 with
  | None | Some EmptyString => inr (str_strip (default "" t1))
  | Some t2 =>
      match t1 with
      | Some t1 => inr (str_strip (t1 +:+ " " +:+ t2))
      | None => inl TypeError
      end
  end.

(** The loop of [full_lineage] with [n] rounds left. *)
Fixpoint full_lineage_loop (n : nat) (vid_to_area : gmap Z Area.t)
    (avid : option Z) (areas : list string) : list string :=
  match n with
  | O => areas
  | Datatypes.S n' =>
      match avid ≫= (vid_to_area !!.) with
      | None => areas
      | Some area =>
          let areas := areas ++ [Area._name area] in
          let avid := Area._parent area in
          if avid =? 0 then areas
          else full_lineage_loop n' vid_to_area (Some avid) areas
      end
  end.

(** [VantageEntity.full_lineage] (lines 1125-1142) *)
Definition full_lineage (vid_to_area : gmap Z Area.t) (self : Entity.t) : list string :=
  rev (full_lineage_loop 5 vid_to_area (Entity._area self) []) ++ [Entity._name self].

(** [s.upper()] *)
Definition upper_char (c : ascii) : ascii :=
  if (97 <=? Str.code c)%N && (Str.code c <=? 122)%N
  then ascii_of_N (Str.code c - 32) else c.

Definition str_upper (s : string) : string :=
  Str.of_chars (map upper_char (Str.chars s)).

(** [threading.Event()] *)
Definition fresh_event : M event := λ w,
  let '(ev, es) := Events.fresh (events w) in (Ret ev, with_events es w).

Definition Output_with_addedstatus (b : bool) (o : Output.t) : Output.t :=
  {| Output.base := Output.base o; Output._output_type := Output._output_type o;
     Output._load_type := Output._load_type o; Output._level := Output._level o;
     Output._color_temp := Output._color_temp o; Output._rgb := Output._rgb o;
     Output._hs := Output._hs o;
     Output._color_control_vid := Output._color_control_vid o;
     Output._dmx_color := Output._dmx_color o;
     Output._query_waiters := Output._query_waiters o;
     Output._ramp_sec := Output._ramp_sec o; Output._addedstatus := b |}.

(** [Output.__do_query_level] (lines 1391-1398); [support_color] is
    [_dmx_color] (lines 1411-1414). *)
Definition Output_do_query_level (r : ref) : M unit :=
  o ← deref r;
  match o with
  | OOutput self =>
      (if Output._dmx_color self && negb (Output._addedstatus self) then
         send "ADDSTATUS" (Entity._vid (Output.base self)) [];;
         store r (OOutput (Output_with_addedstatus true self))
       else mret ());;
      send "GETLOAD" (Entity._vid (Output.base self)) []
  | _ => raise IllFormed
  end.

(** The first statement of the getter of [Output.level] (line 1419):
    [self._query_waiters.request(self.__do_query_level)], with the body
    of [request] (lines 1063-1073).  The getter then waits for the event,
    for at most [_wait_seconds], and returns [self._level]. *)
Definition Output_level_request (r : ref) : M event :=
  ev ← fresh_event;
  o ← deref r;
  match o with
  | OOutput self =>
      let '(first, h) := RequestHelper.enqueue ev (Output._query_waiters self) in
      store r (OOutput (Output.with_query_waiters h self));;
      (if first then Output_do_query_level r else mret ());;
      mret ev
  | _ => raise IllFormed
  end.

(** [Shade.__do_query_level] (lines 1847-1850) *)
Definition Shade_do_query_level (r : ref) : M unit :=
  o ← deref r;
  match o with
  | OShade self => send "GETBLIND" (Entity._vid (Shade.base self)) []
  | _ => raise IllFormed
  end.

Definition Shade_with_query_waiters (h : RequestHelper.t) (s : Shade.t) : Shade.t :=
  {| Shade.base := Shade.base s; Shade._level := Shade._level s;
     Shade._load_type := Shade._load_type s; Shade._query_waiters := h |}.

Definition Shade_with_level (v : option pyfloat) (s : Shade.t) : Shade.t :=
  {| Shade.base := Shade.base s; Shade._level := v;
     Shade._load_type := Shade._load_type s;
     Shade._query_waiters := Shade._query_waiters s |}.

(** The first statement of the getter of [Shade.level] (line 1829). *)
Definition Shade_level_request (r : ref) : M event :=
  ev ← fresh_event;
  o ← deref r;
  match o with
  | OShade self =>
      let '(first, h) := RequestHelper.enqueue ev (Shade._query_waiters self) in
      store r (OShade (Shade_with_query_waiters h self));;
      (if first then Shade_do_query_level r else mret ());;
      mret ev
  | _ => raise IllFormed
  end.

(** [a == b] where each side is a number or [None]. *)
Definition opt_feqb (a b : option pyfloat) : bool :=
  match a, b with
  | None, None => true
  | Some x, Some y => feqb x y
  | _, _ => false
  end.

(** The setter of [Shade.level] (lines 1833-1845), with [open] and
    [close] (lines 1852-1862); the new level is a number or [None]. *)
Definition Shade_set_level (r : ref) (new_level : option pyfloat) : M unit :=
  o ← deref r;
  match o with
  | OShade self =>
      if opt_feqb (Shade._level self) new_level then mret ()
      else
        (if opt_feqb new_level (Some (Fin 0)) then
           send "BLIND" (Entity._vid (Shade.base self)) [VStr "CLOSE"]
         else if opt_feqb new_level (Some (Fin 100)) then
           send "BLIND" (Entity._vid (Shade.base self)) [VStr "OPEN"]
         else
           match new_level with
           | Some l => send "BLIND" (Entity._vid (Shade.base self)) [VStr "POS"; VFloat l]
           | None => mret ()
           end);;
        store r (OShade (Shade_with_level new_level self))
  | _ => raise IllFormed
  end.

(** [PollingSensor.update] (lines 1740-1742) *)
Definition PollingSensor_update (r : ref) : M unit :=
  o ← deref r;
  match o with
  | OSensor self =>
      send ("GET" +:+ str_upper (PollingSensor._kind self))
        (Entity._vid (PollingSensor.base self)) []
  | _ => raise IllFormed
  end.

(** [Vantage.call_task_vid] (lines 900-911).  The task found for the vid
    is used by the log only: the command is sent whether or not the vid
    is a task's. *)
Definition call_task_vid (vid : pyval) : M unit :=
  match vid with
  | VInt z => send_cmd (Line ("TASK " +:+ pretty z +:+ " RELEASE"))
  | VStr s =>
      if match_num s then send_cmd (Line ("TASK " +:+ s +:+ " RELEASE"))
      else mret ()
  | _ => raise TypeError
  end.

(** [Vantage.call_task] (lines 913-923); [_name_to_task] is not a part
    of the world and is given. *)
Definition call_task (_name_to_task : gmap string ref) (name : string) : M unit :=
  match _name_to_task !! name with
  | Some tr =>
      task ← deref tr;
      send_cmd (Line ("TASK " +:+ pretty (Entity._vid (obj_base task)) +:+ " RELEASE"))
  | None => mret ()
  end.

(** ** What an update leaves alone *)

(** An object without the fields that the update handlers write: the
    value of a variable, a button, a keypad or a sensor, the extra
    information of a keypad, the level, the colour temperature, the
    colour and the waiters of an output, the level of a shade. *)
Definition static (o : obj) : obj :=
  match o with
  | OVariable v =>
      OVariable {| Variable_.base := Variable_.base v; Variable_._value := None |}
  | OOutput o =>
      OOutput (Output.with_level (Fin 0) (Output.with_color_temp (Fin 0)
                 (Output.with_rgb [] (Output.with_query_waiters RequestHelper.init o))))
  | OButton b => OButton (Button.with_value VNone b)
  | OKeypad k =>
      OKeypad {| Keypad.base := Entity.with_extra_info ∅ (Keypad.base k);
                 Keypad._buttons := Keypad._buttons k; Keypad._value := VNone |}
  | OTask t => OTask t
  | OSensor s =>
      OSensor {| PollingSensor.base := PollingSensor.base s;
                 PollingSensor._value := None;
                 PollingSensor._kind := PollingSensor._kind s |}
  | OShade s => OShade (Shade_with_level None s)
  end.

(** [w'] is [w] but for what an update may do: the objects are the same
    ones, each with the class and the other fields it had; no event was
    made and none was unset; subscriber calls were added at the end. *)
Definition stable (w w' : World) : Prop :=
  sent w' = sent w
  ∧ _cmds w' = _cmds w
  ∧ _ids w' = _ids w
  ∧ _names w' = _names w
  ∧ _subscribers w' = _subscribers w
  ∧ _vid_to_area w' = _vid_to_area w
  ∧ _vid_to_load w' = _vid_to_load w
  ∧ _name_mappings w' = _name_mappings w
  ∧ static <$> heap w' = static <$> heap w
  ∧ Events.next (events w') = Events.next (events w)
  ∧ Events.flagged (events w) ⊆ Events.flagged (events w')
  ∧ (∃ l, called w' = called w ++ l
          ∧ ∀ f h, (f, h) ∈ l → _subscribers w !! h = Some f).

(** The errors of [float(a)] and [int(a)]. *)
Definition conv_error (a : pyval) (e : exn) : Prop :=
  match a with
  | VStr _ => e = ValueError
  | VNone => e = TypeError
  | VFloat _ => e = ValueError ∨ e = OverflowError
  | VInt _ => False
  end.

(** A computation that, started in a world that is [w0] but for updates,
    leaves such a world, returns a value in [Q] or raises an exception in
    [E]. *)
Definition triple (w0 : World) {A} (m : M A) (Q : A → Prop) (E : exn → Prop) : Prop :=
  ∀ w, stable w0 w →
    match m w with
    | (Ret a, w') => Q a ∧ stable w0 w'
    | (Raise e, w') => E e ∧ stable w0 w'
    end.

(** The exceptions of a handler run on [args]: a missing argument, an
    argument that is no number, a reference that cannot be followed. *)
Definition handler_error (args : list pyval) (e : exn) : Prop :=
  e = IndexError ∨ e = IllFormed ∨ ∃ a, a ∈ args ∧ conv_error a e.

(** The world when [_recv] has looked at the first character of a line:
    a response has taken the oldest pending command. *)
Definition taken (line : string) (w : World) : World :=
  if bool_decide (Str.first_char line = Some "R"%char) then popped R w else w.

(** [s.rstrip()] *)
Definition str_rstrip (s : string) : string := Str.of_chars (Str.rstrip (Str.chars s)).

(** The calls of [_recv] that the loop of [VantageConnection.run] makes
    for the lines it reads (lines 184-201), while the connection stays
    up: an exception of [_recv] is not caught and ends the loop. *)
Fixpoint recv_lines (lines : list string) : M unit :=
  match lines with
  | [] => mret ()
  | line :: rest => _recv (str_rstrip line);; recv_lines rest
  end.

(** The object registered under a command type and a vid, as the lookup
    of [_recv] finds it (lines 834-845): no table and no entry are both
    [None]. *)
Definition registered (w : World) (k : option string) (vid : Z) : option ref :=
  default ∅ (_ids w !! k) !! vid.

(** The piece that an area above the object adds to its qualified name
    (lines 740-751): nothing for a station load, a colour load and an area
    that [name_mappings] maps to [True]; otherwise the name the area is
    mapped to, or its own name stripped, and a dash. *)
Definition area_piece (mappings : option (gmap string name_mapping)) (n : string) : string :=
  let ns := str_strip n in
  if Str.startswith "Station Load " ns then ""
  else if Str.startswith "Color Load " ns then ""
  else
    match mappings with
    | Some m =>
        if decide (m = ∅) then ns +:+ "-"
        else match m !! str_lower ns with
             | Some MapTrue => ""
             | Some (MapTo mapped_name) => mapped_name +:+ "-"
             | None => ns +:+ "-"
             end
    | None => ns +:+ "-"
    end.

(** The qualified name of an object: the pieces of the areas of its
    lineage but the outermost, from the outside in, then its own name,
    without the start of it that repeats the pieces (lines 736-761). *)
Definition qualified_name (w : World) (o : obj) : string :=
  let lineage := get_lineage_from_obj (_vid_to_area w) o in
  let name := foldr (λ n s, area_piece (_name_mappings w) n +:+ s) ""
                (rev (removelast lineage)) in
  let obj_name := Entity._name (obj_base o) in
  if Str.startswith (str_init name) obj_name
  then name +:+ Str.drop_chars (String.length name) obj_name
  else name +:+ obj_name.

(** A piece of a line: a text with no space and no colon. *)
Definition is_piece (s : string) : bool :=
  forallb (λ c, negb (Ascii.eqb c " " || Ascii.eqb c ":")) (Str.chars s).

(** A line as the controller writes it: the type, a colon, the command
    type, the vid in decimal and the arguments, with a space before each
    of the last two kinds. *)
Definition line_of (typ : line_type) (cmd_type : string) (vid : Z)
    (args : list string) : string :=
  String (line_prefix typ)
    (String ":" (cmd_type +:+ foldr (λ a s, " " +:+ a +:+ s) "" (pretty vid :: args))).

(** Somebody waits for the level of the shade behind [r]. *)
Definition shade_waiting (r : ref) (w : World) : Prop :=
  ∃ s, heap w !! r = Some (OShade s)
    ∧ RequestHelper.__events (Shade._query_waiters s) ≠ [].

(** ** A small installation

    Two lamps' worth of objects, used to run the definitions: a load with
    its colour controller, a colour controller with no load, a keypad with
    one button, a dry contact, a variable, a task, a shade and a light
    sensor. *)
Module Sample.

Definition load : Output.t :=
  Output.with_query_waiters {| RequestHelper.__events := [3%nat; 4%nat] |}
    (Output.init "Lamp" (Some 1) "LIGHT" "Incandescent" (Some 201) false 101).

Definition controller : Output.t :=
  Output.init "Lamp COLOR" (Some 1) "COLOR" "HID" (Some 101) false 201.

Definition orphan : Output.t :=
  Output.init "Spot COLOR" (Some 1) "COLOR" "HID" None false 202.

Definition entity (name : string) (area : option Z) (vid : Z) : Entity.t :=
  {| Entity._name := name; Entity._area := area; Entity._vid := vid;
     Entity._extra_info := ∅ |}.

Definition keypad : Keypad.t :=
  {| Keypad.base := entity "Hall [K]" (Some 1) 300; Keypad._buttons := [5%nat];
     Keypad._value := VNone |}.

Definition button : Button.t :=
  {| Button.base := entity "Up [B]" (Some 1) 301; Button._num := 3;
     Button._parent := 300; Button._keypad := Some 4%nat;
     Button._desc := Some "Up"; Button._value := VNone |}.

Definition contact : Button.t :=
  {| Button.base := entity "Door [C]" (Some (-1)) 302; Button._num := 0;
     Button._parent := 300; Button._keypad := None;
     Button._desc := None; Button._value := VNone |}.

Definition variable : Variable_.t :=
  {| Variable_.base := entity "Mode" None 5; Variable_._value := None |}.

Definition task : Task.t := {| Task.base := entity "Goodnight" (Some 0) 9 |}.

Definition shade : Shade.t :=
  {| Shade.base := entity "Blind" (Some 1) 50; Shade._level := Some (Fin 100);
     Shade._load_type := "BLIND"; Shade._query_waiters := RequestHelper.init |}.

Definition sensor : PollingSensor.t :=
  {| PollingSensor.base := entity "Lux" (Some 1) 60; PollingSensor._value := None;
     PollingSensor._kind := "light" |}.

Definition areas : gmap Z Area.t :=
  <[1 := {| Area._name := "Hall"; Area._parent := 2; Area._vid := 1 |}]>
  (<[2 := {| Area._name := " Ground Floor "; Area._parent := 3; Area._vid := 2 |}]>
  (<[3 := {| Area._name := "House"; Area._parent := 0; Area._vid := 3 |}]> ∅)).

Definition world : World :=
  {| heap :=
       list_to_map
         [(1%nat, OOutput load); (2%nat, OOutput controller); (3%nat, OOutput orphan);
          (4%nat, OKeypad keypad); (5%nat, OButton button); (6%nat, OButton contact);
          (7%nat, OVariable variable); (8%nat, OTask task); (9%nat, OShade shade);
          (10%nat, OSensor sensor)];
     events := {| Events.next := 5%nat; Events.flagged := ∅ |};
     _cmds := [Line "GETLOAD 101"];
     _ids :=
       list_to_map
         [(Some "LOAD", list_to_map [(101, 1%nat); (201, 2%nat); (202, 3%nat)]);
          (Some "KEYPAD", list_to_map [(300, 4%nat)]);
          (Some "BTN", list_to_map [(301, 5%nat); (302, 6%nat)]);
          (Some "VARIABLE", list_to_map [(5, 7%nat)]);
          (Some "TASK", list_to_map [(9, 8%nat)]);
          (Some "BLIND", list_to_map [(50, 9%nat)]);
          (Some "LIGHT", list_to_map [(60, 10%nat)]);
          (None, ∅)];
     _names := ∅;
     _subscribers :=
       list_to_map [(1%nat, 11%nat); (4%nat, 14%nat); (5%nat, 15%nat); (8%nat, 18%nat)];
     _vid_to_area := areas;
     _vid_to_load := list_to_map [(101, 1%nat); (201, 2%nat); (202, 3%nat)];
     _name_mappings := None;
     sent := [];
     called := [] |}.

(** Two outputs that carry the same vid, in a world where nothing is
    registered yet. *)
Definition twin_a : Output.t := Output.init "A" None "LIGHT" "Incandescent" None false 7.

Definition twin_b : Output.t := Output.init "B" None "LIGHT" "Incandescent" None false 7.

Definition unregistered : World :=
  {| heap := list_to_map [(1%nat, OOutput twin_a); (2%nat, OOutput twin_b)];
     events := Events.init; _cmds := []; _ids := ∅; _names := ∅;
     _subscribers := ∅; _vid_to_area := ∅; _vid_to_load := ∅;
     _name_mappings := None; sent := []; called := [] |}.

End Sample.

(** The installation when nobody waits for the level of the lamp. *)
Definition quiet_world : World :=
  with_heap
    (<[1%nat := OOutput (Output.with_query_waiters RequestHelper.init Sample.load)]>
       (heap Sample.world))
    Sample.world.


(** * Properties *)

(** ** The builtins on examples *)

Example float_of_string_examples :
  float_of_string "45.5" = Some (Fin (455 # 10))
  /\ float_of_string " -1_0.25e1 " = Some (Fin (Qmake (-1025) 10))
  /\ float_of_string "1e2" = Some (Fin 100)
  /\ float_of_string ".5" = Some (Fin (5 # 10))
  /\ float_of_string "5." = Some (Fin 5)
  /\ float_of_string "-Infinity" = Some NegInf
  /\ float_of_string "NaN" = Some NaN
  /\ float_of_string "" = None
  /\ float_of_string "." = None
  /\ float_of_string "1__0" = None
  /\ float_of_string "1e" = None
  /\ float_of_string "abc" = None
  /\ float_of_string "1 2" = None
  /\ float_of_string (String "009" "5") = Some (Fin 5)
  /\ float_of_string (String "031" "5") = None
  /\ float_of_string (String "5" (String "028" "")) = None.
Proof. repeat split; reflexivity. Qed.

Example int_of_string_examples :
  int_of_string "007" = Some 7
  /\ int_of_string " -12 " = Some (-12)
  /\ int_of_string "1.5" = None
  /\ int_of_string "" = None
  /\ int_of_string (String "013" "5") = Some 5
  /\ int_of_string (String "031" "5") = None.
Proof. repeat split; reflexivity. Qed.

Example split_examples :
  Str.split_sp_colon "LOAD 101 45.5" = ["LOAD"; "101"; "45.5"]
  /\ Str.split_sp_colon "" = [""]
  /\ Str.split_sp_colon "a: b" = ["a"; ""; "b"].
Proof. repeat split; reflexivity. Qed.

(** ** Level and kelvin *)

Lemma Qltb_lt x y : Qltb x y = true ↔ (x < y)%Q.
Proof.
  unfold Qltb. rewrite negb_true_iff, <- not_true_iff_false, Qle_bool_iff.
  split; [apply Qnot_le_lt | apply Qlt_not_le].
Qed.

Lemma Qltb_ge x y : Qltb x y = false ↔ (y <= x)%Q.
Proof. unfold Qltb. rewrite negb_false_iff. apply Qle_bool_iff. Qed.

(** The three regimes of a comparison chain [x < lo], [hi < x], else. *)
Lemma flt_cases (lo hi x : Q) :
  (flt (Fin x) (Fin lo) = true ∧ (x < lo)%Q)
  ∨ (flt (Fin x) (Fin lo) = false ∧ flt (Fin hi) (Fin x) = true ∧ (lo <= x)%Q ∧ (hi < x)%Q)
  ∨ (flt (Fin x) (Fin lo) = false ∧ flt (Fin hi) (Fin x) = false ∧ (lo <= x <= hi)%Q).
Proof.
  simpl. destruct (Qltb x lo) eqn:H1.
  - left. split; [done | by apply Qltb_lt].
  - apply Qltb_ge in H1. destruct (Qltb hi x) eqn:H2.
    + right; left. apply Qltb_lt in H2. done.
    + right; right. apply Qltb_ge in H2. done.
Qed.

Lemma same_refl a : same a a.
Proof. destruct a; simpl; first [done | reflexivity]. Qed.

Lemma same_in_range lo hi a b : same a b → in_range lo hi a ↔ in_range lo hi b.
Proof.
  destruct a, b; simpl; try tauto. intros H. rewrite H. tauto.
Qed.

Lemma feqb_same a b : feqb a b = true → same a b.
Proof.
  destruct a, b; simpl; try done. apply Qeq_bool_eq.
Qed.

Lemma kelvin_to_level_fin (k : Q) :
  ∃ l : Q, kelvin_to_level (Fin k) = Fin l ∧ (0 <= l <= 100)%Q
    ∧ ((2200 <= k <= 6000)%Q → (l == (k - 2200) / (6000 - 2200) * 100)%Q).
Proof.
  unfold kelvin_to_level.
  destruct (flt_cases 2200 6000 k) as [[-> H]|[(-> & -> & H1 & H2)|(-> & -> & H)]].
  - exists 0%Q. split; [done|]. split; lra.
  - exists 100%Q. split; [done|]. split; lra.
  - eexists. split; [reflexivity|]. split; [|intros _; field].
    assert ((k - 2200) / (6000 - 2200) == (k - 2200) * (1 # 3800))%Q as -> by field.
    lra.
Qed.

Lemma level_to_kelvin_fin (l : Q) :
  ∃ k : Q, level_to_kelvin (Fin l) = Fin k ∧ (2200 <= k <= 6000)%Q
    ∧ (k == Qmax 2200 (Qmin 6000 (2200 + l / 100 * (6000 - 2200))))%Q.
Proof.
  unfold level_to_kelvin.
  assert (l / 100 == l * (1 # 100))%Q as E by field.
  destruct (flt_cases 0 100 l) as [[-> H]|[(-> & -> & H1 & H2)|(-> & -> & H)]].
  - exists 2200%Q. split; [done|]. split; [lra|].
    rewrite Q.max_l; [reflexivity|].
    apply Qle_trans with (2200 + l / 100 * (6000 - 2200))%Q; [apply Q.le_min_r|].
    rewrite E. lra.
  - exists 6000%Q. split; [done|]. split; [lra|].
    rewrite Q.min_l by (rewrite E; lra). rewrite Q.max_r; [reflexivity | lra].
  - eexists. split; [reflexivity|].
    assert ((6000 - 2200) * l / 100 + 2200 == 2200 + l / 100 * (6000 - 2200))%Q
      as E2 by field.
    split.
    + rewrite E2, E. lra.
    + rewrite E2. rewrite Q.min_r by (rewrite E; lra).
      rewrite Q.max_r; [reflexivity | rewrite E; lra].
Qed.

(** C9.  Over the rationals, [level_to_kelvin (kelvin_to_level k)] is [k]
    for every [k] from 2200 to 6000; [kelvin_to_level] is 0 below 2200 and
    100 above 6000, and its result is always between 0 and 100. *)
Theorem kelvin_level_round_trip (k : Q) :
  ((2200 <= k <= 6000)%Q →
     same (level_to_kelvin (kelvin_to_level (Fin k))) (Fin k))
  ∧ ((k < 2200)%Q → kelvin_to_level (Fin k) = Fin 0)
  ∧ ((6000 < k)%Q → kelvin_to_level (Fin k) = Fin 100)
  ∧ in_range 0 100 (kelvin_to_level (Fin k)).
Proof.
  repeat split.
  - intros Hk.
    destruct (kelvin_to_level_fin k) as (l & -> & Hl & El).
    specialize (El Hk). unfold level_to_kelvin.
    destruct (flt_cases 0 100 l) as [[_ H]|[(_ & _ & _ & H)|(-> & -> & _)]];
      [lra | lra |].
    simpl. rewrite El. field.
  - intros Hk. unfold kelvin_to_level.
    destruct (flt_cases 2200 6000 k) as [[-> _]|[(_ & _ & H & _)|(_ & _ & H & _)]];
      [done | lra | lra].
  - intros Hk. unfold kelvin_to_level.
    destruct (flt_cases 2200 6000 k) as [[_ H]|[(-> & -> & _)|(_ & _ & _ & H)]];
      [lra | done | lra].
  - destruct (kelvin_to_level_fin k) as (l & -> & Hl & _). simpl. lra.
Qed.

Lemma kelvin_level_round_trip_witness :
  same (level_to_kelvin (kelvin_to_level (Fin 2700))) (Fin 2700)
  ∧ kelvin_to_level (Fin 1000) = Fin 0
  ∧ kelvin_to_level (Fin 9000) = Fin 100
  ∧ in_range 0 100 (kelvin_to_level (Fin 2700)).
Proof.
  split; [apply (kelvin_level_round_trip 2700); lra|].
  split; [apply (kelvin_level_round_trip 1000); lra|].
  split; [apply (kelvin_level_round_trip 9000); lra|].
  apply (kelvin_level_round_trip 2700).
Defined.

(** ** The request helper *)

Section request_helper.
Context {T : Type}.
Implicit Types (s : RequestHelper.state (list T)) (a : T) (cs : list (call T)).

Import RequestHelper.

Lemma set_all_flagged (l : list event) (es : Events.t) :
  Events.flagged (Events.set_all l es) = list_to_set l ∪ Events.flagged es.
Proof.
  unfold Events.set_all. revert es.
  induction l as [|e l IH]; intros es; simpl.
  - by rewrite (left_id_L ∅ (∪)).
  - rewrite IH. simpl.
    by rewrite (assoc_L (∪)), (comm_L (∪) (list_to_set l) {[e]}).
Qed.

Lemma set_all_next (l : list event) (es : Events.t) :
  Events.next (Events.set_all l es) = Events.next es.
Proof.
  unfold Events.set_all. revert es.
  induction l as [|e l IH]; intros es; simpl; [done|]. by rewrite IH.
Qed.

Lemma step_request s a :
  step s (Request a)
  = State {| __events := __events (helper s) ++ [Events.next (evs s)] |}
      {| Events.next := Datatypes.S (Events.next (evs s));
         Events.flagged := Events.flagged (evs s) |}
      (if bool_decide (__events (helper s) = []) then env s ++ [a] else env s).
Proof.
  destruct s as [[l] es e]. unfold step, request, enqueue. simpl.
  by case_bool_decide.
Qed.

Lemma step_notify s :
  step s Notify
  = State init (Events.set_all (__events (helper s)) (evs s)) (env s).
Proof. by destruct s as [[l] es e]. Qed.

Lemma run_snoc cs c s : run (cs ++ [c]) s = step (run cs s) c.
Proof. unfold run. by rewrite foldl_app. Qed.

(** While somebody waits, further requests run nothing. *)
Lemma run_requests_pending (reqs : list T) s :
  __events (helper s) ≠ [] →
  env (run (Request <$> reqs) s) = env s
  ∧ __events (helper (run (Request <$> reqs) s)) ≠ [].
Proof.
  revert s. induction reqs as [|a reqs IH]; intros s Hs; [done|].
  change (run (Request <$> a :: reqs) s)
    with (run (Request <$> reqs) (step s (Request a))).
  destruct (IH (step s (Request a))) as [-> H].
  - rewrite step_request. simpl. by destruct (__events (helper s)).
  - split; [|done]. rewrite step_request. simpl.
    by rewrite bool_decide_eq_false_2.
Qed.

Lemma helper_inv_start : helper_inv (@start T).
Proof. repeat split; simpl; intros e He; set_solver. Qed.

Lemma helper_inv_step s c : helper_inv s → helper_inv (step s c).
Proof.
  intros (H1 & H2 & H3). destruct c as [a|].
  - rewrite step_request. repeat split; simpl.
    + intros e [He| ->%list_elem_of_singleton]%elem_of_app; [|lia].
      specialize (H1 e He). lia.
    + intros e He. specialize (H2 e He). lia.
    + intros e [He| ->%list_elem_of_singleton]%elem_of_app; [by apply H3|].
      intros He%H2. lia.
  - rewrite step_notify. repeat split; simpl.
    + intros e He. set_solver.
    + intros e. rewrite set_all_flagged, set_all_next.
      intros [He%elem_of_list_to_set|He]%elem_of_union; auto.
    + intros e He. set_solver.
Qed.

Lemma helper_inv_run cs : helper_inv (run cs start).
Proof.
  induction cs as [|c cs IH] using rev_ind; [apply helper_inv_start|].
  rewrite run_snoc. by apply helper_inv_step.
Qed.

(** C2.  In the state [s] that any sequence [cs] of [request] and
    [notify] calls leaves: a request runs its action exactly when nobody
    waits, and joins the waiters with a new event that is not set; while
    somebody waits, further requests run nothing; [notify] leaves no
    waiter and sets the events that waited (none of which was set) and no
    other; after a [notify], of the requests that follow up to the next
    [notify] the first runs its action and no other does. *)
Theorem request_helper_rounds cs a (reqs : list T) :
  let s := run cs start in
  env (step s (Request a))
    = (if bool_decide (__events (helper s) = []) then env s ++ [a] else env s)
  ∧ __events (helper (step s (Request a)))
      = __events (helper s) ++ [Events.next (evs s)]
  ∧ (Events.next (evs s) ∉ Events.flagged (evs (step s (Request a))))
  ∧ (__events (helper s) ≠ [] → env (run (Request <$> reqs) s) = env s)
  ∧ __events (helper (step s Notify)) = []
  ∧ Events.flagged (evs (step s Notify))
      = list_to_set (__events (helper s)) ∪ Events.flagged (evs s)
  ∧ (∀ e, e ∈ __events (helper s) → e ∉ Events.flagged (evs s))
  ∧ env (step s Notify) = env s
  ∧ env (run (Notify :: Request a :: (Request <$> reqs)) s) = env s ++ [a].
Proof.
  intros s. pose proof (helper_inv_run cs) as (H1 & H2 & H3). fold s in H1, H2, H3.
  assert (env (run (Notify :: Request a :: (Request <$> reqs)) s) = env s ++ [a])
    as Hround.
  { change (run (Notify :: Request a :: (Request <$> reqs)) s)
      with (run (Request <$> reqs) (step (step s Notify) (Request a))).
    destruct (run_requests_pending reqs (step (step s Notify) (Request a)))
      as [-> _]; by rewrite step_request, step_notify. }
  rewrite step_request, step_notify. simpl.
  split; [done|]. split; [done|].
  split; [intros He%H2; lia|].
  split; [intros Hs; by apply run_requests_pending|].
  split; [done|]. split; [apply set_all_flagged|].
  done.
Qed.

End request_helper.

Lemma request_helper_rounds_witness :
  RequestHelper.env (run (Request <$> [2; 3]) (run [Request 1] start))
    = RequestHelper.env (run [Request 1] (@start Z))
  ∧ RequestHelper.env (run [Notify; Request 3; Request 2]
                         (run [Request 1; Request 2] start))
    = RequestHelper.env (run [Request 1; Request 2] (@start Z)) ++ [3].
Proof.
  split.
  - destruct (request_helper_rounds [Request 1] 0 [2; 3]) as (_ & _ & _ & H & _).
    apply H. simpl. discriminate.
  - destruct (request_helper_rounds [Request 1; Request 2] 3 [2])
      as (_ & _ & _ & _ & _ & _ & _ & _ & H).
    exact H.
Defined.

(** ** Computations *)

Lemma bind_ret {A B} (m : M A) (k : A → M B) w a w' :
  m w = (Ret a, w') → (m ≫= k) w = k a w'.
Proof. intros H. unfold mbind, M_bind. by rewrite H. Qed.

Lemma bind_raise {A B} (m : M A) (k : A → M B) w e w' :
  m w = (Raise e, w') → (m ≫= k) w = (Raise e, w').
Proof. intros H. unfold mbind, M_bind. by rewrite H. Qed.

Lemma deref_some w r o : heap w !! r = Some o → deref r w = (Ret o, w).
Proof. intros H. unfold deref. by rewrite H. Qed.

Lemma store_heap r o w : heap (snd (store r o w)) = <[r := o]> (heap w).
Proof. done. Qed.

Ltac munfold :=
  unfold mbind, M_bind, mret, M_ret, lift, raise, gets, modify, index, store.

Ltac msimpl := repeat (progress (munfold; simpl)).

(** ** Updates of an output *)

Lemma Output_notify_eq w r out :
  heap w !! r = Some (OOutput out) →
  Output_notify r w
  = (Ret (),
     with_events
       (Events.set_all (RequestHelper.__events (Output._query_waiters out)) (events w))
       (with_heap
          (<[r := OOutput (Output.with_query_waiters RequestHelper.init out)]> (heap w))
          w)).
Proof.
  intros H. unfold Output_notify.
  rewrite (bind_ret _ _ _ _ _ (deref_some _ _ _ H)).
  by destruct out.
Qed.

(** A single-argument update of an output of type COLOR. *)
Lemma color_update_eq w r self a level :
  heap w !! r = Some (OOutput self) →
  Output._output_type self = "COLOR" →
  py_float a = inr level →
  match Output._color_control_vid self ≫= (_vid_to_load w !!.) with
  | Some lr =>
      ∀ l, heap w !! lr = Some (OOutput l) →
        handle_update r [a] w
        = (Ret (Some lr),
           with_events
             (Events.set_all (RequestHelper.__events (Output._query_waiters l))
                (events w))
             (with_heap
                (<[lr := OOutput (Output.with_query_waiters RequestHelper.init
                            (Output.with_color_temp (level_to_kelvin level) l))]>
                   (heap w))
                w))
  | None => handle_update r [a] w = (Ret (Some r), w)
  end.
Proof.
  intros Hr Hty Ha. unfold handle_update.
  rewrite (bind_ret _ _ _ _ _ (deref_some _ _ _ Hr)).
  unfold Output_handle_update. msimpl. rewrite Ha. msimpl.
  rewrite decide_True by done.
  destruct (option_bind _ _ _ _) as [lr|]; simpl; [|done].
  intros l Hlr. unfold deref at 1. rewrite Hlr.
  erewrite Output_notify_eq by (simpl; apply lookup_insert_eq).
  unfold with_events, with_heap. simpl. by rewrite insert_insert_eq.
Qed.

(** A single-argument update of an output of any other type. *)
Lemma level_update_eq w r self a level :
  heap w !! r = Some (OOutput self) →
  Output._output_type self ≠ "COLOR" →
  py_float a = inr level →
  handle_update r [a] w
  = (Ret (Some r),
     with_events
       (Events.set_all (RequestHelper.__events (Output._query_waiters self)) (events w))
       (with_heap
          (<[r := OOutput (Output.with_query_waiters RequestHelper.init
                     (Output.with_level level self))]> (heap w))
          w)).
Proof.
  intros Hr Hty Ha. unfold handle_update.
  rewrite (bind_ret _ _ _ _ _ (deref_some _ _ _ Hr)).
  unfold Output_handle_update. msimpl. rewrite Ha. msimpl.
  rewrite decide_False by done. msimpl.
  erewrite Output_notify_eq by (simpl; apply lookup_insert_eq).
  unfold with_events, with_heap. simpl. by rewrite insert_insert_eq.
Qed.

(** C1, as amended.  A single-argument update with level [level] of an
    output of type COLOR: when a load is registered under the controller's
    colour-control vid, that load gets the colour temperature
    [level_to_kelvin level], its waiters are released and it is the entity
    returned; when none is registered, the controller itself is returned
    and nothing changes.  For a finite level [L] the temperature is
    [2200 + L/100*(6000-2200)] clamped to the range from 2200 to 6000. *)
Theorem color_update_targets_load w r self a level :
  heap w !! r = Some (OOutput self) →
  Output._output_type self = "COLOR" →
  py_float a = inr level →
  match Output._color_control_vid self ≫= (_vid_to_load w !!.) with
  | Some lr =>
      ∀ l, heap w !! lr = Some (OOutput l) →
        handle_update r [a] w
        = (Ret (Some lr),
           with_events
             (Events.set_all (RequestHelper.__events (Output._query_waiters l))
                (events w))
             (with_heap
                (<[lr := OOutput (Output.with_query_waiters RequestHelper.init
                            (Output.with_color_temp (level_to_kelvin level) l))]>
                   (heap w))
                w))
  | None => handle_update r [a] w = (Ret (Some r), w)
  end
  ∧ ∀ L : Q, level = Fin L →
      ∃ k : Q, level_to_kelvin level = Fin k
        ∧ (k == Qmax 2200 (Qmin 6000 (2200 + L / 100 * (6000 - 2200))))%Q.
Proof.
  intros Hr Hty Ha. split.
  - by apply color_update_eq.
  - intros L ->. destruct (level_to_kelvin_fin L) as (k & Hk & _ & E). eauto.
Qed.

Lemma color_update_targets_load_witness :
  handle_update 2%nat [VStr "50"] Sample.world
  = (Ret (Some 1%nat),
     with_events (Events.set_all [3%nat; 4%nat] (events Sample.world))
       (with_heap
          (<[1%nat := OOutput (Output.with_query_waiters RequestHelper.init
                        (Output.with_color_temp (level_to_kelvin (Fin 50))
                           Sample.load))]> (heap Sample.world))
          Sample.world))
  ∧ ∃ k : Q, level_to_kelvin (Fin 50) = Fin k
      ∧ (k == Qmax 2200 (Qmin 6000 (2200 + 50 / 100 * (6000 - 2200))))%Q.
Proof.
  destruct (color_update_targets_load Sample.world 2%nat Sample.controller
              (VStr "50") (Fin 50)) as [H1 H2]; [reflexivity..|].
  split.
  - exact (H1 Sample.load eq_refl).
  - exact (H2 50%Q eq_refl).
Defined.

(** C1 as it was stated fails where no load is registered under the
    colour-control vid: the entity returned is the controller itself. *)
Lemma color_update_without_load :
  heap Sample.world !! 3%nat = Some (OOutput Sample.orphan)
  ∧ Output._output_type Sample.orphan = "COLOR"
  ∧ Output._color_control_vid Sample.orphan ≫= (_vid_to_load Sample.world !!.) = None
  ∧ handle_update 3%nat [VStr "50"] Sample.world = (Ret (Some 3%nat), Sample.world).
Proof. repeat split; vm_compute; reflexivity. Qed.

(** An update of an output of type COLOR leaves the level of every output
    as it was, whatever else it does. *)
Lemma color_update_keeps_levels w r self a v res w' :
  heap w !! r = Some (OOutput self) →
  Output._output_type self = "COLOR" →
  py_float a = inr v →
  handle_update r [a] w = (res, w') →
  ∀ r' o, heap w !! r' = Some (OOutput o) →
    ∃ o', heap w' !! r' = Some (OOutput o') ∧ Output._level o' = Output._level o.
Proof.
  intros Hr Hty Ha. unfold handle_update.
  rewrite (bind_ret _ _ _ _ _ (deref_some _ _ _ Hr)).
  unfold Output_handle_update. msimpl. rewrite Ha. msimpl.
  rewrite decide_True by done.
  destruct (option_bind _ _ _ _) as [lr|]; simpl.
  - unfold deref at 1. destruct (heap w !! lr) as [l|] eqn:Hlr.
    + destruct l as [| l | | | | |];
        try (intros [= <- <-] r' o Ho; by exists o).
      erewrite Output_notify_eq by (simpl; apply lookup_insert_eq).
      intros [= <- <-] r' o Ho. simpl. rewrite insert_insert_eq.
      destruct (decide (lr = r')) as [<-|Hne].
      * rewrite lookup_insert_eq. rewrite Hlr in Ho. injection Ho as <-.
        eexists. split; [done|]. by destruct l.
      * rewrite lookup_insert_ne by done. by exists o.
    + intros [= <- <-] r' o Ho. by exists o.
  - intros [= <- <-] r' o Ho. by exists o.
Qed.

(** The level setter. *)
Lemma Output_set_level_eq w r self new_level :
  heap w !! r = Some (OOutput self) →
  length (Output._ramp_sec self) = 3%nat →
  ∃ w' o',
    Output_set_level r new_level w = (Ret (), w')
    ∧ heap w' !! r = Some (OOutput o')
    ∧ same (Output._level o') new_level.
Proof.
  intros Hr Hlen. unfold Output_set_level.
  rewrite (bind_ret _ _ _ _ _ (deref_some _ _ _ Hr)).
  destruct (feqb (Output._level self) new_level) eqn:Heq.
  - exists w, self. split; [done|]. split; [done|]. by apply feqb_same.
  - destruct (Output._ramp_sec self) as [|up [|down [|color [|]]]]; try done.
    destruct (feqb new_level (Fin 0)); msimpl.
    + eexists _, _. split; [done|]. simpl. rewrite lookup_insert_eq.
      split; [done|]. apply same_refl.
    + eexists _, _. split; [done|]. simpl. rewrite lookup_insert_eq.
      split; [done|]. apply same_refl.
Qed.

(** C7, as amended.  The level is stored as it is received, without a
    clamp: after a single-argument update with value [v] of an output
    that is no colour controller the cached level is [v], and after the
    setter is called with [new_level] it is [new_level]; so the level is
    between 0 and 100 afterwards exactly when the value received is.  An
    update of a colour controller leaves every cached level as it was. *)
Theorem level_stored_as_received w r self :
  heap w !! r = Some (OOutput self) →
  (∀ a v, Output._output_type self ≠ "COLOR" → py_float a = inr v →
     ∃ w' o', handle_update r [a] w = (Ret (Some r), w')
       ∧ heap w' !! r = Some (OOutput o')
       ∧ Output._level o' = v
       ∧ (in_range 0 100 (Output._level o') ↔ in_range 0 100 v))
  ∧ (∀ a v res w', Output._output_type self = "COLOR" → py_float a = inr v →
       handle_update r [a] w = (res, w') →
       ∀ r' o, heap w !! r' = Some (OOutput o) →
         ∃ o', heap w' !! r' = Some (OOutput o')
           ∧ Output._level o' = Output._level o)
  ∧ (∀ new_level, length (Output._ramp_sec self) = 3%nat →
       ∃ w' o', Output_set_level r new_level w = (Ret (), w')
         ∧ heap w' !! r = Some (OOutput o')
         ∧ same (Output._level o') new_level
         ∧ (in_range 0 100 (Output._level o') ↔ in_range 0 100 new_level)).
Proof.
  intros Hr. split; [|split].
  - intros a v Hty Ha. eexists _, _.
    split; [by apply level_update_eq|]. simpl. rewrite lookup_insert_eq.
    split; [done|]. by destruct self.
  - intros a v res w' Hty Ha Hrun. by eapply color_update_keeps_levels.
  - intros new_level Hlen.
    destruct (Output_set_level_eq w r self new_level Hr Hlen) as (w' & o' & H1 & H2 & H3).
    exists w', o'. split; [done|]. split; [done|]. split; [done|].
    by apply same_in_range.
Qed.

Lemma level_stored_as_received_witness :
  (∃ w' o', handle_update 1%nat [VStr "45.5"] Sample.world = (Ret (Some 1%nat), w')
     ∧ heap w' !! 1%nat = Some (OOutput o')
     ∧ Output._level o' = Fin (455 # 10)
     ∧ (in_range 0 100 (Output._level o') ↔ in_range 0 100 (Fin (455 # 10))))
  ∧ (∃ o', heap (snd (handle_update 2%nat [VStr "45.5"] Sample.world)) !! 1%nat
             = Some (OOutput o')
       ∧ Output._level o' = Output._level Sample.load)
  ∧ (∃ w' o', Output_set_level 1%nat (Fin 30) Sample.world = (Ret (), w')
       ∧ heap w' !! 1%nat = Some (OOutput o')
       ∧ same (Output._level o') (Fin 30)
       ∧ (in_range 0 100 (Output._level o') ↔ in_range 0 100 (Fin 30))).
Proof.
  split; [|split].
  - destruct (level_stored_as_received Sample.world 1%nat Sample.load eq_refl)
      as (H & _ & _).
    apply (H (VStr "45.5")); [discriminate | reflexivity].
  - destruct (level_stored_as_received Sample.world 2%nat Sample.controller eq_refl)
      as (_ & H & _).
    apply (H (VStr "45.5") (Fin (455 # 10)) (fst (handle_update 2%nat [VStr "45.5"] Sample.world)));
      [reflexivity | reflexivity | apply surjective_pairing | reflexivity].
  - destruct (level_stored_as_received Sample.world 1%nat Sample.load eq_refl)
      as (_ & _ & H).
    apply H. reflexivity.
Defined.

(** C7 as it was stated fails: the level is 0 before, and 250 after an
    update with 250 and after the setter is called with 250. *)
Lemma level_above_100_is_stored :
  heap Sample.world !! 1%nat = Some (OOutput Sample.load)
  ∧ in_range 0 100 (Output._level Sample.load)
  ∧ handle_update 1%nat [VStr "250"] Sample.world
    = (Ret (Some 1%nat),
       with_events (Events.set_all [3%nat; 4%nat] (events Sample.world))
         (with_heap
            (<[1%nat := OOutput (Output.with_query_waiters RequestHelper.init
                          (Output.with_level (Fin 250) Sample.load))]>
               (heap Sample.world))
            Sample.world))
  ∧ heap (snd (Output_set_level 1%nat (Fin 250) Sample.world)) !! 1%nat
    = Some (OOutput (Output.with_level (Fin 250) Sample.load))
  ∧ ¬ in_range 0 100 (Fin 250).
Proof.
  split; [reflexivity|]. split; [simpl; lra|].
  split; [vm_compute; reflexivity|]. split; [vm_compute; reflexivity|].
  simpl. lra.
Qed.

(** ** Buttons and keypads *)

Lemma button_update_eq w r b a rest :
  heap w !! r = Some (OButton b) →
  match Button._keypad b with
  | Some kr =>
      ∀ k, heap w !! kr = Some (OKeypad k) →
        handle_update r (a :: rest) w
        = (Ret (Some r),
           snd (notify_subscriber (Some kr)
                  (with_heap
                     (<[kr := OKeypad (keypad_after b a k)]>
                        (<[r := OButton (Button.with_value a b)]> (heap w)))
                     w)))
  | None =>
      handle_update r (a :: rest) w
      = (Ret (Some r),
         with_heap (<[r := OButton (Button.with_value (contact_value a) b)]> (heap w)) w)
  end.
Proof.
  intros Hr. unfold handle_update.
  rewrite (bind_ret _ _ _ _ _ (deref_some _ _ _ Hr)).
  unfold Button_handle_update. msimpl.
  destruct (Button._keypad b) as [kr|].
  - intros k Hk. msimpl. unfold deref. simpl.
    assert (kr ≠ r) as Hne by (intros ->; congruence).
    rewrite lookup_insert_ne by done. rewrite Hk.
    unfold Keypad_handle_update. msimpl. unfold notify_subscriber. simpl.
    rewrite insert_insert_eq. by destruct (_subscribers w !! kr).
  - unfold contact_value. msimpl.
    by destruct (eq_str a "PRESS"), (eq_str a "RELEASE").
Qed.

Lemma notify_subscriber_eq h w :
  notify_subscriber (Some h) w = (Ret (), with_called (called w ++ subscriber_calls w h) w).
Proof.
  unfold notify_subscriber, subscriber_calls.
  destruct (_subscribers w !! h); [done|]. rewrite app_nil_r. by destruct w.
Qed.

(** C3, as amended.  An update of a button whose first argument is the
    action [a].  With a keypad: the button keeps the action as its value;
    the keypad gets the button's name and the action as its extra
    information and keeps its buttons; the keypad's subscriber is called,
    if it has one, and then the button's, if it has one, the button being
    the entity its handler returns; nothing else changes.  Without a
    keypad (a dry contact): only the button changes, its value becomes
    Violated for PRESS, Normal for RELEASE and the action itself
    otherwise, and the button's subscriber is called, if it has one. *)
Theorem button_update_reaches_keypad w r b a rest :
  heap w !! r = Some (OButton b) →
  match Button._keypad b with
  | Some kr =>
      ∀ k, heap w !! kr = Some (OKeypad k) →
        ∃ v,
          handle_update_and_notify r (a :: rest) w
          = (Ret (),
             with_called (called w ++ subscriber_calls w kr ++ subscriber_calls w r)
               (with_heap
                  (<[kr := OKeypad
                             {| Keypad.base :=
                                  Entity.with_extra_info
                                    (<["button_action" := a]>
                                       (<["button_name" :=
                                            VStr (Entity._name (Button.base b))]> ∅))
                                    (Keypad.base k);
                                Keypad._buttons := Keypad._buttons k;
                                Keypad._value := v |}]>
                     (<[r := OButton (Button.with_value a b)]> (heap w)))
                  w))
  | None =>
      handle_update_and_notify r (a :: rest) w
      = (Ret (),
         with_called (called w ++ subscriber_calls w r)
           (with_heap
              (<[r := OButton
                        (Button.with_value
                           (if eq_str a "PRESS" then VStr "Violated"
                            else if eq_str a "RELEASE" then VStr "Normal"
                            else a) b)]> (heap w))
              w))
  end.
Proof.
  intros Hr. pose proof (button_update_eq w r b a rest Hr) as H.
  unfold handle_update_and_notify.
  destruct (Button._keypad b) as [kr|].
  - intros k Hk. exists (VInt (Button._num b)).
    rewrite (bind_ret _ _ _ _ _ (H k Hk)), !notify_subscriber_eq. simpl.
    by rewrite <- (assoc_L (++)).
  - by rewrite (bind_ret _ _ _ _ _ H), notify_subscriber_eq.
Qed.

Lemma button_update_reaches_keypad_witness :
  (∃ v,
     handle_update_and_notify 5%nat [VStr "PRESS"] Sample.world
     = (Ret (),
        with_called [(14%nat, 4%nat); (15%nat, 5%nat)]
          (with_heap
             (<[4%nat := OKeypad
                           {| Keypad.base :=
                                Entity.with_extra_info
                                  (<["button_action" := VStr "PRESS"]>
                                     (<["button_name" := VStr "Up [B]"]> ∅))
                                  (Keypad.base Sample.keypad);
                              Keypad._buttons := [5%nat];
                              Keypad._value := v |}]>
                (<[5%nat := OButton (Button.with_value (VStr "PRESS") Sample.button)]>
                   (heap Sample.world)))
             Sample.world)))
  ∧ handle_update_and_notify 6%nat [VStr "PRESS"] Sample.world
    = (Ret (),
       with_called []
         (with_heap
            (<[6%nat := OButton (Button.with_value (VStr "Violated") Sample.contact)]>
               (heap Sample.world))
            Sample.world)).
Proof.
  split.
  - exact (button_update_reaches_keypad Sample.world 5%nat Sample.button
             (VStr "PRESS") [] eq_refl Sample.keypad eq_refl).
  - exact (button_update_reaches_keypad Sample.world 6%nat Sample.contact
             (VStr "PRESS") [] eq_refl).
Defined.

(** C3 as it was stated fails for a button of a keypad: the keypad's
    value is the button's number 3, not the action, and the button's own
    subscriber is called after the keypad's. *)
Lemma keypad_value_is_button_number :
  heap Sample.world !! 5%nat = Some (OButton Sample.button)
  ∧ Button._keypad Sample.button = Some 4%nat
  ∧ fst (handle_update_and_notify 5%nat [VStr "PRESS"] Sample.world) = Ret ()
  ∧ (match heap (snd (handle_update_and_notify 5%nat [VStr "PRESS"] Sample.world))
            !! 4%nat with
     | Some (OKeypad k) =>
         Some (Keypad._value k, Entity._extra_info (Keypad.base k))
     | _ => None
     end)
    = Some (VInt 3,
            <["button_action" := VStr "PRESS"]> (<["button_name" := VStr "Up [B]"]> ∅))
  ∧ called (snd (handle_update_and_notify 5%nat [VStr "PRESS"] Sample.world))
    = [(14%nat, 4%nat); (15%nat, 5%nat)].
Proof. repeat split; vm_compute; reflexivity. Qed.

(** ** The dispatcher *)

Lemma first_char_nonempty line c : Str.first_char line = Some c → line ≠ "".
Proof. by destruct line. Qed.

(** A line of type [typ] goes on to the pieces, a response after taking
    the oldest pending command. *)
Lemma recv_typed w line typ :
  Str.first_char line = Some (line_prefix typ) →
  _recv line w = _recv_parts typ line (popped typ w).
Proof.
  intros H. unfold _recv. rewrite decide_False by by eapply first_char_nonempty.
  rewrite H. by destruct typ.
Qed.

(** A line that is empty, or starts with neither R nor S, is dropped. *)
Lemma recv_untyped w line :
  (∀ typ, Str.first_char line ≠ Some (line_prefix typ)) →
  _recv line w = (Ret (), w).
Proof.
  intros H. unfold _recv. case_decide; [done|].
  destruct (Str.first_char line) as [c|] eqn:Hc; [|done].
  pose proof (H R) as HR. pose proof (H S) as HS. simpl in HR, HS.
  destruct c as [[] [] [] [] [] [] [] []]; try done.
Qed.

(** A line with no second piece raises. *)
Lemma recv_parts_short w line typ c :
  tokens line = [c] → _recv_parts typ line w = (Raise IndexError, w).
Proof. unfold tokens, _recv_parts. intros ->. by msimpl. Qed.

(** A command type the line's type does not know is dropped. *)
Lemma recv_parts_unknown w line typ cmd_type vid args :
  tokens line = cmd_type :: vid :: args →
  cmd_type ∉ known_cmds typ →
  _recv_parts typ line w = (Ret (), w).
Proof.
  unfold tokens, _recv_parts. intros -> H. msimpl.
  rewrite bool_decide_eq_false_2; [done|]. by destruct typ.
Qed.

(** The command types that reach the lookup, for each type of line. *)
Lemma recv_parts_known w line typ cmd_type vid args :
  tokens line = cmd_type :: vid :: args →
  cmd_type ∈ known_cmds typ →
  _recv_parts typ line w
  = if bool_decide
         (cmd_type ∈ match typ with
                     | R => ["LOAD"; "GETLOAD"; "VARIABLE"; "BLIND"; "GETLIGHT";
                             "GETPOWER"; "GETCURRENT"; "GETSENSOR"]
                     | S => ["LOAD"; "BTN"; "VARIABLE"; "BLIND"; "STATUS"]
                     end)
    then _recv_lookup typ (canonical cmd_type) vid args w
    else (Ret (), w).
Proof.
  unfold tokens, _recv_parts. intros -> H.
  destruct typ; unfold known_cmds, _r_cmds, _s_cmds in H;
    repeat (apply elem_of_cons in H as [-> | H]);
    try (by apply elem_of_nil in H); by msimpl.
Qed.

(** The lookup, when it finds the object. *)
Lemma recv_lookup_found w typ cmd_type vid args ids r :
  _ids w !! Some cmd_type = Some ids →
  Str.isdigit vid = true →
  ids !! Str.digits_val (Str.chars vid) = Some r →
  _recv_lookup typ cmd_type vid args w
  = if match typ with
       | S => true
       | R => bool_decide (cmd_type ∈ ["LOAD"; "POWER"; "CURRENT"; "SENSOR"; "LIGHT"])
       end
    then handle_update_and_notify r (VStr <$> args) w
    else (Ret (), w).
Proof.
  intros H1 H2 H3. unfold _recv_lookup. msimpl. rewrite H1, H2. simpl.
  rewrite H3. destruct typ; [|done]. by case_bool_decide.
Qed.

(** The lookup, when it finds none: the line is dropped. *)
Lemma recv_lookup_dropped w typ cmd_type vid args :
  match _ids w !! Some cmd_type with
  | None => True
  | Some ids =>
      Str.isdigit vid = false ∨ ids !! Str.digits_val (Str.chars vid) = None
  end →
  _recv_lookup typ cmd_type vid args w = (Ret (), w).
Proof.
  unfold _recv_lookup. msimpl. destruct (_ids w !! Some cmd_type) as [ids|]; [|done].
  intros [-> | H]; [done|]. destruct (Str.isdigit vid); [|done]. simpl. by rewrite H.
Qed.

Lemma popped_same typ w :
  heap (popped typ w) = heap w ∧ called (popped typ w) = called w
  ∧ events (popped typ w) = events w ∧ _ids (popped typ w) = _ids w.
Proof. by destruct typ. Qed.

(** A line whose object is found: forwarded or dropped by its type. *)
Lemma recv_found_eq w line typ cmd_type vid args ids r :
  Str.first_char line = Some (line_prefix typ) →
  tokens line = cmd_type :: vid :: args →
  cmd_type ∈ known_cmds typ →
  _ids w !! Some (canonical cmd_type) = Some ids →
  Str.isdigit vid = true →
  ids !! Str.digits_val (Str.chars vid) = Some r →
  _recv line w
  = if match typ with
       | S => bool_decide (cmd_type ≠ "TASK")
       | R => bool_decide
                (canonical cmd_type ∈ ["LOAD"; "POWER"; "CURRENT"; "SENSOR"; "LIGHT"])
       end
    then handle_update_and_notify r (VStr <$> args) (popped typ w)
    else (Ret (), popped typ w).
Proof.
  intros Hc Ht Hk Hids Hd Hr.
  rewrite (recv_typed _ _ _ Hc), (recv_parts_known _ _ _ _ _ _ Ht Hk).
  assert (_ids (popped typ w) !! Some (canonical cmd_type) = Some ids) as Hids'
    by by destruct typ.
  rewrite (recv_lookup_found _ typ _ _ args _ _ Hids' Hd Hr).
  destruct typ; unfold known_cmds, _r_cmds, _s_cmds in Hk;
    repeat (apply elem_of_cons in Hk as [-> | Hk]);
    try (by apply elem_of_nil in Hk); done.
Qed.

(** C4, as amended.  A line of type [typ] with a known command type
    whose vid is numeric and registered under the canonical command type:
    [handle_update] is run, on the registered object with the remaining
    pieces, exactly when the line is a status line whose command is not
    TASK, or a response line whose canonical type is LOAD, POWER, CURRENT,
    SENSOR or LIGHT.  Every other such line changes no object and calls
    no subscriber: it leaves the world as it was, but for the pending
    command a response takes. *)
Theorem recv_forwards_value_lines w line typ cmd_type vid args ids r :
  Str.first_char line = Some (line_prefix typ) →
  tokens line = cmd_type :: vid :: args →
  cmd_type ∈ known_cmds typ →
  _ids w !! Some (canonical cmd_type) = Some ids →
  Str.isdigit vid = true →
  ids !! Str.digits_val (Str.chars vid) = Some r →
  _recv line w
  = (if match typ with
        | S => bool_decide (cmd_type ≠ "TASK")
        | R => bool_decide
                 (canonical cmd_type ∈ ["LOAD"; "POWER"; "CURRENT"; "SENSOR"; "LIGHT"])
        end
     then handle_update_and_notify r (VStr <$> args) (popped typ w)
     else (Ret (), popped typ w))
  ∧ heap (popped typ w) = heap w
  ∧ called (popped typ w) = called w.
Proof.
  intros Hc Ht Hk Hids Hd Hr. split; [|by destruct typ].
  by eapply recv_found_eq.
Qed.

Lemma recv_forwards_value_lines_witness :
  _recv "S:LOAD 101 45.5" Sample.world
    = handle_update_and_notify 1%nat [VStr "45.5"] Sample.world
  ∧ _recv "R:GETLOAD 101 45.5" Sample.world
    = handle_update_and_notify 1%nat [VStr "45.5"]
        (with_cmds [] Sample.world)
  ∧ _recv "R:BLIND 50 33" Sample.world = (Ret (), with_cmds [] Sample.world).
Proof.
  split; [|split].
  - refine (proj1 (recv_forwards_value_lines Sample.world "S:LOAD 101 45.5" S
                     "LOAD" "101" ["45.5"]
                     (list_to_map [(101, 1%nat); (201, 2%nat); (202, 3%nat)]) 1%nat
                     _ _ _ _ _ _)); try reflexivity.
    refine (bool_decide_unpack _ _). vm_compute. exact I.
  - refine (proj1 (recv_forwards_value_lines Sample.world "R:GETLOAD 101 45.5" R
                     "GETLOAD" "101" ["45.5"]
                     (list_to_map [(101, 1%nat); (201, 2%nat); (202, 3%nat)]) 1%nat
                     _ _ _ _ _ _)); try reflexivity.
    refine (bool_decide_unpack _ _). vm_compute. exact I.
  - refine (proj1 (recv_forwards_value_lines Sample.world "R:BLIND 50 33" R
                     "BLIND" "50" ["33"] (list_to_map [(50, 9%nat)]) 9%nat
                     _ _ _ _ _ _)); try reflexivity.
    refine (bool_decide_unpack _ _). vm_compute. exact I.
Defined.

(** C4 as it was stated fails for a TASK status line: the task is
    registered and subscribed, the line is dropped, and the world stays as
    it is, where [handle_update] on the task would have called its
    subscriber. *)
Lemma task_status_line_is_dropped :
  "TASK" ∈ known_cmds S
  ∧ tokens "S:TASK 9 1 2" = ["TASK"; "9"; "1"; "2"]
  ∧ (_ids Sample.world !! Some "TASK") ≫= (.!! 9) = Some 8%nat
  ∧ _recv "S:TASK 9 1 2" Sample.world = (Ret (), Sample.world)
  ∧ handle_update_and_notify 8%nat [VStr "1"; VStr "2"] Sample.world
    = (Ret (), with_called [(18%nat, 8%nat)] Sample.world).
Proof.
  split; [refine (bool_decide_unpack _ _); vm_compute; exact I|].
  repeat split; vm_compute; reflexivity.
Qed.

(** ** What a malformed line does *)

Lemma notify_subscriber_returns h w : fst (notify_subscriber h w) = Ret ().
Proof.
  destruct h as [h|]; [|done]. simpl. by destruct (_subscribers w !! h).
Qed.

(** [handle_update_and_notify] raises what [handle_update] raises. *)
Lemma handle_update_and_notify_raises r args w e :
  fst (handle_update_and_notify r args w) = Raise e
  ↔ fst (handle_update r args w) = Raise e.
Proof.
  unfold handle_update_and_notify, mbind, M_bind.
  destruct (handle_update r args w) as [[h|e'] w']; simpl.
  - rewrite notify_subscriber_returns. split; intros [=].
  - split; by intros [= ->].
Qed.

Lemma eq_str_false a s : a ≠ s → eq_str (VStr a) s = false.
Proof. intros H. simpl. by apply String.eqb_neq. Qed.

(** A handler that reads its one argument as a float raises ValueError
    exactly when the argument is no float. *)
Lemma float_update_raises w r o a :
  heap w !! r = Some o →
  reads_float o a →
  fst (handle_update r [VStr a] w) = Raise ValueError ↔ float_of_string a = None.
Proof.
  intros Hr Hf. unfold handle_update.
  rewrite (bind_ret _ _ _ _ _ (deref_some _ _ _ Hr)).
  destruct o as [v|out| | | |s|s]; try done.
  - unfold Variable_handle_update. msimpl.
    destruct (float_of_string a); msimpl; done.
  - destruct (float_of_string a) as [v|] eqn:Ha.
    + assert (py_float (VStr a) = inr v) as Hp by (simpl; by rewrite Ha).
      destruct (decide (Output._output_type out = "COLOR")) as [Hty|Hty].
      * unfold Output_handle_update. msimpl. rewrite Ha. msimpl.
        rewrite decide_True by done.
        destruct (option_bind _ _ _ _) as [lr|]; simpl; [|done].
        unfold deref at 1. destruct (heap w !! lr) as [l|] eqn:Hlr; [|done].
        destruct l; try done.
        by erewrite Output_notify_eq by (simpl; apply lookup_insert_eq).
      * pose proof (level_update_eq w r out (VStr a) v Hr Hty Hp) as H.
        unfold handle_update in H.
        rewrite (bind_ret _ _ _ _ _ (deref_some _ _ _ Hr)) in H. by rewrite H.
    + unfold Output_handle_update. msimpl. by rewrite Ha.
  - unfold PollingSensor_handle_update. msimpl.
    destruct (float_of_string a); msimpl; done.
  - simpl in Hf. unfold Shade_handle_update. msimpl.
    assert (∀ s', s' ∈ ["OPEN"; "CLOSE"; "STOP"; "POS"] → (a =? s')%string = false)
      as Hw by (intros s' Hs'; apply String.eqb_neq; by intros ->).
    rewrite !Hw by (repeat constructor).
    destruct (float_of_string a); msimpl; done.
Qed.

(** An update with no argument raises IndexError, whatever the object. *)
Lemma empty_update_raises w r o :
  heap w !! r = Some o → fst (handle_update r [] w) = Raise IndexError.
Proof.
  intros Hr. unfold handle_update.
  rewrite (bind_ret _ _ _ _ _ (deref_some _ _ _ Hr)).
  by destruct o.
Qed.

(** The words of a shade: OPEN, CLOSE and STOP are read without a
    conversion; POS reads the argument after it. *)
Lemma shade_word_update w r s :
  heap w !! r = Some (OShade s) →
  (∀ a rest, a ∈ ["OPEN"; "CLOSE"; "STOP"] →
     fst (handle_update r (VStr a :: rest) w) = Ret (Some r))
  ∧ fst (handle_update r [VStr "POS"] w) = Raise IndexError
  ∧ (∀ x rest, fst (handle_update r (VStr "POS" :: VStr x :: rest) w) = Raise ValueError
               ↔ float_of_string x = None).
Proof.
  intros Hr.
  assert (∀ args, handle_update r args w = Shade_handle_update r s args w) as E.
  { intros args. unfold handle_update.
    by rewrite (bind_ret _ _ _ _ _ (deref_some _ _ _ Hr)). }
  unfold Shade_handle_update in E. split; [|split].
  - intros a rest Ha. rewrite E.
    repeat (apply elem_of_cons in Ha as [->|Ha]); try (by apply elem_of_nil in Ha);
      by msimpl.
  - rewrite E. by msimpl.
  - intros x rest. rewrite E. msimpl. destruct (float_of_string x); msimpl; done.
Qed.

Lemma handle_update_and_notify_returns r args w h :
  fst (handle_update r args w) = Ret h →
  fst (handle_update_and_notify r args w) = Ret ().
Proof.
  unfold handle_update_and_notify, mbind, M_bind.
  destruct (handle_update r args w) as [[h'|e] w']; simpl; [|done].
  intros _. apply notify_subscriber_returns.
Qed.

(** C6, as amended.  [_recv] returns without raising, and drops the
    line, when the line is empty or starts with neither R nor S, when its
    command type is not known, and when the lookup finds no object (no
    registry for the command type, a vid that is no number or is not
    registered).  It raises, and nothing catches the exception: IndexError
    for a line of either type with a single piece, that is with no vid,
    and for a forwarded update with no argument; and ValueError for a
    forwarded update of a variable, an output or a polling sensor whose
    single argument is no float, and of a shade whose single argument is
    no float and none of its four words, and only then.  A forwarded
    update of a shade whose first argument is OPEN, CLOSE or STOP returns;
    with POS alone it raises IndexError, and with POS and more it raises
    ValueError exactly when the argument after POS is no float. *)
Theorem recv_malformed_lines :
  (∀ w line,
     (∀ typ, Str.first_char line ≠ Some (line_prefix typ)) →
     _recv line w = (Ret (), w))
  ∧ (∀ w line typ cmd_type vid args,
       Str.first_char line = Some (line_prefix typ) →
       tokens line = cmd_type :: vid :: args →
       cmd_type ∉ known_cmds typ →
       _recv line w = (Ret (), popped typ w))
  ∧ (∀ w line typ cmd_type vid args,
       Str.first_char line = Some (line_prefix typ) →
       tokens line = cmd_type :: vid :: args →
       match _ids w !! Some (canonical cmd_type) with
       | None => True
       | Some ids =>
           Str.isdigit vid = false ∨ ids !! Str.digits_val (Str.chars vid) = None
       end →
       _recv line w = (Ret (), popped typ w))
  ∧ (∀ w line typ c,
       Str.first_char line = Some (line_prefix typ) →
       tokens line = [c] →
       _recv line w = (Raise IndexError, popped typ w))
  ∧ (∀ w line typ cmd_type vid a ids r o,
       Str.first_char line = Some (line_prefix typ) →
       tokens line = [cmd_type; vid; a] →
       cmd_type ∈ known_cmds typ →
       _ids w !! Some (canonical cmd_type) = Some ids →
       Str.isdigit vid = true →
       ids !! Str.digits_val (Str.chars vid) = Some r →
       match typ with
       | S => cmd_type ≠ "TASK"
       | R => canonical cmd_type ∈ ["LOAD"; "POWER"; "CURRENT"; "SENSOR"; "LIGHT"]
       end →
       heap w !! r = Some o →
       reads_float o a →
       fst (_recv line w) = Raise ValueError ↔ float_of_string a = None)
  ∧ (∀ w line typ cmd_type vid ids r o,
       Str.first_char line = Some (line_prefix typ) →
       tokens line = [cmd_type; vid] →
       cmd_type ∈ known_cmds typ →
       _ids w !! Some (canonical cmd_type) = Some ids →
       Str.isdigit vid = true →
       ids !! Str.digits_val (Str.chars vid) = Some r →
       match typ with
       | S => cmd_type ≠ "TASK"
       | R => canonical cmd_type ∈ ["LOAD"; "POWER"; "CURRENT"; "SENSOR"; "LIGHT"]
       end →
       heap w !! r = Some o →
       fst (_recv line w) = Raise IndexError)
  ∧ (∀ w line typ cmd_type vid args ids r s,
       Str.first_char line = Some (line_prefix typ) →
       tokens line = cmd_type :: vid :: args →
       cmd_type ∈ known_cmds typ →
       _ids w !! Some (canonical cmd_type) = Some ids →
       Str.isdigit vid = true →
       ids !! Str.digits_val (Str.chars vid) = Some r →
       match typ with
       | S => cmd_type ≠ "TASK"
       | R => canonical cmd_type ∈ ["LOAD"; "POWER"; "CURRENT"; "SENSOR"; "LIGHT"]
       end →
       heap w !! r = Some (OShade s) →
       (∀ a rest, args = a :: rest → a ∈ ["OPEN"; "CLOSE"; "STOP"] →
          fst (_recv line w) = Ret ())
       ∧ (args = ["POS"] → fst (_recv line w) = Raise IndexError)
       ∧ (∀ x rest, args = "POS" :: x :: rest →
            fst (_recv line w) = Raise ValueError ↔ float_of_string x = None)).
Proof.
  assert (∀ typ cmd_type,
            match typ with
            | S => cmd_type ≠ "TASK"
            | R => canonical cmd_type ∈ ["LOAD"; "POWER"; "CURRENT"; "SENSOR"; "LIGHT"]
            end →
            match typ with
            | S => bool_decide (cmd_type ≠ "TASK")
            | R => bool_decide
                     (canonical cmd_type ∈ ["LOAD"; "POWER"; "CURRENT"; "SENSOR"; "LIGHT"])
            end = true) as Hfwd
    by (intros [] c H; by apply bool_decide_eq_true_2).
  split; [|split; [|split; [|split; [|split; [|split]]]]].
  - intros w line H. by apply recv_untyped.
  - intros w line typ cmd_type vid args Hc Ht Hk.
    rewrite (recv_typed _ _ _ Hc). by eapply recv_parts_unknown.
  - intros w line typ cmd_type vid args Hc Ht Hl.
    rewrite (recv_typed _ _ _ Hc).
    destruct (decide (cmd_type ∈ known_cmds typ)) as [Hk|Hk];
      [|by eapply recv_parts_unknown].
    rewrite (recv_parts_known _ _ _ _ _ _ Ht Hk). case_bool_decide; [|done].
    apply recv_lookup_dropped. by destruct typ.
  - intros w line typ c Hc Ht.
    rewrite (recv_typed _ _ _ Hc). by eapply recv_parts_short.
  - intros w line typ cmd_type vid a ids r o Hc Ht Hk Hids Hd Hr Hfw Ho Hf.
    rewrite (recv_found_eq _ _ _ _ _ _ _ _ Hc Ht Hk Hids Hd Hr), (Hfwd _ _ Hfw).
    rewrite handle_update_and_notify_raises. simpl.
    apply (float_update_raises _ _ o); [|done]. by destruct typ.
  - intros w line typ cmd_type vid ids r o Hc Ht Hk Hids Hd Hr Hfw Ho.
    rewrite (recv_found_eq _ _ _ _ _ _ _ _ Hc Ht Hk Hids Hd Hr), (Hfwd _ _ Hfw).
    rewrite handle_update_and_notify_raises. simpl.
    apply (empty_update_raises _ _ o). by destruct typ.
  - intros w line typ cmd_type vid args ids r s Hc Ht Hk Hids Hd Hr Hfw Ho.
    rewrite (recv_found_eq _ _ _ _ _ _ _ _ Hc Ht Hk Hids Hd Hr), (Hfwd _ _ Hfw).
    assert (heap (popped typ w) !! r = Some (OShade s)) as Ho' by by destruct typ.
    destruct (shade_word_update _ _ _ Ho') as (H1 & H2 & H3).
    split; [|split].
    + intros a rest -> Ha. rewrite fmap_cons.
      eapply handle_update_and_notify_returns. apply (H1 a (VStr <$> rest) Ha).
    + intros ->. rewrite handle_update_and_notify_raises. exact H2.
    + intros x rest ->. rewrite !fmap_cons, handle_update_and_notify_raises.
      apply H3.
Qed.

Lemma recv_malformed_lines_witness :
  _recv "hello" Sample.world = (Ret (), Sample.world)
  ∧ _recv "S:FOO 1 2" Sample.world = (Ret (), Sample.world)
  ∧ _recv "S:LOAD x7 2" Sample.world = (Ret (), Sample.world)
  ∧ _recv "R:LOAD" Sample.world = (Raise IndexError, with_cmds [] Sample.world)
  ∧ fst (_recv "S:VARIABLE 5 abc" Sample.world) = Raise ValueError
  ∧ fst (_recv "S:LOAD 101" Sample.world) = Raise IndexError
  ∧ fst (_recv "S:BLIND 50 OPEN" Sample.world) = Ret ()
  ∧ fst (_recv "S:BLIND 50 POS" Sample.world) = Raise IndexError
  ∧ fst (_recv "S:BLIND 50 POS half" Sample.world) = Raise ValueError.
Proof.
  destruct recv_malformed_lines as (H1 & H2 & H3 & H4 & H5 & H6 & H7).
  assert ("BLIND" ∈ known_cmds S) as Hb
    by (refine (bool_decide_unpack _ _); vm_compute; exact I).
  split; [|split; [|split; [|split; [|split; [|split; [|split; [|split]]]]]]].
  - apply H1. by intros [].
  - apply (H2 _ _ S "FOO" "1" ["2"]); [reflexivity | reflexivity |].
    refine (bool_decide_unpack _ _). vm_compute. exact I.
  - apply (H3 _ _ S "LOAD" "x7" ["2"]); [reflexivity | reflexivity |].
    simpl. left. reflexivity.
  - exact (H4 Sample.world "R:LOAD" R "LOAD" eq_refl eq_refl).
  - refine (proj2 (H5 Sample.world _ S "VARIABLE" "5" "abc"
                     (list_to_map [(5, 7%nat)]) 7%nat (OVariable Sample.variable)
                     _ _ _ _ _ _ _ _ _) _); try reflexivity.
    + refine (bool_decide_unpack _ _). vm_compute. exact I.
    + discriminate.
  - refine (H6 Sample.world _ S "LOAD" "101"
              (list_to_map [(101, 1%nat); (201, 2%nat); (202, 3%nat)]) 1%nat
              (OOutput Sample.load) _ _ _ _ _ _ _ _); try reflexivity.
    + refine (bool_decide_unpack _ _). vm_compute. exact I.
    + discriminate.
  - destruct (H7 Sample.world "S:BLIND 50 OPEN" S "BLIND" "50" ["OPEN"]
                (list_to_map [(50, 9%nat)]) 9%nat Sample.shade
                eq_refl eq_refl Hb eq_refl eq_refl eq_refl) as (H & _ & _);
      [discriminate | reflexivity |].
    apply (H "OPEN" []); [reflexivity|]. by left.
  - destruct (H7 Sample.world "S:BLIND 50 POS" S "BLIND" "50" ["POS"]
                (list_to_map [(50, 9%nat)]) 9%nat Sample.shade
                eq_refl eq_refl Hb eq_refl eq_refl eq_refl) as (_ & H & _);
      [discriminate | reflexivity |].
    apply H. reflexivity.
  - destruct (H7 Sample.world "S:BLIND 50 POS half" S "BLIND" "50" ["POS"; "half"]
                (list_to_map [(50, 9%nat)]) 9%nat Sample.shade
                eq_refl eq_refl Hb eq_refl eq_refl eq_refl) as (_ & _ & H);
      [discriminate | reflexivity |].
    apply (H "half" []); reflexivity.
Defined.

(** C6 as it was stated fails: a status line with no vid raises
    IndexError out of [_recv], and an update of a variable, a load or a
    shade whose argument is no number raises ValueError. *)
Lemma recv_raises :
  fst (_recv "S:LOAD" Sample.world) = Raise IndexError
  ∧ fst (_recv "S:VARIABLE 5 abc" Sample.world) = Raise ValueError
  ∧ fst (_recv "S:LOAD 101 bright" Sample.world) = Raise ValueError
  ∧ fst (_recv "S:BLIND 50 half" Sample.world) = Raise ValueError
  ∧ fst (_recv "R:GETLIGHT 60 n/a" Sample.world) = Raise ValueError.
Proof. repeat split; vm_compute; reflexivity. Qed.

(** C10.  The empty line has no first character, and [_recv] returns on
    it at once: no pending command is taken, no object changes, no
    subscriber is called, nothing is raised, and the world is as it was. *)
Theorem recv_empty_line w :
  Str.first_char "" = None
  ∧ fst (_recv "" w) = Ret ()
  ∧ _cmds (snd (_recv "" w)) = _cmds w
  ∧ heap (snd (_recv "" w)) = heap w
  ∧ called (snd (_recv "" w)) = called w
  ∧ snd (_recv "" w) = w.
Proof.
  assert (_recv "" w = (Ret (), w)) as ->.
  { apply recv_untyped. intros typ. simpl. discriminate. }
  repeat split.
Qed.

(** ** Registration *)

Lemma setdefault_lookup k k' w :
  default ∅ (_ids (snd (setdefault k w)) !! k') = default ∅ (_ids w !! k').
Proof.
  unfold setdefault, modify. simpl.
  destruct (_ids w !! k) eqn:Hk; [done|]. simpl.
  destruct (decide (k = k')) as [<-|Hne].
  - by rewrite lookup_insert_eq, Hk.
  - by rewrite lookup_insert_ne.
Qed.

Lemma setdefault_is_Some k w : is_Some (_ids (snd (setdefault k w)) !! k).
Proof.
  unfold setdefault, modify. simpl.
  destruct (_ids w !! k) eqn:Hk; simpl; [by rewrite Hk|].
  by rewrite lookup_insert_eq.
Qed.

Lemma setdefault_keeps k k' w :
  is_Some (_ids w !! k') → is_Some (_ids (snd (setdefault k w)) !! k').
Proof.
  unfold setdefault, modify. simpl. intros H.
  destruct (_ids w !! k) eqn:Hk; simpl; [done|].
  destruct (decide (k = k')) as [<-|Hne]; [by rewrite lookup_insert_eq|].
  by rewrite lookup_insert_ne.
Qed.

Lemma ids_assign_returns k vid r w :
  is_Some (_ids w !! k) →
  ∃ w', ids_assign k vid r w = (Ret (), w') ∧ is_Some (_ids w' !! k)
    ∧ ∀ k', is_Some (_ids w !! k') → is_Some (_ids w' !! k').
Proof.
  intros [m Hm]. unfold ids_assign. rewrite Hm. eexists. split; [done|]. simpl.
  split; [by rewrite lookup_insert_eq|].
  intros k' Hk'. destruct (decide (k = k')) as [<-|Hne];
    [by rewrite lookup_insert_eq | by rewrite lookup_insert_ne].
Qed.

(** What [register_id] checks: it raises exactly when the vid is known
    under the SECOND command type, whatever is registered under the first,
    and returns otherwise. *)
Lemma register_id_raises w cmd_type cmd_type2 r o :
  heap w !! r = Some o →
  let vid := Entity._vid (obj_base o) in
  fst (register_id cmd_type cmd_type2 r w)
  = if decide (is_Some (default ∅ (_ids w !! cmd_type2) !! vid))
    then Raise (VIDExistsError vid) else Ret ().
Proof.
  intros Hr vid. unfold register_id.
  rewrite (bind_ret _ _ _ _ _ (deref_some _ _ _ Hr)). fold vid.
  unfold mbind at 1, M_bind at 1.
  destruct (setdefault (Some cmd_type) w) as [[[]|] w1] eqn:H1; [|done].
  unfold mbind at 1, M_bind at 1.
  destruct (setdefault cmd_type2 w1) as [[[]|] w2] eqn:H2; [|done].
  assert (default ∅ (_ids w2 !! cmd_type2) = default ∅ (_ids w !! cmd_type2)) as E.
  { replace w2 with (snd (setdefault cmd_type2 w1)) by by rewrite H2.
    rewrite setdefault_lookup.
    replace w1 with (snd (setdefault (Some cmd_type) w)) by by rewrite H1.
    by rewrite setdefault_lookup. }
  unfold mbind at 1, M_bind at 1, gets at 1. rewrite E.
  destruct (decide (is_Some (default ∅ (_ids w !! cmd_type2) !! vid))); [done|].
  assert (is_Some (_ids w2 !! Some cmd_type)) as Hs1.
  { replace w2 with (snd (setdefault cmd_type2 w1)) by by rewrite H2.
    apply setdefault_keeps.
    replace w1 with (snd (setdefault (Some cmd_type) w)) by by rewrite H1.
    apply setdefault_is_Some. }
  assert (is_Some (_ids w2 !! cmd_type2)) as Hs2.
  { replace w2 with (snd (setdefault cmd_type2 w1)) by by rewrite H2.
    apply setdefault_is_Some. }
  destruct (ids_assign_returns (Some cmd_type) vid r w2 Hs1) as (w3 & H3 & _ & Hk).
  rewrite (bind_ret _ _ _ _ _ H3).
  assert (∃ w4, (match cmd_type2 with
                 | Some c2 => if decide (c2 = "") then mret () else ids_assign cmd_type2 vid r
                 | None => mret ()
                 end) w3 = (Ret (), w4)) as [w4 H4].
  { destruct cmd_type2 as [c2|]; [|by eexists].
    case_decide; [by eexists|].
    destruct (ids_assign_returns (Some c2) vid r w3 (Hk _ Hs2)) as (w4 & -> & _).
    by eexists. }
  rewrite (bind_ret _ _ _ _ _ H4). by msimpl.
Qed.

(** C5, the code at the failing input.  Nothing is registered; [A] and
    [B] both carry vid 7.  Registering [A] under LOAD succeeds, and so
    does registering [B] under LOAD after it: no error is raised, and the
    entry for vid 7 now names [B]. *)
Theorem register_id_accepts_duplicate :
  let w1 := snd (register_id "LOAD" None 1%nat Sample.unregistered) in
  let w2 := snd (register_id "LOAD" None 2%nat w1) in
  fst (register_id "LOAD" None 1%nat Sample.unregistered) = Ret ()
  ∧ _ids w1 !! Some "LOAD" = Some {[7 := 1%nat]}
  ∧ fst (register_id "LOAD" None 2%nat w1) = Ret ()
  ∧ _ids w2 !! Some "LOAD" = Some {[7 := 2%nat]}
  ∧ _names w2 = {["A" := 7; "B" := 7]}.
Proof.
  intros w1 w2. subst w1 w2.
  split; [vm_compute; reflexivity|].
  split; [vm_compute; reflexivity|].
  split; [vm_compute; reflexivity|].
  split; vm_compute; reflexivity.
Qed.

(** ** Setting a variable *)

(** A text that is no number is refused exactly when its FIRST character
    is a double quote, a newline or a carriage return. *)
Lemma set_variable_vid_text w vid s :
  match_num s = false →
  set_variable_vid vid (VStr s) w
  = if match_quote_newline s
    then (Raise (Exception "Newlines and quotes are not allowed in Text values"), w)
    else send_cmd (Line ("VARIABLE " +:+ pretty vid +:+ " " +:+ dquote +:+ s +:+ dquote)) w.
Proof.
  intros H. unfold set_variable_vid. rewrite H. by destruct (match_quote_newline s).
Qed.

(** An integer and a text of digits are sent as they are. *)
Lemma set_variable_vid_number w vid :
  (∀ z, set_variable_vid vid (VInt z) w
        = send_cmd (Line ("VARIABLE " +:+ pretty vid +:+ " " +:+ pretty z)) w)
  ∧ (∀ s, match_num s = true →
          set_variable_vid vid (VStr s) w
          = send_cmd (Line ("VARIABLE " +:+ pretty vid +:+ " " +:+ s)) w).
Proof.
  split; [done|]. intros s H. unfold set_variable_vid. by rewrite H.
Qed.

(** [send_cmd] sends one command, and queues it. *)
Lemma send_cmd_eq cmd w :
  send_cmd cmd w = (Ret (), with_sent (sent w ++ [cmd]) (with_cmds (_cmds w ++ [cmd]) w)).
Proof. done. Qed.

(** C8, the code at the failing input.  The text [a"b] is no number and
    holds a double quote, yet nothing is raised: the command
    [VARIABLE 5 "a"b"] is sent and queued. *)
Theorem set_variable_vid_accepts_inner_quote w :
  let value := "a" +:+ dquote +:+ "b" in
  dquote = String "034"%char ""
  ∧ match_num value = false
  ∧ match_quote_newline value = false
  ∧ set_variable_vid 5 (VStr value) w
    = (Ret (),
       with_sent (sent w ++ [Line ("VARIABLE 5 " +:+ dquote +:+ value +:+ dquote)])
         (with_cmds (_cmds w ++ [Line ("VARIABLE 5 " +:+ dquote +:+ value +:+ dquote)]) w)).
Proof.
  intros value. split; [reflexivity|]. split; [reflexivity|]. split; [reflexivity|].
  rewrite set_variable_vid_text by reflexivity.
  replace (match_quote_newline value) with false by reflexivity.
  by rewrite send_cmd_eq.
Qed.

(** The name [register_id] gives an object: the areas above its own,
    outermost first and stripped, then its name. *)
Example register_id_names :
  let w := snd (register_id "LOAD" None 1%nat (with_ids ∅ Sample.world)) in
  obj_base <$> heap w !! 1%nat
    = Some (Entity.with_name "Ground Floor-Hall-Lamp" (Output.base Sample.load))
  ∧ _names w = {["Ground Floor-Hall-Lamp" := 101]}.
Proof. split; vm_compute; reflexivity. Qed.

(** A text with none of the three characters is sent between quotes. *)
Lemma set_variable_vid_clean w vid s :
  match_num s = false →
  (∀ c, c ∈ Str.chars s → c ≠ "034"%char ∧ c ≠ "010"%char ∧ c ≠ "013"%char) →
  set_variable_vid vid (VStr s) w
  = send_cmd (Line ("VARIABLE " +:+ pretty vid +:+ " " +:+ dquote +:+ s +:+ dquote)) w.
Proof.
  intros Hn Hc. rewrite set_variable_vid_text by done.
  destruct s as [|c s]; [done|]. simpl.
  destruct (Hc c) as (H1 & H2 & H3); [by left|].
  by rewrite !bool_decide_eq_false_2.
Qed.

(** ** Well-formed worlds *)

Lemma lift_not_illformed {A} (x : exn + A) w :
  (∀ e, x = inl e → e ≠ IllFormed) →
  fst (lift x w) ≠ Raise IllFormed.
Proof. destruct x as [e|a]; simpl; [|done]. intros H [= ->]. by eapply H. Qed.

Lemma py_float_not_illformed x e : py_float x = inl e → e ≠ IllFormed.
Proof.
  destruct x as [| | |s]; simpl; try by intros [= <-].
  destruct (float_of_string s); by intros [= <-].
Qed.

Lemma py_int_not_illformed x e : py_int x = inl e → e ≠ IllFormed.
Proof.
  destruct x as [| |[]|s]; simpl; try by intros [= <-].
  destruct (int_of_string s); by intros [= <-].
Qed.

Lemma ints_not_illformed l w : fst (ints l w) ≠ Raise IllFormed.
Proof.
  revert w. induction l as [|x l IH]; intros w; [done|]. simpl.
  unfold mbind, M_bind. destruct (py_int x) as [e|z] eqn:Hx; simpl.
  - intros [= ->]. by eapply py_int_not_illformed.
  - specialize (IH w). by destruct (ints l w) as [[zs|e] w'].
Qed.

Lemma Output_notify_returns w r out :
  heap w !! r = Some (OOutput out) → fst (Output_notify r w) = Ret ().
Proof. intros H. by rewrite (Output_notify_eq _ _ _ H). Qed.

(** In a well-formed world no handler meets a reference it cannot
    follow. *)
Lemma handle_update_well_formed w r args :
  wf_world w → is_Some (heap w !! r) →
  fst (handle_update r args w) ≠ Raise IllFormed.
Proof.
  intros (Hl & Hk & _) [o Ho]. unfold handle_update.
  rewrite (bind_ret _ _ _ _ _ (deref_some _ _ _ Ho)).
  destruct o as [v|out|b|k|t|s|s].
  - unfold Variable_handle_update. msimpl. destruct args as [|a args]; [done|].
    simpl. destruct (py_float a) eqn:E; simpl; [|done].
    intros [= ->]. by eapply py_float_not_illformed.
  - unfold Output_handle_update. case_decide as Hlen.
    + destruct args as [|a [|]]; try done. msimpl.
      destruct (py_float a) eqn:E; simpl;
        [intros [= ->]; by eapply py_float_not_illformed|].
      case_decide.
      * destruct (Output._color_control_vid out) as [cc|]; simpl; [|done].
        destruct (_vid_to_load w !! cc) as [lr|] eqn:Hcc; simpl; [|done].
        destruct (Hl _ _ Hcc) as [l Hlr]. unfold deref at 1. rewrite Hlr.
        by erewrite Output_notify_eq by (simpl; apply lookup_insert_eq).
      * by erewrite Output_notify_eq by (simpl; apply lookup_insert_eq).
    + msimpl. destruct args as [|a0 args]; [done|]. simpl.
      destruct (eq_str a0 "RGBLoad.GetRGB"); [|done].
      destruct args as [|a1 [|a2 args]]; try done. simpl.
      destruct (py_int a1) eqn:E1; simpl;
        [intros [= ->]; by eapply py_int_not_illformed|].
      destruct (py_int a2) as [|char] eqn:E2; simpl;
        [intros [= ->]; by eapply py_int_not_illformed|].
      destruct (char <? 3).
      * unfold list_assign. destruct (_ && _); msimpl; [|done].
        destruct (char =? 2); [|done].
        by erewrite Output_notify_eq by (simpl; apply lookup_insert_eq).
      * destruct (char =? 2); [|done].
        by erewrite Output_notify_eq by done.
  - unfold Button_handle_update. msimpl. destruct args as [|a args]; [done|]. simpl.
    destruct (Button._keypad b) as [kr|] eqn:Hb.
    + destruct (Hk _ _ _ Ho Hb) as [k Hkr]. msimpl. unfold deref. simpl.
      assert (kr ≠ r) as Hne by (intros ->; congruence).
      rewrite lookup_insert_ne by done. rewrite Hkr.
      unfold Keypad_handle_update. msimpl.
      by destruct (_subscribers w !! kr).
    + by destruct (eq_str a "PRESS"), (eq_str a "RELEASE").
  - unfold Keypad_handle_update. msimpl.
    by destruct args as [|a0 [|a1 [|a2 args]]].
  - unfold Task_handle_update. msimpl. destruct args as [|a0 args]; [done|]. simpl.
    destruct (py_int a0) eqn:E0; simpl;
      [intros [= ->]; by eapply py_int_not_illformed|].
    destruct args as [|a1 args]; [done|]. simpl.
    destruct (py_int a1) eqn:E1; simpl;
      [intros [= ->]; by eapply py_int_not_illformed|].
    pose proof (ints_not_illformed args w) as Hi. rewrite drop_0.
    destruct (ints args w) as [[zs|e] w']; simpl in *; [done|].
    intros [= ->]. by apply Hi.
  - unfold PollingSensor_handle_update. msimpl. destruct args as [|a args]; [done|].
    simpl. destruct (py_float a) eqn:E; simpl; [|done].
    intros [= ->]. by eapply py_float_not_illformed.
  - unfold Shade_handle_update. msimpl. destruct args as [|a args]; [done|]. simpl.
    destruct (eq_str a "OPEN"); [done|]. destruct (eq_str a "CLOSE"); [done|].
    destruct (eq_str a "STOP"); [done|]. destruct (eq_str a "POS").
    + destruct args as [|a1 args]; [done|]. simpl.
      destruct (py_float a1) eqn:E; simpl; [|done].
      intros [= ->]. by eapply py_float_not_illformed.
    + destruct (py_float a) eqn:E; simpl; [|done].
      intros [= ->]. by eapply py_float_not_illformed.
Qed.

Lemma wf_world_popped typ w : wf_world w → wf_world (popped typ w).
Proof. by destruct typ. Qed.

Lemma recv_lookup_well_formed w typ cmd_type vid args :
  wf_world w → fst (_recv_lookup typ cmd_type vid args w) ≠ Raise IllFormed.
Proof.
  intros Hw. unfold _recv_lookup. msimpl.
  destruct (_ids w !! Some cmd_type) as [ids|] eqn:Hids; [|done].
  destruct (Str.isdigit vid); [|done]. simpl.
  destruct (ids !! _) as [r|] eqn:Hr; [|done].
  assert (fst (handle_update_and_notify r (VStr <$> args) w) ≠ Raise IllFormed) as H.
  { rewrite handle_update_and_notify_raises. apply handle_update_well_formed; [done|].
    destruct Hw as (_ & _ & Hreg). by eapply Hreg. }
  destruct typ; [|done]. by case_bool_decide.
Qed.

(** In a well-formed world [_recv] raises Python's exceptions only. *)
Lemma recv_well_formed w line :
  wf_world w → fst (_recv line w) ≠ Raise IllFormed.
Proof.
  intros Hw.
  assert (∀ typ, fst (_recv_parts typ line (popped typ w)) ≠ Raise IllFormed) as Hp.
  { intros typ. apply (wf_world_popped typ) in Hw. revert Hw.
    generalize (popped typ w). intros w1 Hw1. unfold _recv_parts.
    destruct (Str.split_sp_colon _) as [|c [|v args]]; [done..|]. msimpl.
    repeat (case_bool_decide || case_decide || case_match); simpl; try done;
      by apply recv_lookup_well_formed. }
  destruct (decide (Str.first_char line = Some (line_prefix R))) as [HR|HR];
    [rewrite (recv_typed _ _ _ HR); apply Hp|].
  destruct (decide (Str.first_char line = Some (line_prefix S))) as [HS|HS];
    [rewrite (recv_typed _ _ _ HS); apply Hp|].
  rewrite recv_untyped; [done|]. by intros [].
Qed.

Lemma sample_world_well_formed : wf_world Sample.world.
Proof.
  split; [|split].
  - intros vid r H. apply elem_of_list_to_map_2 in H.
    repeat (apply elem_of_cons in H as [[= -> ->]|H]); try (by eexists).
    by apply elem_of_nil in H.
  - intros r b kr H. apply elem_of_list_to_map_2 in H.
    repeat (apply elem_of_cons in H as [[= -> ->]|H]);
      try (by apply elem_of_nil in H);
      simpl; intros [= <-]; by eexists.
  - intros c ids vid r H. apply elem_of_list_to_map_2 in H.
    repeat (apply elem_of_cons in H as [[= -> ->]|H]);
      try (by apply elem_of_nil in H);
      intros H';
      repeat (apply lookup_insert_Some in H' as [[<- <-]|[_ H']]);
      try (by rewrite lookup_empty in H'); by eexists.
Qed.

(** * More properties *)

(** ** Escaping *)

Lemma str_app_cons c s1 s2 : String c s1 +:+ s2 = String c (s1 +:+ s2).
Proof. reflexivity. Qed.

Lemma str_app_assoc s1 s2 s3 : (s1 +:+ s2) +:+ s3 = s1 +:+ (s2 +:+ s3).
Proof.
  induction s1 as [|c s1 IH]; [reflexivity|].
  rewrite !str_app_cons. by rewrite IH.
Qed.

Lemma chars_app s1 s2 : Str.chars (s1 +:+ s2) = Str.chars s1 ++ Str.chars s2.
Proof.
  induction s1 as [|c s1 IH]; [reflexivity|].
  rewrite str_app_cons. unfold Str.chars in *. simpl. by rewrite IH.
Qed.

Lemma replace_char_app c new s1 s2 :
  replace_char c new (s1 +:+ s2)
  = replace_char c new s1 +:+ replace_char c new s2.
Proof.
  induction s1 as [|x s1 IH]; [reflexivity|].
  rewrite str_app_cons. simpl. rewrite IH.
  destruct (Ascii.eqb x c); [by rewrite str_app_assoc | by rewrite str_app_cons].
Qed.

Lemma xml_escape_app s1 s2 : xml_escape (s1 +:+ s2) = xml_escape s1 +:+ xml_escape s2.
Proof. unfold xml_escape. by rewrite !replace_char_app. Qed.

Lemma xml_escape_char c :
  xml_escape (String c "")
  = if Ascii.eqb c "<" then "&amp;lt;"
    else if Ascii.eqb c "&" then "&amp;"
    else String c "".
Proof.
  unfold xml_escape. simpl.
  destruct (Ascii.eqb c "<") eqn:H1; [reflexivity|]. simpl.
  by destruct (Ascii.eqb c "&").
Qed.

(** X1.  [xml_escape] works character by character: the escape of a
    text is the escapes of its pieces joined.  No character [<] is left in
    the result.  The ampersand becomes the entity for an ampersand, and a
    character other than these two stays.  A [<] is escaped twice: the
    entity written for it in the first step has its ampersand escaped in
    the second. *)
Theorem xml_escape_spec :
  (∀ s1 s2, xml_escape (s1 +:+ s2) = xml_escape s1 +:+ xml_escape s2)
  ∧ xml_escape "<" = "&amp;lt;"
  ∧ xml_escape "&" = "&amp;"
  ∧ (∀ c, c ≠ "<"%char → c ≠ "&"%char → xml_escape (String c "") = String c "")
  ∧ (∀ s c, c ∈ Str.chars (xml_escape s) → c ≠ "<"%char).
Proof.
  split; [apply xml_escape_app|]. split; [reflexivity|]. split; [reflexivity|].
  split.
  - intros c H1 H2. rewrite xml_escape_char.
    apply Ascii.eqb_neq in H1, H2. by rewrite H1, H2.
  - induction s as [|x s IH]; intros c Hc.
    + by apply elem_of_nil in Hc.
    + change (String x s) with (String x "" +:+ s) in Hc.
      rewrite xml_escape_app, chars_app, xml_escape_char in Hc.
      apply elem_of_app in Hc as [Hc|Hc]; [|by apply IH].
      destruct (Ascii.eqb x "<") eqn:H1.
      { intros ->. apply list_elem_of_In in Hc. simpl in Hc. intuition discriminate. }
      destruct (Ascii.eqb x "&") eqn:H2.
      { intros ->. apply list_elem_of_In in Hc. simpl in Hc. intuition discriminate. }
      apply list_elem_of_singleton in Hc as ->. by apply Ascii.eqb_neq.
Qed.

Lemma xml_escape_spec_witness :
  xml_escape "a<b" = "a&amp;lt;b" ∧ xml_escape "a" = "a".
Proof.
  destruct xml_escape_spec as (H1 & H2 & _ & H4 & _).
  split.
  - change "a<b" with ("a" +:+ "<" +:+ "b").
    rewrite !H1, H2, !(H4 "a"%char), !(H4 "b"%char) by discriminate. reflexivity.
  - apply (H4 "a"%char); discriminate.
Defined.

Lemma level_to_kelvin_cases (level : pyfloat) :
  (∃ k : Q, level_to_kelvin level = Fin k ∧ (2200 <= k <= 6000)%Q)
  ∨ (level = NaN ∧ level_to_kelvin level = NaN).
Proof.
  destruct level as [l| | |].
  - left. destruct (level_to_kelvin_fin l) as (k & Hk & Hr & _). eauto.
  - left. exists 6000%Q. split; [reflexivity | lra].
  - left. exists 2200%Q. split; [reflexivity | lra].
  - by right.
Qed.

(** X2.  [level_to_mireds] never divides by zero: the kelvin value it
    divides by is between 2200 and 6000, or NaN for the level NaN.  For
    every other level the result is a million over that kelvin value, and
    lies between a million over 6000 and a million over 2200. *)
Theorem level_to_mireds_range (level : pyfloat) :
  (∃ m, level_to_mireds level = inr m)
  ∧ (level ≠ NaN →
     ∃ m k : Q, level_to_kelvin level = Fin k
       ∧ level_to_mireds level = inr (Fin m)
       ∧ (m * k == 1000000)%Q
       ∧ (1000000 / 6000 <= m <= 1000000 / 2200)%Q).
Proof.
  unfold level_to_mireds.
  destruct (level_to_kelvin_cases level) as [(k & -> & Hk)|[-> ->]].
  - assert (Qeq_bool k 0 = false) as Hz.
    { apply not_true_iff_false. intros H%Qeq_bool_eq. lra. }
    simpl. rewrite Hz. split; [by eexists|]. intros _.
    exists (1000000 / k)%Q, k. split; [done|]. split; [done|].
    split; [field; lra|]. split.
    + apply Qle_shift_div_l; [lra|].
      assert (1000000 / 6000 * k == k * (1000000 # 6000))%Q as -> by field. lra.
    + apply Qle_shift_div_r; [lra|].
      assert (1000000 / 2200 * k == k * (1000000 # 2200))%Q as -> by field. lra.
  - split; [by eexists | done].
Qed.

Lemma level_to_mireds_range_witness :
  ∃ m k : Q, level_to_kelvin (Fin 50) = Fin k
    ∧ level_to_mireds (Fin 50) = inr (Fin m)
    ∧ (m * k == 1000000)%Q
    ∧ (1000000 / 6000 <= m <= 1000000 / 2200)%Q.
Proof.
  destruct (level_to_mireds_range (Fin 50)) as [_ H]. apply H. discriminate.
Defined.

(** X3.  The round trip in the other direction than C9: for a level
    between 0 and 100, [kelvin_to_level (level_to_kelvin l)] is [l]. *)
Theorem level_kelvin_round_trip (l : Q) :
  (0 <= l <= 100)%Q →
  same (kelvin_to_level (level_to_kelvin (Fin l))) (Fin l).
Proof.
  intros Hl. unfold level_to_kelvin.
  destruct (flt_cases 0 100 l) as [[_ H]|[(_ & _ & _ & H)|(-> & -> & _)]];
    [lra | lra |].
  simpl. unfold kelvin_to_level.
  set (k := ((6000 - 2200) * l / 100 + 2200)%Q).
  assert (k == 2200 + l * 38)%Q as Ek by (unfold k; field).
  destruct (flt_cases 2200 6000 k) as [[_ H]|[(_ & _ & _ & H)|(-> & -> & _)]];
    [lra | lra |].
  simpl. rewrite Ek. field.
Qed.

Lemma level_kelvin_round_trip_witness :
  same (kelvin_to_level (level_to_kelvin (Fin 45))) (Fin 45).
Proof. apply (level_kelvin_round_trip 45). lra. Defined.

(** X4.  Both conversions are monotone on the finite numbers, the clamped
    ranges included. *)
Theorem level_kelvin_monotone (a b : Q) :
  (a <= b)%Q →
  (∃ ka kb : Q, level_to_kelvin (Fin a) = Fin ka ∧ level_to_kelvin (Fin b) = Fin kb
     ∧ (ka <= kb)%Q)
  ∧ (∃ la lb : Q, kelvin_to_level (Fin a) = Fin la ∧ kelvin_to_level (Fin b) = Fin lb
       ∧ (la <= lb)%Q).
Proof.
  intros Hab. split.
  - unfold level_to_kelvin.
    destruct (flt_cases 0 100 a) as [[-> Ha]|[(-> & -> & Ha1 & Ha2)|(-> & -> & Ha)]];
    destruct (flt_cases 0 100 b) as [[-> Hb]|[(-> & -> & Hb1 & Hb2)|(-> & -> & Hb)]];
      simpl; eexists _, _; (split; [reflexivity|]); (split; [reflexivity|]);
      try lra.
    + assert ((6000 - 2200) * b / 100 + 2200 == 2200 + b * 38)%Q as -> by field. lra.
    + assert ((6000 - 2200) * a / 100 + 2200 == 2200 + a * 38)%Q as -> by field. lra.
    + assert ((6000 - 2200) * a / 100 + 2200 == 2200 + a * 38)%Q as -> by field.
      assert ((6000 - 2200) * b / 100 + 2200 == 2200 + b * 38)%Q as -> by field. lra.
  - unfold kelvin_to_level.
    destruct (flt_cases 2200 6000 a) as [[-> Ha]|[(-> & -> & Ha1 & Ha2)|(-> & -> & Ha)]];
    destruct (flt_cases 2200 6000 b) as [[-> Hb]|[(-> & -> & Hb1 & Hb2)|(-> & -> & Hb)]];
      simpl; eexists _, _; (split; [reflexivity|]); (split; [reflexivity|]);
      try lra.
    + assert ((b - 2200) / (6000 - 2200) * 100 == (b - 2200) * (1 # 38))%Q as -> by field. lra.
    + assert ((a - 2200) / (6000 - 2200) * 100 == (a - 2200) * (1 # 38))%Q as -> by field. lra.
    + assert ((a - 2200) / (6000 - 2200) * 100 == (a - 2200) * (1 # 38))%Q as -> by field.
      assert ((b - 2200) / (6000 - 2200) * 100 == (b - 2200) * (1 # 38))%Q as -> by field. lra.
Qed.

Lemma level_kelvin_monotone_witness :
  (∃ ka kb : Q, level_to_kelvin (Fin 10) = Fin ka ∧ level_to_kelvin (Fin 20) = Fin kb
     ∧ (ka <= kb)%Q)
  ∧ (∃ la lb : Q, kelvin_to_level (Fin 10) = Fin la ∧ kelvin_to_level (Fin 20) = Fin lb
       ∧ (la <= lb)%Q).
Proof. apply (level_kelvin_monotone 10 20). lra. Defined.

(** ** Stripping *)

Lemma lstrip_head l c l' : Str.lstrip l = c :: l' → Str.is_space c = false.
Proof.
  induction l as [|x l IH]; simpl; [done|].
  destruct (Str.is_space x) eqn:Hx; [done|]. by intros [= <- _].
Qed.

Lemma lstrip_last l : Str.lstrip l ≠ [] → last (Str.lstrip l) = last l.
Proof.
  induction l as [|x l IH]; simpl; [done|].
  destruct (Str.is_space x); [|done].
  intros H. rewrite IH by done. destruct l; [done|]. done.
Qed.

Lemma last_rev {A} (l : list A) : last (rev l) = head l.
Proof. destruct l as [|x l]; [done|]. simpl. apply last_snoc. Qed.

Lemma head_rev {A} (l : list A) : head (rev l) = last l.
Proof. by rewrite <- (rev_involutive l) at 2; rewrite last_rev. Qed.

Lemma strip_ends l :
  (∀ c, head (Str.strip l) = Some c → Str.is_space c = false)
  ∧ (∀ c, last (Str.strip l) = Some c → Str.is_space c = false).
Proof.
  unfold Str.strip, Str.rstrip.
  set (y := rev (Str.lstrip l)). split; intros c Hc.
  - rewrite head_rev in Hc.
    assert (Str.lstrip y ≠ []) as Hne by (intros E; by rewrite E in Hc).
    rewrite lstrip_last in Hc by done. unfold y in Hc. rewrite last_rev in Hc.
    destruct (Str.lstrip l) as [|x l'] eqn:E; [done|].
    injection Hc as <-. by eapply lstrip_head.
  - rewrite last_rev in Hc.
    destruct (Str.lstrip y) as [|x l'] eqn:E; [done|].
    injection Hc as <-. by eapply lstrip_head.
Qed.

Lemma chars_of_chars l : Str.chars (Str.of_chars l) = l.
Proof. apply list_ascii_of_string_of_list_ascii. Qed.

(** X5.  [_desc_from_t1t2] raises exactly when the first text is [None]
    and the second is a non-empty text, and then TypeError; otherwise it
    returns a text that neither starts nor ends with whitespace. *)
Theorem desc_from_t1t2_spec (t1 t2 : option string) :
  (∀ e, _desc_from_t1t2 t1 t2 = inl e →
        e = TypeError ∧ t1 = None ∧ t2 ≠ None ∧ t2 ≠ Some "")
  ∧ (t1 = None → t2 ≠ None → t2 ≠ Some "" → _desc_from_t1t2 t1 t2 = inl TypeError)
  ∧ (∀ d, _desc_from_t1t2 t1 t2 = inr d →
        (∀ c, head (Str.chars d) = Some c → Str.is_space c = false)
        ∧ (∀ c, last (Str.chars d) = Some c → Str.is_space c = false)).
Proof.
  split; [|split].
  - intros e. destruct t2 as [[|c t2]|], t1 as [t1|]; simpl; try done.
    by intros [= <-].
  - intros -> H1 H2. by destruct t2 as [[|c t2]|].
  - intros d Hd.
    assert (∃ l, d = Str.of_chars (Str.strip l)) as [l ->].
    { destruct t2 as [[|c t2]|], t1 as [t1|]; simpl in Hd; try done;
        injection Hd as <-; by eexists. }
    rewrite chars_of_chars. apply strip_ends.
Qed.

Lemma desc_from_t1t2_spec_witness :
  _desc_from_t1t2 None (Some "Down") = inl TypeError
  ∧ (∀ c, head (Str.chars "All Off") = Some c → Str.is_space c = false).
Proof.
  destruct (desc_from_t1t2_spec None (Some "Down")) as (_ & H & _).
  destruct (desc_from_t1t2_spec (Some " All") (Some "Off ")) as (_ & _ & H').
  split; [by apply H|]. by apply (H' "All Off").
Defined.

(** ** Lineages *)

Lemma lineage_loop_length n areas a acc :
  (length (lineage_loop n areas a acc) ≤ length acc + n)%nat.
Proof.
  revert a acc. induction n as [|n IH]; intros a acc; simpl; [lia|].
  destruct (Area._parent a =? 0); [lia|].
  destruct (areas !! Area._parent a) as [a'|]; [|lia].
  etrans; [apply IH|]. rewrite length_app. simpl. lia.
Qed.

Lemma lineage_loop_app n areas a x y :
  lineage_loop n areas a (x ++ y) = x ++ lineage_loop n areas a y.
Proof.
  revert a y. induction n as [|n IH]; intros a y; simpl; [done|].
  destruct (Area._parent a =? 0); [done|].
  destruct (areas !! Area._parent a) as [a'|]; [|done].
  by rewrite <- (assoc_L (++)), IH.
Qed.

Lemma lineage_loop_cons n areas a x y :
  lineage_loop n areas a (x :: y) = x :: lineage_loop n areas a y.
Proof. apply (lineage_loop_app n areas a [x] y). Qed.

(** X6.  The lineage of an object holds at most eleven names, whatever
    the areas are, cycles among them included; it is empty when the area
    of the object is not known, and starts with the name of that area
    otherwise. *)
Theorem get_lineage_bounded (areas : gmap Z Area.t) (o : obj) :
  (length (get_lineage_from_obj areas o) ≤ 11)%nat
  ∧ match Entity._area (obj_base o) ≫= (areas !!.) with
    | None => get_lineage_from_obj areas o = []
    | Some a => head (get_lineage_from_obj areas o) = Some (Area._name a)
    end.
Proof.
  unfold get_lineage_from_obj.
  destruct (Entity._area (obj_base o) ≫= _) as [a|]; [|simpl; split; [lia|done]].
  split.
  - etrans; [apply lineage_loop_length|]. simpl. lia.
  - by rewrite lineage_loop_cons.
Qed.

Lemma full_lineage_loop_S n areas vid acc :
  full_lineage_loop (Datatypes.S n) areas (Some vid) acc
  = match areas !! vid with
    | None => acc
    | Some a =>
        if Area._parent a =? 0 then acc ++ [Area._name a]
        else full_lineage_loop n areas (Some (Area._parent a)) (acc ++ [Area._name a])
    end.
Proof. done. Qed.

Lemma lineage_loop_S n areas a acc :
  lineage_loop (Datatypes.S n) areas a acc
  = if Area._parent a =? 0 then acc
    else match areas !! Area._parent a with
         | Some a' => lineage_loop n areas a' (acc ++ [Area._name a'])
         | None => acc
         end.
Proof. done. Qed.

Lemma full_lineage_loop_take n m areas vid a acc :
  areas !! vid = Some a → (n ≤ m)%nat →
  full_lineage_loop (Datatypes.S n) areas (Some vid) acc
  = acc ++ take (Datatypes.S n) (lineage_loop m areas a [Area._name a]).
Proof.
  revert m vid a acc. induction n as [|n IH]; intros m vid a acc Ha Hm.
  - rewrite lineage_loop_cons, full_lineage_loop_S, Ha.
    by destruct (Area._parent a =? 0).
  - destruct m as [|m]; [lia|].
    rewrite full_lineage_loop_S, Ha, lineage_loop_S.
    destruct (Area._parent a =? 0); [done|].
    destruct (areas !! Area._parent a) as [a'|] eqn:Ha'.
    + rewrite (IH m _ a') by (done || lia).
      change ([Area._name a] ++ [Area._name a'])
        with (Area._name a :: [Area._name a']).
      rewrite !lineage_loop_cons. by rewrite <- (assoc_L (++)).
    + by rewrite full_lineage_loop_S, Ha'.
Qed.

(** X7.  [full_lineage] is the first five names of the lineage that
    [get_lineage_from_obj] gives, outermost first, followed by the name of
    the object: it holds at most six names and ends with the name of the
    object. *)
Theorem full_lineage_spec (areas : gmap Z Area.t) (o : obj) :
  full_lineage areas (obj_base o)
  = rev (take 5 (get_lineage_from_obj areas o)) ++ [Entity._name (obj_base o)]
  ∧ (length (full_lineage areas (obj_base o)) ≤ 6)%nat
  ∧ last (full_lineage areas (obj_base o)) = Some (Entity._name (obj_base o)).
Proof.
  assert (full_lineage areas (obj_base o)
          = rev (take 5 (get_lineage_from_obj areas o)) ++ [Entity._name (obj_base o)])
    as E.
  { unfold full_lineage, get_lineage_from_obj. f_equal. f_equal.
    destruct (Entity._area (obj_base o)) as [vid|] eqn:Hv; [|done].
    change (Some vid ≫= (areas !!.)) with (areas !! vid).
    destruct (areas !! vid) as [a|] eqn:Ha.
    - by rewrite (full_lineage_loop_take 4 10 areas vid a []) by (done || lia).
    - by rewrite full_lineage_loop_S, Ha. }
  split; [done|]. rewrite E. split.
  - rewrite length_app, length_rev, length_take. cbn [length]. lia.
  - by rewrite last_snoc.
Qed.

(** ** What an update leaves alone *)

Lemma stable_refl w : stable w w.
Proof.
  repeat split; try done. exists []. split; [by rewrite app_nil_r|].
  intros f h H. by apply elem_of_nil in H.
Qed.

Lemma stable_trans w1 w2 w3 : stable w1 w2 → stable w2 w3 → stable w1 w3.
Proof.
  intros (A1 & A2 & A3 & A4 & A5 & A6 & A7 & A8 & A9 & A10 & A11 & l1 & A12 & A13)
         (B1 & B2 & B3 & B4 & B5 & B6 & B7 & B8 & B9 & B10 & B11 & l2 & B12 & B13).
  repeat split; try congruence.
  - etrans; done.
  - exists (l1 ++ l2). split; [by rewrite B12, A12, (assoc_L (++))|].
    intros f h [H|H]%elem_of_app; [by apply A13|].
    rewrite <- A5. by apply B13.
Qed.

Section triples.
Context (w0 : World).

Lemma triple_ret {A} (a : A) (Q : A → Prop) E : Q a → triple w0 (mret a) Q E.
Proof. by intros H w Hw. Qed.

Lemma triple_raise {A} e (Q : A → Prop) (E : exn → Prop) :
  E e → triple w0 (raise e) Q E.
Proof. by intros H w Hw. Qed.

Lemma triple_bind {A B} (m : M A) (k : A → M B) Q Q' E :
  triple w0 m Q E → (∀ a, Q a → triple w0 (k a) Q' E) → triple w0 (m ≫= k) Q' E.
Proof.
  intros Hm Hk w Hw. specialize (Hm w Hw). unfold mbind, M_bind.
  destruct (m w) as [[a|e] w1]; [|done].
  destruct Hm as [Ha Hw1]. by apply Hk.
Qed.

Lemma triple_conseq {A} (m : M A) (Q Q' : A → Prop) (E E' : exn → Prop) :
  triple w0 m Q E → (∀ a, Q a → Q' a) → (∀ e, E e → E' e) → triple w0 m Q' E'.
Proof.
  intros Hm HQ HE w Hw. specialize (Hm w Hw).
  destruct (m w) as [[a|e] w1]; destruct Hm; auto.
Qed.

Lemma triple_lift {A} (x : exn + A) (Q : A → Prop) (E : exn → Prop) :
  (∀ a, x = inr a → Q a) → (∀ e, x = inl e → E e) → triple w0 (lift x) Q E.
Proof. intros HQ HE w Hw. destruct x; simpl; auto. Qed.

Lemma triple_gets {A} (f : World → A) (Q : A → Prop) E :
  (∀ w, stable w0 w → Q (f w)) → triple w0 (gets f) Q E.
Proof. intros H w Hw. simpl. auto. Qed.

Lemma triple_index {A} (l : list A) i (E : exn → Prop) :
  E IndexError → triple w0 (index l i) (λ a, a ∈ l) E.
Proof.
  intros HE w Hw. unfold index. destruct (l !! i) as [a|] eqn:Hi; simpl; [|done].
  split; [|done]. by eapply list_elem_of_lookup_2.
Qed.

Lemma stable_lookup w r :
  stable w0 w → static <$> heap w !! r = static <$> heap w0 !! r.
Proof.
  intros (_ & _ & _ & _ & _ & _ & _ & _ & H & _). by rewrite <- !lookup_fmap, H.
Qed.

Lemma triple_deref r (E : exn → Prop) :
  E IllFormed →
  triple w0 (deref r) (λ o, ∃ o0, heap w0 !! r = Some o0 ∧ static o = static o0) E.
Proof.
  intros HE w Hw. unfold deref. pose proof (stable_lookup w r Hw) as H.
  destruct (heap w !! r) as [o|]; [|done]. split; [|done].
  destruct (heap w0 !! r) as [o0|]; [|done]. exists o0. split; [done|].
  by injection H.
Qed.

Lemma triple_store r o o0 (E : exn → Prop) :
  heap w0 !! r = Some o0 → static o = static o0 →
  triple w0 (store r o) (λ _, True) E.
Proof.
  intros H0 Hs w Hw. simpl. split; [done|].
  destruct Hw as (A1 & A2 & A3 & A4 & A5 & A6 & A7 & A8 & A9 & A10 & A11 & A12).
  repeat split; try done. simpl. rewrite fmap_insert, A9.
  apply insert_id. by rewrite lookup_fmap, H0, Hs.
Qed.

Lemma triple_notify_waiters h (E : exn → Prop) :
  triple w0 (notify_waiters h) (λ _, True) E.
Proof.
  intros w Hw. simpl. split; [done|].
  destruct Hw as (A1 & A2 & A3 & A4 & A5 & A6 & A7 & A8 & A9 & A10 & A11 & A12).
  repeat split; try done; simpl.
  - by rewrite set_all_next.
  - etrans; [apply A11|]. rewrite set_all_flagged. apply union_subseteq_r.
Qed.

Lemma triple_Output_notify r (E : exn → Prop) :
  E IllFormed → triple w0 (Output_notify r) (λ _, True) E.
Proof.
  intros HE. unfold Output_notify.
  eapply triple_bind; [by apply triple_deref|].
  intros o (o0 & H0 & Hs).
  destruct o as [|out| | | | |]; try by apply triple_raise.
  eapply triple_bind; [apply triple_notify_waiters|].
  intros h _. by eapply triple_store.
Qed.

Lemma triple_notify_subscriber handled (E : exn → Prop) :
  triple w0 (notify_subscriber handled) (λ _, True) E.
Proof.
  intros w Hw. destruct handled as [h|]; [|done]. simpl.
  destruct (_subscribers w !! h) as [f|] eqn:Hf; [|done]. split; [done|].
  destruct Hw as (A1 & A2 & A3 & A4 & A5 & A6 & A7 & A8 & A9 & A10 & A11 & l & A12 & A13).
  repeat split; try done. simpl. exists (l ++ [(f, h)]).
  split; [by rewrite A12, (assoc_L (++))|].
  intros f' h' [H|H]%elem_of_app; [by apply A13|].
  apply list_elem_of_singleton in H as [= -> ->]. by rewrite <- A5.
Qed.

Lemma py_float_conv a e : py_float a = inl e → conv_error a e.
Proof.
  destruct a as [| | |s]; simpl; try by intros [= <-].
  destruct (float_of_string s); by intros [= <-].
Qed.

Lemma py_int_conv a e : py_int a = inl e → conv_error a e.
Proof.
  destruct a as [| |[]|s]; simpl; try (intros [= <-]; auto; done).
  destruct (int_of_string s); by intros [= <-].
Qed.

Lemma triple_ints l (E : exn → Prop) :
  (∀ a e, a ∈ l → conv_error a e → E e) → triple w0 (ints l) (λ _, True) E.
Proof.
  induction l as [|x l IH]; intros HE; simpl; [by apply triple_ret|].
  eapply triple_bind.
  { apply (triple_lift _ (λ _, True)); [done|].
    intros e He. apply (HE x); [by left | by apply py_int_conv]. }
  intros z _. eapply triple_bind.
  { apply IH. intros a e Ha. apply HE. by right. }
  intros zs _. by apply triple_ret.
Qed.

Ltac tbind := eapply triple_bind.
Ltac tret := by apply (triple_ret _ (λ _, True)).
Ltac tindex := apply triple_index; by left.
Ltac tfloat a :=
  apply (triple_lift _ (λ _, True));
    [done | intros ? ?; right; right; exists a; split; [done | by apply py_float_conv]].
Ltac tint a :=
  apply (triple_lift _ (λ _, True));
    [done | intros ? ?; right; right; exists a; split; [done | by apply py_int_conv]].

Lemma triple_Keypad r self o0 args (E : exn → Prop) :
  E IndexError →
  heap w0 !! r = Some o0 → static (OKeypad self) = static o0 →
  triple w0 (Keypad_handle_update r self args) (λ _, True) E.
Proof.
  intros HE H0 Hs. unfold Keypad_handle_update.
  tbind; [by apply triple_index|]. intros a0 _.
  tbind; [by eapply triple_store|]. intros _ _.
  tbind; [by apply triple_index|]. intros a1 _.
  tbind; [by apply triple_index|]. intros a2 _.
  tbind; [by eapply triple_store|]. intros _ _.
  tret.
Qed.

Lemma triple_handle_update r args :
  triple w0 (handle_update r args) (λ _, True) (handler_error args).
Proof.
  unfold handle_update.
  tbind; [apply triple_deref; right; by left|].
  intros o (o0 & H0 & Hs).
  destruct o as [v|out|b|k|t|s|s].
  - unfold Variable_handle_update.
    tbind; [tindex|]. intros a0 Ha0.
    tbind; [tfloat a0|]. intros value _.
    tbind; [by eapply triple_store|]. intros _ _. tret.
  - unfold Output_handle_update. case_decide.
    + tbind; [tindex|]. intros a0 Ha0.
      tbind; [tfloat a0|]. intros level _.
      case_decide.
      * tbind; [by apply (triple_gets _ (λ _, True))|]. intros [lr|] _;
          [|tret].
        tbind; [apply triple_deref; right; by left|].
        intros l (l0 & Hl0 & Hls).
        destruct l as [|l| | | | |]; try (apply triple_raise; right; by left).
        tbind; [by eapply triple_store|]. intros _ _.
        tbind; [apply triple_Output_notify; right; by left|]. intros _ _.
        tret.
      * tbind; [by eapply triple_store|]. intros _ _.
        tbind; [apply triple_Output_notify; right; by left|]. intros _ _.
        tret.
    + tbind; [tindex|]. intros a0 Ha0.
      tbind; [|intros _ _; tret].
      destruct (eq_str a0 "RGBLoad.GetRGB"); [|tret].
      tbind; [tindex|]. intros a1 Ha1.
      tbind; [tindex|]. intros a2 Ha2.
      tbind; [tint a1|]. intros val _.
      tbind; [tint a2|]. intros char _.
      tbind.
      * destruct (char <? 3); [|tret].
        tbind.
        { unfold list_assign. destruct (_ && _).
          - tret.
          - apply triple_raise. by left. }
        intros rgb _. by eapply triple_store.
      * intros _ _. destruct (char =? 2); [|tret].
        apply triple_Output_notify. right; by left.
  - unfold Button_handle_update.
    tbind; [tindex|]. intros action Ha.
    tbind; [|intros _ _; tret].
    destruct (Button._keypad b) as [kr|].
    + tbind; [by eapply triple_store|]. intros _ _.
      tbind; [apply triple_deref; right; by left|].
      intros k (k0 & Hk0 & Hks).
      destruct k as [| | |kp| | |]; try (apply triple_raise; right; by left).
      tbind; [eapply triple_Keypad; [by left|done..]|]. intros handled _.
      apply triple_notify_subscriber.
    + destruct (eq_str action "PRESS"); [by eapply triple_store|].
      destruct (eq_str action "RELEASE"); by eapply triple_store.
  - eapply triple_Keypad; [by left|done..].
  - unfold Task_handle_update.
    tbind; [tindex|]. intros a0 Ha0.
    tbind; [tint a0|]. intros component _.
    tbind; [tindex|]. intros a1 Ha1.
    tbind; [tint a1|]. intros action _.
    tbind; [|intros _ _; tret].
    apply triple_ints. intros a e Ha Hc. right; right. exists a. split; [|done].
    rewrite <- (take_drop 2 args). apply elem_of_app. by right.
  - unfold PollingSensor_handle_update.
    tbind; [tindex|]. intros a0 Ha0.
    tbind; [tfloat a0|]. intros value _.
    tbind; [by eapply triple_store|]. intros _ _. tret.
  - unfold Shade_handle_update.
    tbind; [tindex|]. intros a0 Ha0.
    tbind.
    { instantiate (1 := λ _, True).
      destruct (eq_str a0 "OPEN"); [tret|].
      destruct (eq_str a0 "CLOSE"); [tret|].
      destruct (eq_str a0 "STOP"); [tret|].
      destruct (eq_str a0 "POS").
      - tbind; [tindex|]. intros a1 Ha1.
        tbind; [tfloat a1|]. intros v _. tret.
      - tbind; [tfloat a0|]. intros v _. tret. }
    intros value _.
    tbind; [by eapply triple_store|]. intros _ _. tret.
Qed.

End triples.

(** ** What the dispatcher leaves alone *)

Lemma triple_handle_update_and_notify w0 r args :
  triple w0 (handle_update_and_notify r args) (λ _, True) (handler_error args).
Proof.
  unfold handle_update_and_notify.
  eapply triple_bind; [apply triple_handle_update|].
  intros handled _. apply triple_notify_subscriber.
Qed.

Lemma handler_error_strings args e :
  handler_error (VStr <$> args) e → e = IndexError ∨ e = IllFormed ∨ e = ValueError.
Proof.
  intros [ -> | [ -> | (a & Ha & Hc)]]; auto.
  apply list_elem_of_fmap in Ha as (s & -> & _). auto.
Qed.

Lemma triple_recv_lookup w0 typ cmd_type vid args :
  triple w0 (_recv_lookup typ cmd_type vid args) (λ _, True)
    (λ e, e = IndexError ∨ e = IllFormed ∨ e = ValueError).
Proof.
  unfold _recv_lookup.
  eapply triple_bind; [by apply (triple_gets _ _ (λ _, True))|].
  intros [ids|] _; [|by apply triple_ret].
  destruct (negb _); [by apply triple_ret|].
  destruct (ids !! _) as [r|]; [|by apply triple_ret].
  destruct (match typ with S => _ | R => _ end); [|by apply triple_ret].
  eapply triple_conseq; [apply triple_handle_update_and_notify|done|].
  apply handler_error_strings.
Qed.

Lemma triple_recv_parts w0 typ line :
  triple w0 (_recv_parts typ line) (λ _, True)
    (λ e, e = IndexError ∨ e = IllFormed ∨ e = ValueError).
Proof.
  unfold _recv_parts.
  eapply triple_bind; [apply triple_index; by left|]. intros cmd_type _.
  eapply triple_bind; [apply triple_index; by left|]. intros vid _.
  repeat (case_bool_decide || case_decide || case_match); simpl;
    try (by apply triple_ret); apply triple_recv_lookup.
Qed.

(** [_recv], from the world where the pending command is taken. *)
Lemma recv_from_taken line w :
  match _recv line w with
  | (Ret _, w') => stable (taken line w) w'
  | (Raise e, w') =>
      (e = IndexError ∨ e = IllFormed ∨ e = ValueError) ∧ stable (taken line w) w'
  end.
Proof.
  unfold taken.
  destruct (decide (Str.first_char line = Some (line_prefix R))) as [HR|HR].
  { rewrite (recv_typed _ _ _ HR), bool_decide_eq_true_2 by done.
    pose proof (triple_recv_parts _ R line _ (stable_refl (popped R w))) as H.
    destruct (_recv_parts R line (popped R w)) as [[[]|e] w']; tauto. }
  rewrite bool_decide_eq_false_2 by done.
  destruct (decide (Str.first_char line = Some (line_prefix S))) as [HS|HS].
  { rewrite (recv_typed _ _ _ HS).
    pose proof (triple_recv_parts _ S line _ (stable_refl w)) as H. simpl.
    destruct (_recv_parts S line w) as [[[]|e] w']; tauto. }
  rewrite recv_untyped; [apply stable_refl|]. by intros [].
Qed.

Lemma stable_well_formed w w' : stable w w' → wf_world w → wf_world w'.
Proof.
  intros Hs (Hl & Hk & Hreg).
  pose proof (λ r, stable_lookup w w' r Hs) as Hlk.
  destruct Hs as (A1 & A2 & A3 & A4 & A5 & A6 & A7 & A8 & A9 & _).
  split; [|split].
  - intros vid r Hv. rewrite A7 in Hv. destruct (Hl _ _ Hv) as [o Ho].
    specialize (Hlk r). rewrite Ho in Hlk.
    destruct (heap w' !! r) as [[]|]; try done. by eexists.
  - intros r b kr Hb Hkp.
    pose proof (Hlk r) as Hr. rewrite Hb in Hr.
    destruct (heap w !! r) as [[| |b0| | | |]|] eqn:Hb0; try done.
    assert (Button._keypad b0 = Some kr) as Hkp0.
    { rewrite <- Hkp. simpl in Hr. injection Hr. congruence. }
    destruct (Hk _ _ _ Hb0 Hkp0) as [k Hkr].
    specialize (Hlk kr). rewrite Hkr in Hlk.
    destruct (heap w' !! kr) as [[]|]; try done. by eexists.
  - intros c ids vid r Hc Hv. rewrite A3 in Hc.
    destruct (Hreg _ _ _ _ Hc Hv) as [o Ho].
    specialize (Hlk r). rewrite Ho in Hlk.
    destruct (heap w' !! r); [done|done].
Qed.

Lemma wf_world_taken line w : wf_world w → wf_world (taken line w).
Proof. unfold taken. case_bool_decide; [apply (wf_world_popped R)|done]. Qed.

(** X8.  An update of any object, with any arguments, whether it returns
    or raises: nothing is written to the connection; the pending commands,
    the registry, the names and the subscriptions stay as they are; the
    objects are the same ones, each with its class and the fields no
    handler writes; no event is made and none is unset; the subscriber
    calls made are added at the end, each to the handler subscribed for
    the object it is called with.  What it raises is IndexError, the error
    of converting one of the arguments, or the mark of a reference that
    cannot be followed. *)
Theorem update_frame r args w :
  stable w (snd (handle_update_and_notify r args w))
  ∧ match fst (handle_update_and_notify r args w) with
    | Raise e => handler_error args e
    | Ret _ => True
    end.
Proof.
  pose proof (triple_handle_update_and_notify w r args w (stable_refl w)) as H.
  destruct (handle_update_and_notify r args w) as [[[]|e] w']; simpl; tauto.
Qed.

(** X9.  A line received, whatever it holds and whether [_recv] returns
    or raises: a response takes the oldest pending command and a line of
    any other kind takes none; apart from that [_recv] does what an update
    may do and no more: it writes nothing to the connection, registers,
    names and subscribes nothing, makes and deletes no object and changes
    the class of none. *)
Theorem recv_frame line w :
  stable (taken line w) (snd (_recv line w))
  ∧ _cmds (snd (_recv line w))
    = (if bool_decide (Str.first_char line = Some "R"%char)
       then tail (_cmds w) else _cmds w)
  ∧ sent (snd (_recv line w)) = sent w
  ∧ _ids (snd (_recv line w)) = _ids w
  ∧ dom (heap (snd (_recv line w))) = dom (heap w).
Proof.
  pose proof (recv_from_taken line w) as H.
  assert (stable (taken line w) (snd (_recv line w))) as Hs
    by (destruct (_recv line w) as [[[]|e] w']; simpl; tauto).
  split; [done|].
  destruct Hs as (A1 & A2 & A3 & A4 & A5 & A6 & A7 & A8 & A9 & _).
  unfold taken in *. rewrite A1, A2, A3.
  apply (f_equal dom) in A9. rewrite !dom_fmap_L in A9. rewrite A9.
  by case_bool_decide.
Qed.

Lemma update_stable r args w : stable w (snd (handle_update_and_notify r args w)).
Proof.
  pose proof (triple_handle_update_and_notify w r args w (stable_refl w)) as H.
  destruct (handle_update_and_notify r args w) as [[[]|e] w']; simpl; tauto.
Qed.

Lemma recv_stable line w : stable (taken line w) (snd (_recv line w)).
Proof.
  pose proof (recv_from_taken line w) as H.
  destruct (_recv line w) as [[[]|e] w']; simpl; tauto.
Qed.

Lemma recv_exceptions w line e :
  wf_world w → fst (_recv line w) = Raise e → e = IndexError ∨ e = ValueError.
Proof.
  intros Hw He. pose proof (recv_from_taken line w) as H.
  pose proof (recv_well_formed w line Hw) as Hi.
  destruct (_recv line w) as [[[]|e'] w']; simpl in *; [done|].
  injection He as ->. destruct H as [[ -> | [ -> | -> ]] _]; auto. done.
Qed.

(** X10.  In a well-formed world a line makes [_recv] raise IndexError or
    ValueError and nothing else. *)
Theorem recv_raises_only w line :
  wf_world w →
  match fst (_recv line w) with
  | Raise e => e = IndexError ∨ e = ValueError
  | Ret _ => True
  end.
Proof.
  intros Hw. pose proof (recv_exceptions w line) as H.
  destruct (fst (_recv line w)) as [[]|e]; [done|]. by apply H.
Qed.

Lemma recv_raises_only_witness :
  wf_world Sample.world
  ∧ match fst (_recv "S:LOAD 101 bright" Sample.world) with
    | Raise e => e = IndexError ∨ e = ValueError
    | Ret _ => True
    end.
Proof.
  split; [apply sample_world_well_formed|].
  apply (recv_raises_only Sample.world "S:LOAD 101 bright").
  apply sample_world_well_formed.
Defined.

(** X11.  The lines the receive loop reads, however many and whatever
    they hold, from a well-formed world: the world stays well-formed;
    nothing is written to the connection; the registry, the names and the
    subscriptions stay as they are; every object keeps its class and the
    fields no handler writes; the pending commands left are the ones there
    were without some of the oldest; and the loop ends, if it does, with
    IndexError or ValueError. *)
Theorem recv_lines_safe lines w :
  wf_world w →
  wf_world (snd (recv_lines lines w))
  ∧ sent (snd (recv_lines lines w)) = sent w
  ∧ _ids (snd (recv_lines lines w)) = _ids w
  ∧ _names (snd (recv_lines lines w)) = _names w
  ∧ _subscribers (snd (recv_lines lines w)) = _subscribers w
  ∧ static <$> heap (snd (recv_lines lines w)) = static <$> heap w
  ∧ (∃ n, _cmds (snd (recv_lines lines w)) = drop n (_cmds w))
  ∧ match fst (recv_lines lines w) with
    | Raise e => e = IndexError ∨ e = ValueError
    | Ret _ => True
    end.
Proof.
  revert w. induction lines as [|line lines IH]; intros w Hw.
  { split; [done|]. do 5 (split; [done|]). split; [by exists 0%nat | done]. }
  simpl. unfold mbind, M_bind.
  pose proof (recv_from_taken (str_rstrip line) w) as H.
  pose proof (recv_exceptions w (str_rstrip line)) as He.
  specialize (λ e, He e Hw).
  assert (∃ n, _cmds (taken (str_rstrip line) w) = drop n (_cmds w)) as [n Hn].
  { unfold taken. case_bool_decide; [by exists 1%nat | by exists 0%nat]. }
  assert (sent (taken (str_rstrip line) w) = sent w
          ∧ _ids (taken (str_rstrip line) w) = _ids w
          ∧ _names (taken (str_rstrip line) w) = _names w
          ∧ _subscribers (taken (str_rstrip line) w) = _subscribers w
          ∧ heap (taken (str_rstrip line) w) = heap w) as (T1 & T2 & T3 & T4 & T5).
  { unfold taken. by case_bool_decide. }
  apply (wf_world_taken (str_rstrip line)) in Hw.
  destruct (_recv (str_rstrip line) w) as [[[]|e] w1]; simpl in *.
  - pose proof (stable_well_formed _ _ H Hw) as Hw1.
    destruct H as (A1 & A2 & A3 & A4 & A5 & A6 & A7 & A8 & A9 & _).
    destruct (IH w1 Hw1) as (B0 & B1 & B2 & B3 & B4 & B5 & [m B6] & B7).
    split; [done|]. split; [congruence|]. split; [congruence|].
    split; [congruence|]. split; [congruence|]. split; [congruence|].
    split; [|done]. exists (n + m)%nat. by rewrite B6, A2, Hn, drop_drop.
  - destruct H as [_ H]. pose proof (stable_well_formed _ _ H Hw) as Hw1.
    destruct H as (A1 & A2 & A3 & A4 & A5 & A6 & A7 & A8 & A9 & _).
    split; [done|]. split; [congruence|]. split; [congruence|].
    split; [congruence|]. split; [congruence|]. split; [congruence|].
    split; [|by apply He]. exists n. by rewrite A2, Hn.
Qed.

Lemma recv_lines_safe_witness :
  wf_world Sample.world
  ∧ sent (snd (recv_lines ["R:GETLOAD 101 40"; "S:BTN 301 PRESS"; "S:LOAD"; "S:LOAD 101 1"]
                 Sample.world)) = sent Sample.world.
Proof.
  split; [apply sample_world_well_formed|].
  destruct (recv_lines_safe
              ["R:GETLOAD 101 40"; "S:BTN 301 PRESS"; "S:LOAD"; "S:LOAD 101 1"]
              Sample.world sample_world_well_formed) as (_ & H & _).
  exact H.
Defined.

(** ** Numbers as text *)

Lemma pretty_N_char_digit d :
  (d < 10)%N →
  Str.is_digit (pretty_N_char d) = true ∧ Str.digit_val (pretty_N_char d) = Z.of_N d.
Proof.
  intros H.
  assert (d = 0 ∨ d = 1 ∨ d = 2 ∨ d = 3 ∨ d = 4 ∨ d = 5 ∨ d = 6 ∨ d = 7 ∨ d = 8 ∨ d = 9)%N
    as Hd by lia.
  repeat (destruct Hd as [->|Hd]; [by vm_compute|]). subst. by vm_compute.
Qed.

Lemma digits_val_app l1 l2 acc :
  fold_left (λ acc c, 10 * acc + Str.digit_val c) (l1 ++ l2) acc
  = fold_left (λ acc c, 10 * acc + Str.digit_val c) l2
      (fold_left (λ acc c, 10 * acc + Str.digit_val c) l1 acc).
Proof. apply fold_left_app. Qed.

(** The digits [pretty] writes for a natural number. *)
Lemma pretty_N_go_digits x :
  ∃ ds, (∀ s, Str.chars (pretty_N_go x s) = ds ++ Str.chars s)
    ∧ forallb Str.is_digit ds = true
    ∧ (∀ acc, fold_left (λ acc c, 10 * acc + Str.digit_val c) ds acc
              = acc * 10 ^ Z.of_nat (length ds) + Z.of_N x)
    ∧ ((0 < x)%N → ds ≠ []).
Proof.
  induction (N.lt_wf_0 x) as [x _ IH].
  assert (x = 0 ∨ 0 < x)%N as [->|Hx] by lia.
  { exists []. split; [done|]. split; [done|]. split; [intros; simpl; lia | lia]. }
  destruct (IH (x `div` 10)%N) as (ds & H1 & H2 & H3 & _); [by apply N.div_lt|].
  destruct (pretty_N_char_digit (x `mod` 10)%N) as [Hd Hv]; [by apply N.mod_lt|].
  exists (ds ++ [pretty_N_char (x `mod` 10)]). split; [|split; [|split]].
  - intros s. rewrite pretty_N_go_step, H1 by done. by rewrite <- (assoc_L (++)).
  - rewrite forallb_app, H2. simpl. by rewrite Hd.
  - intros acc. rewrite digits_val_app, H3. simpl. rewrite Hv.
    rewrite length_app, Nat2Z.inj_add, Z.pow_add_r by lia. simpl.
    rewrite N2Z.inj_div, N2Z.inj_mod.
    pose proof (Z.div_mod (Z.of_N x) 10). lia.
  - intros _. by destruct ds.
Qed.

Lemma pretty_Z_chars (z : Z) :
  0 ≤ z →
  ∃ ds, Str.chars (pretty z) = ds ∧ ds ≠ [] ∧ forallb Str.is_digit ds = true
    ∧ Str.digits_val ds = z.
Proof.
  intros Hz. destruct z as [|p|p]; [|clear Hz|lia].
  { exists ["0"%char]. by vm_compute. }
  change (pretty (Z.pos p)) with (pretty (N.pos p)). unfold pretty, pretty_N.
  rewrite decide_False by done.
  destruct (pretty_N_go_digits (N.pos p)) as (ds & H1 & H2 & H3 & H4).
  exists ds. rewrite H1. simpl. rewrite app_nil_r. split; [done|].
  split; [apply H4; lia|]. split; [done|].
  unfold Str.digits_val. rewrite H3. simpl. lia.
Qed.

Lemma digit_not_sep c : Str.is_digit c = true →
  c ≠ " "%char ∧ c ≠ ":"%char ∧ c ≠ "010"%char.
Proof. intros H. repeat split; intros ->; by vm_compute in H. Qed.

(** The decimal text of a vid that is not negative is read back as that
    vid. *)
Lemma pretty_Z_read (z : Z) :
  0 ≤ z →
  Str.isdigit (pretty z) = true
  ∧ Str.digits_val (Str.chars (pretty z)) = z
  ∧ match_num (pretty z) = true.
Proof.
  intros Hz. destruct (pretty_Z_chars z Hz) as (ds & H1 & H2 & H3 & H4).
  unfold Str.isdigit, match_num. rewrite H1.
  split; [by destruct ds|]. split; [done|].
  assert (last ds ≠ Some "010"%char) as Hl.
  { intros Hl. apply last_Some in Hl as [l' ->].
    rewrite forallb_app in H3. apply andb_true_iff in H3 as [_ H3]. by vm_compute in H3. }
  destruct (last ds) as [c|] eqn:Hc; [|by destruct ds].
  destruct (decide (c = "010"%char)) as [->|Hne]; [done|].
  assert (match c with "010"%char => removelast ds | _ => ds end = ds) as ->.
  { destruct c as [[] [] [] [] [] [] [] []]; done. }
  by destruct ds.
Qed.

Lemma pretty_Z_piece (z : Z) : is_piece (pretty z) = true.
Proof.
  assert (∀ z : Z, 0 ≤ z → is_piece (pretty z) = true) as Hpos.
  { intros z' Hz. destruct (pretty_Z_chars z' Hz) as (ds & H1 & _ & H3 & _).
    unfold is_piece. rewrite H1. apply forallb_forall. intros c Hc.
    rewrite forallb_forall in H3. destruct (digit_not_sep c (H3 c Hc)) as (A & B & _).
    apply Ascii.eqb_neq in A, B. by rewrite A, B. }
  destruct z as [|p|p]; [by apply Hpos | by apply Hpos |].
  change (pretty (Z.neg p)) with ("-" +:+ pretty (Z.pos p)).
  unfold is_piece. simpl. apply (Hpos (Z.pos p)). lia.
Qed.

(** ** The pieces of a line *)

Lemma split_piece cur p rest :
  forallb (λ c, negb (Ascii.eqb c " " || Ascii.eqb c ":")) p = true →
  Str.split_sp_colon_aux cur (p ++ " "%char :: rest)
  = Str.of_chars (rev cur ++ p) :: Str.split_sp_colon_aux [] rest.
Proof.
  revert cur. induction p as [|c p IH]; intros cur Hp; simpl.
  - by rewrite app_nil_r.
  - simpl in Hp. apply andb_true_iff in Hp as [Hc Hp].
    apply negb_true_iff in Hc. rewrite Hc, IH by done. simpl.
    by rewrite <- (assoc_L (++)).
Qed.

Lemma split_last_piece cur p :
  forallb (λ c, negb (Ascii.eqb c " " || Ascii.eqb c ":")) p = true →
  Str.split_sp_colon_aux cur p = [Str.of_chars (rev cur ++ p)].
Proof.
  revert cur. induction p as [|c p IH]; intros cur Hp; simpl.
  - by rewrite app_nil_r.
  - simpl in Hp. apply andb_true_iff in Hp as [Hc Hp].
    apply negb_true_iff in Hc. rewrite Hc, IH by done. simpl.
    by rewrite <- (assoc_L (++)).
Qed.

Lemma of_chars_chars s : Str.of_chars (Str.chars s) = s.
Proof. apply string_of_list_ascii_of_string. Qed.

Lemma str_app_empty s : s +:+ "" = s.
Proof.
  induction s as [|c s IH]; [done|].
  change (String c s +:+ "") with (String c (s +:+ "")). by rewrite IH.
Qed.

Lemma split_pieces p ps :
  is_piece p = true → Forall (λ a, is_piece a = true) ps →
  Str.split_sp_colon (p +:+ foldr (λ a s, " " +:+ a +:+ s) "" ps) = p :: ps.
Proof.
  unfold Str.split_sp_colon. intros Hp Hps. revert p Hp.
  induction Hps as [|a ps Ha Hps IH]; intros p Hp; simpl.
  - rewrite str_app_empty.
    rewrite split_last_piece by done. cbn [rev app]. by rewrite of_chars_chars.
  - rewrite chars_app.
    change (Str.chars (" " +:+ a +:+ ?s)) with (" "%char :: Str.chars (a +:+ s)).
    rewrite split_piece by done. cbn [rev app]. rewrite of_chars_chars. f_equal.
    by apply IH.
Qed.

(** The pieces [_recv] cuts a line into are the pieces it was made of. *)
Lemma tokens_line_of typ cmd_type vid args :
  is_piece cmd_type = true → Forall (λ a, is_piece a = true) args →
  Str.first_char (line_of typ cmd_type vid args) = Some (line_prefix typ)
  ∧ tokens (line_of typ cmd_type vid args) = cmd_type :: pretty vid :: args.
Proof.
  intros Hc Ha. split; [done|]. unfold tokens, line_of. simpl.
  apply (split_pieces cmd_type (pretty vid :: args)); [done|].
  constructor; [apply pretty_Z_piece | done].
Qed.

Lemma known_is_piece typ cmd_type : cmd_type ∈ known_cmds typ → is_piece cmd_type = true.
Proof.
  intros H. destruct typ; unfold known_cmds, _r_cmds, _s_cmds in H;
    repeat (apply elem_of_cons in H as [-> | H]); try done; by apply elem_of_nil in H.
Qed.

(** ** Lines that name a registered object *)

Lemma registered_Some w k vid r :
  registered w k vid = Some r → ∃ ids, _ids w !! k = Some ids ∧ ids !! vid = Some r.
Proof.
  unfold registered. destruct (_ids w !! k) as [ids|]; simpl; [by eexists|].
  by rewrite lookup_empty.
Qed.

Lemma negative_not_digits (z : Z) : z < 0 → Str.isdigit (pretty z) = false.
Proof. destruct z as [|p|p]; [lia | lia | done]. Qed.

(** A line whose command type is not known, or whose vid is not found,
    is dropped. *)
Lemma recv_not_found w line typ cmd_type vid args :
  Str.first_char line = Some (line_prefix typ) →
  tokens line = cmd_type :: vid :: args →
  match _ids w !! Some (canonical cmd_type) with
  | None => True
  | Some ids => Str.isdigit vid = false ∨ ids !! Str.digits_val (Str.chars vid) = None
  end →
  _recv line w = (Ret (), popped typ w).
Proof.
  intros Hc Ht Hl. rewrite (recv_typed _ _ _ Hc).
  destruct (decide (cmd_type ∈ known_cmds typ)) as [Hk|Hk];
    [|by eapply recv_parts_unknown].
  rewrite (recv_parts_known _ _ _ _ _ _ Ht Hk). case_bool_decide; [|done].
  apply recv_lookup_dropped. by destruct typ.
Qed.

(** A line written with the decimal text of a vid that is not negative
    finds the object registered for the vid. *)
Lemma recv_line_found w typ cmd_type (vid : Z) args r :
  cmd_type ∈ known_cmds typ →
  Forall (λ a, is_piece a = true) args →
  0 ≤ vid →
  registered w (Some (canonical cmd_type)) vid = Some r →
  _recv (line_of typ cmd_type vid args) w
  = if match typ with
       | S => bool_decide (cmd_type ≠ "TASK")
       | R => bool_decide
                (canonical cmd_type ∈ ["LOAD"; "POWER"; "CURRENT"; "SENSOR"; "LIGHT"])
       end
    then handle_update_and_notify r (VStr <$> args) (popped typ w)
    else (Ret (), popped typ w).
Proof.
  intros Hk Ha Hv Hr.
  destruct (tokens_line_of typ cmd_type vid args (known_is_piece _ _ Hk) Ha) as [Hc Ht].
  destruct (pretty_Z_read vid Hv) as (Hd & Hval & _).
  destruct (registered_Some _ _ _ _ Hr) as (ids & Hids & Hid).
  rewrite <- Hval in Hid.
  by rewrite (recv_found_eq _ _ _ _ _ _ _ _ Hc Ht Hk Hids Hd Hid).
Qed.

(** X12.  A line written with the decimal text of a vid.  When the vid is
    not negative and an object is registered for it under the canonical
    command type, [_recv] finds that object and hands it the arguments as
    they were written, for a status line whose command is not TASK and for
    a response whose canonical type is LOAD, POWER, CURRENT, SENSOR or
    LIGHT, and drops every other line.  When the vid is negative the line
    is dropped, whatever is registered: an object with a negative vid
    cannot be reached. *)
Theorem recv_reads_line w typ cmd_type (vid : Z) args :
  cmd_type ∈ known_cmds typ →
  Forall (λ a, is_piece a = true) args →
  tokens (line_of typ cmd_type vid args) = cmd_type :: pretty vid :: args
  ∧ (∀ r, 0 ≤ vid →
       registered w (Some (canonical cmd_type)) vid = Some r →
       _recv (line_of typ cmd_type vid args) w
       = if match typ with
            | S => bool_decide (cmd_type ≠ "TASK")
            | R => bool_decide
                     (canonical cmd_type ∈ ["LOAD"; "POWER"; "CURRENT"; "SENSOR"; "LIGHT"])
            end
         then handle_update_and_notify r (VStr <$> args) (popped typ w)
         else (Ret (), popped typ w))
  ∧ (vid < 0 → _recv (line_of typ cmd_type vid args) w = (Ret (), popped typ w)).
Proof.
  intros Hk Ha.
  destruct (tokens_line_of typ cmd_type vid args (known_is_piece _ _ Hk) Ha) as [Hc Ht].
  split; [done|]. split.
  - intros r Hv Hr. by apply recv_line_found.
  - intros Hv. eapply recv_not_found; [done..|].
    destruct (_ids w !! _); [|done]. left. by apply negative_not_digits.
Qed.

Lemma recv_reads_line_witness :
  _recv (line_of S "LOAD" 101 ["45.5"]) Sample.world
  = handle_update_and_notify 1%nat [VStr "45.5"] Sample.world
  ∧ _recv (line_of R "GETLOAD" (-101) ["45.5"]) Sample.world
    = (Ret (), with_cmds [] Sample.world).
Proof.
  assert ("LOAD" ∈ known_cmds S) as H1
    by (refine (bool_decide_unpack _ _); vm_compute; exact I).
  assert ("GETLOAD" ∈ known_cmds R) as H2
    by (refine (bool_decide_unpack _ _); vm_compute; exact I).
  assert (Forall (λ a, is_piece a = true) ["45.5"]) as H3
    by (constructor; [reflexivity | constructor]).
  split.
  - destruct (recv_reads_line Sample.world S "LOAD" 101 ["45.5"] H1 H3) as (_ & H & _).
    apply (H 1%nat); [lia | reflexivity].
  - destruct (recv_reads_line Sample.world R "GETLOAD" (-101) ["45.5"] H2 H3) as (_ & _ & H).
    apply H. lia.
Defined.

(** ** What a registration does *)

Lemma setdefault_with k w :
  ∃ I, setdefault k w = (Ret (), with_ids I w)
    ∧ (∀ k' v, default ∅ (I !! k') !! v = registered w k' v)
    ∧ is_Some (I !! k)
    ∧ (∀ k', is_Some (_ids w !! k') → is_Some (I !! k')).
Proof.
  unfold setdefault, modify, registered.
  destruct (_ids w !! k) as [m|] eqn:Hk.
  - exists (_ids w). split; [by destruct w|]. split; [done|]. by rewrite Hk.
  - exists (<[k := ∅]> (_ids w)). split; [done|]. split; [|split].
    + intros k' v. destruct (decide (k = k')) as [<-|Hne].
      * by rewrite lookup_insert_eq, Hk.
      * by rewrite lookup_insert_ne.
    + by rewrite lookup_insert_eq.
    + intros k' H. destruct (decide (k = k')) as [<-|Hne];
        [by rewrite lookup_insert_eq | by rewrite lookup_insert_ne].
Qed.

Lemma ids_assign_with k vid r w :
  is_Some (_ids w !! k) →
  ∃ I, ids_assign k vid r w = (Ret (), with_ids I w)
    ∧ (∀ k' v, default ∅ (I !! k') !! v
               = if decide (v = vid ∧ k' = k) then Some r else registered w k' v)
    ∧ (∀ k', is_Some (_ids w !! k') → is_Some (I !! k')).
Proof.
  intros [m Hm]. unfold ids_assign, registered. rewrite Hm.
  eexists. split; [done|]. split.
  - intros k' v. destruct (decide (k = k')) as [<-|Hne].
    + rewrite lookup_insert_eq, Hm. simpl.
      destruct (decide (v = vid)) as [->|Hv].
      * rewrite lookup_insert_eq. by rewrite decide_True.
      * rewrite lookup_insert_ne by done. rewrite decide_False; [done|]. by intros [].
    + rewrite lookup_insert_ne by done. rewrite decide_False; [done|].
      intros [_ ->]. done.
  - intros k' H. destruct (decide (k = k')) as [<-|Hne];
      [by rewrite lookup_insert_eq | by rewrite lookup_insert_ne].
Qed.

Lemma str_app_length s t : String.length (s +:+ t) = (String.length s + String.length t)%nat.
Proof.
  induction s as [|c s IH]; [done|].
  change (String c s +:+ t) with (String c (s +:+ t)). simpl. by rewrite IH.
Qed.

Lemma str_app_ne s t : t ≠ "" → s +:+ t ≠ s.
Proof.
  intros Ht E. apply (f_equal String.length) in E. rewrite str_app_length in E.
  destruct t; [done|]. simpl in E. lia.
Qed.

Lemma name_prefix_pieces mappings areas name :
  name_prefix mappings areas name
  = name +:+ foldr (λ n s, area_piece mappings n +:+ s) "" areas.
Proof.
  revert name. induction areas as [|n areas IH]; intros name; cbn [name_prefix foldr].
  - by rewrite str_app_empty.
  - unfold area_piece at 1.
    destruct (Str.startswith "Station Load " (str_strip n)); [by rewrite IH|].
    destruct (Str.startswith "Color Load " (str_strip n)); [by rewrite IH|].
    destruct mappings as [m|]; [|by rewrite IH, !str_app_assoc].
    destruct (decide (m = ∅)); [by rewrite IH, !str_app_assoc|].
    destruct (m !! str_lower (str_strip n)) as [[|mapped]|];
      rewrite IH; by rewrite ?str_app_assoc.
Qed.

(** X13.  A registration that is not refused.  The object is found for
    its vid under the first command type, and under the second when that
    is a non-empty text; every other entry of the registry is as before.
    The object gets its qualified name: the pieces of the areas of its
    lineage but the outermost, from the outside in, each the stripped (or
    mapped) name of the area and a dash, then its own name; when that name
    is taken, the vid between brackets is added.  The name is bound to the
    vid, and a qualified name that was taken keeps the vid it had.
    Nothing is written to the connection. *)
Theorem register_id_registers w cmd_type cmd_type2 r o :
  heap w !! r = Some o →
  registered w cmd_type2 (Entity._vid (obj_base o)) = None →
  ∃ w' name,
    register_id cmd_type cmd_type2 r w = (Ret (), w')
    ∧ (∀ k v, registered w' k v
              = if decide (v = Entity._vid (obj_base o)
                           ∧ (k = Some cmd_type
                              ∨ (k = cmd_type2 ∧ k ≠ None ∧ k ≠ Some "")))
                then Some r else registered w k v)
    ∧ name = (if decide (is_Some (_names w !! qualified_name w o))
              then qualified_name w o +:+ " (" +:+ pretty (Entity._vid (obj_base o)) +:+ ")"
              else qualified_name w o)
    ∧ heap w' = <[r := obj_with_base (Entity.with_name name (obj_base o)) o]> (heap w)
    ∧ _names w' = <[name := Entity._vid (obj_base o)]> (_names w)
    ∧ _names w' !! qualified_name w o
      = Some (default (Entity._vid (obj_base o)) (_names w !! qualified_name w o))
    ∧ sent w' = sent w ∧ _cmds w' = _cmds w ∧ _subscribers w' = _subscribers w.
Proof.
  intros Hr Hfree. set (vid := Entity._vid (obj_base o)) in *. unfold register_id.
  rewrite (bind_ret _ _ _ _ _ (deref_some _ _ _ Hr)). fold vid.
  destruct (setdefault_with (Some cmd_type) w) as (I1 & E1 & R1 & S1 & K1).
  rewrite (bind_ret _ _ _ _ _ E1).
  destruct (setdefault_with cmd_type2 (with_ids I1 w)) as (I2 & E2 & R2 & S2 & K2).
  rewrite (bind_ret _ _ _ _ _ E2).
  change (with_ids I2 (with_ids I1 w)) with (with_ids I2 w).
  unfold mbind at 1, M_bind at 1, gets at 1.
  change (_ids (with_ids I2 w)) with I2.
  assert (∀ k v, default ∅ (I2 !! k) !! v = registered w k v) as R2'.
  { intros k v. rewrite R2. unfold registered. simpl. apply R1. }
  rewrite decide_False by (rewrite R2', Hfree; by intros [? ?]).
  destruct (ids_assign_with (Some cmd_type) vid r (with_ids I2 w)) as (I3 & E3 & R3 & K3).
  { apply K2. simpl. done. }
  rewrite (bind_ret _ _ _ _ _ E3).
  change (with_ids I3 (with_ids I2 w)) with (with_ids I3 w).
  assert (∃ I4,
    (match cmd_type2 with
     | Some c2 => if decide (c2 = "") then mret () else ids_assign cmd_type2 vid r
     | None => mret ()
     end) (with_ids I3 w) = (Ret (), with_ids I4 w)
    ∧ ∀ k v, default ∅ (I4 !! k) !! v
             = if decide (v = vid ∧ (k = Some cmd_type
                                     ∨ (k = cmd_type2 ∧ k ≠ None ∧ k ≠ Some "")))
               then Some r else registered w k v) as (I4 & E4 & R4).
  { assert (∀ k v, default ∅ (I3 !! k) !! v
                   = if decide (v = vid ∧ k = Some cmd_type)
                     then Some r else registered w k v) as R3'.
    { intros k v. rewrite R3. case_decide; [done|].
      unfold registered. simpl. apply R2'. }
    destruct cmd_type2 as [c2|].
    - case_decide as Hc2.
      + exists I3. split; [done|]. intros k v. rewrite R3'. subst c2.
        repeat case_decide; try done; exfalso; intuition congruence.
      + destruct (ids_assign_with (Some c2) vid r (with_ids I3 w)) as (I4 & E4 & R4 & _).
        { apply K3. simpl. done. }
        exists I4. split; [done|]. intros k v. rewrite R4.
        unfold registered. simpl. rewrite R3'.
        repeat case_decide; try done; exfalso; intuition congruence.
    - exists I3. split; [done|]. intros k v. rewrite R3'.
      repeat case_decide; try done; exfalso; intuition congruence. }
  rewrite (bind_ret _ _ _ _ _ E4).
  unfold mbind, M_bind, gets, store, modify. simpl.
  rewrite name_prefix_pieces.
  change ("" +:+ ?x) with x.
  fold (qualified_name w o).
  set (q := qualified_name w o).
  set (name := if decide (is_Some (_names w !! q))
               then q +:+ " (" +:+ pretty vid +:+ ")" else q).
  exists (with_names (<[name := vid]> (_names w))
            (with_heap
               (<[r := obj_with_base (Entity.with_name name (obj_base o)) o]> (heap w))
               (with_ids I4 w))), name.
  split; [done|]. split; [exact R4|]. split; [done|]. split; [done|].
  split; [done|]. split; [|done]. simpl. unfold name.
  case_decide as Hq.
  - rewrite lookup_insert_ne by (apply str_app_ne; discriminate).
    destruct Hq as [v0 Hq]. by rewrite Hq.
  - rewrite lookup_insert_eq. apply eq_None_not_Some in Hq. by rewrite Hq.
Qed.

Lemma register_id_registers_witness :
  ∃ w',
    register_id "LOAD" (Some "STATUS") 1%nat Sample.world = (Ret (), w')
    ∧ registered w' (Some "LOAD") 101 = Some 1%nat
    ∧ registered w' (Some "STATUS") 101 = Some 1%nat
    ∧ registered w' (Some "LOAD") 201 = Some 2%nat
    ∧ qualified_name Sample.world (OOutput Sample.load) = "Ground Floor-Hall-Lamp"
    ∧ _names w' = {["Ground Floor-Hall-Lamp" := 101]}.
Proof.
  destruct (register_id_registers Sample.world "LOAD" (Some "STATUS") 1%nat
              (OOutput Sample.load) eq_refl eq_refl)
    as (w' & name & H1 & H2 & H3 & _ & H5 & _).
  exists w'. split; [exact H1|]. rewrite !H2, H5, H3.
  split; [|split; [|split; [|split]]].
  - apply decide_True. split; [reflexivity | by left].
  - apply decide_True. split; [reflexivity | right; by repeat split].
  - rewrite decide_False; [reflexivity|]. by intros [? _].
  - vm_compute. reflexivity.
  - vm_compute. reflexivity.
Defined.

(** X14.  A registration that is refused: it is refused exactly when an
    object is found for the vid under the second command type, and then
    nothing is registered, no object is renamed and no name is bound. *)
Theorem register_id_refuses w cmd_type cmd_type2 r o :
  heap w !! r = Some o →
  (fst (register_id cmd_type cmd_type2 r w)
   = Raise (VIDExistsError (Entity._vid (obj_base o)))
   ↔ is_Some (registered w cmd_type2 (Entity._vid (obj_base o))))
  ∧ (is_Some (registered w cmd_type2 (Entity._vid (obj_base o))) →
     (∀ k v, registered (snd (register_id cmd_type cmd_type2 r w)) k v = registered w k v)
     ∧ heap (snd (register_id cmd_type cmd_type2 r w)) = heap w
     ∧ _names (snd (register_id cmd_type cmd_type2 r w)) = _names w).
Proof.
  intros Hr. split.
  - rewrite (register_id_raises w cmd_type cmd_type2 r o Hr). unfold registered.
    case_decide; [done|]. split; [done|]. by intros.
  - intros Hreg.
    destruct (setdefault_with (Some cmd_type) w) as (I1 & E1 & R1 & S1 & K1).
    destruct (setdefault_with cmd_type2 (with_ids I1 w)) as (I2 & E2 & R2 & S2 & K2).
    assert (∀ k v, default ∅ (I2 !! k) !! v = registered w k v) as R2'.
    { intros k v. rewrite R2. unfold registered. simpl. apply R1. }
    assert (register_id cmd_type cmd_type2 r w
            = (Raise (VIDExistsError (Entity._vid (obj_base o))), with_ids I2 w)) as ->.
    { unfold register_id.
      rewrite (bind_ret _ _ _ _ _ (deref_some _ _ _ Hr)).
      rewrite (bind_ret _ _ _ _ _ E1), (bind_ret _ _ _ _ _ E2).
      unfold mbind at 1, M_bind at 1, gets at 1.
      change (_ids (with_ids I2 (with_ids I1 w))) with I2.
      by rewrite decide_True by by rewrite R2'. }
    split; [|by split]. intros k v. apply R2'.
Qed.

Lemma register_id_refuses_witness :
  heap Sample.world !! 3%nat = Some (OOutput Sample.orphan)
  ∧ fst (register_id "STATUS" (Some "LOAD") 3%nat Sample.world)
    = Raise (VIDExistsError 202)
  ∧ heap (snd (register_id "STATUS" (Some "LOAD") 3%nat Sample.world))
    = heap Sample.world.
Proof.
  destruct (register_id_refuses Sample.world "STATUS" (Some "LOAD") 3%nat
              (OOutput Sample.orphan) eq_refl) as [H1 H2].
  assert (is_Some (registered Sample.world (Some "LOAD")
                     (Entity._vid (obj_base (OOutput Sample.orphan))))) as Hreg
    by (exists 3%nat; reflexivity).
  split; [reflexivity|]. split.
  - apply H1, Hreg.
  - apply H2, Hreg.
Defined.

(** ** Responses that carry no value *)

Lemma recv_lookup_response_dropped w cmd_type vid args :
  cmd_type ∉ ["LOAD"; "POWER"; "CURRENT"; "SENSOR"; "LIGHT"] →
  _recv_lookup R cmd_type vid args w = (Ret (), w).
Proof.
  intros H. unfold _recv_lookup. msimpl.
  destruct (_ids w !! Some cmd_type) as [ids|]; [|done].
  destruct (Str.isdigit vid); [|done]. simpl.
  destruct (ids !! _); [|done]. by rewrite bool_decide_eq_false_2.
Qed.

Lemma recv_response_dropped w line cmd_type vid args :
  Str.first_char line = Some "R"%char →
  tokens line = cmd_type :: vid :: args →
  canonical cmd_type ∉ ["LOAD"; "POWER"; "CURRENT"; "SENSOR"; "LIGHT"] →
  _recv line w = (Ret (), with_cmds (tail (_cmds w)) w).
Proof.
  intros Hc Ht Hv. rewrite (recv_typed w line R Hc).
  change (popped R w) with (with_cmds (tail (_cmds w)) w).
  destruct (decide (cmd_type ∈ known_cmds R)) as [Hk|Hk];
    [|by eapply recv_parts_unknown].
  rewrite (recv_parts_known _ _ _ _ _ _ Ht Hk). case_bool_decide; [|done].
  by apply recv_lookup_response_dropped.
Qed.

(** X15.  A response whose canonical command type is not LOAD, POWER,
    CURRENT, SENSOR or LIGHT takes the oldest pending command and does
    nothing else, whatever is registered and whatever follows the command
    type: the responses to GETBLIND, BLIND, VARIABLE, TASK, RAMPLOAD,
    GETTEMPERATURE and the rest change no object, set no event and call
    no subscriber. *)
Theorem response_without_value_is_dropped w line cmd_type vid args :
  Str.first_char line = Some "R"%char →
  tokens line = cmd_type :: vid :: args →
  canonical cmd_type ∉ ["LOAD"; "POWER"; "CURRENT"; "SENSOR"; "LIGHT"] →
  _recv line w = (Ret (), with_cmds (tail (_cmds w)) w)
  ∧ heap (snd (_recv line w)) = heap w
  ∧ events (snd (_recv line w)) = events w
  ∧ called (snd (_recv line w)) = called w.
Proof.
  intros Hc Ht Hv. by rewrite (recv_response_dropped w line cmd_type vid args Hc Ht Hv).
Qed.

Lemma response_without_value_is_dropped_witness :
  _recv "R:GETBLIND 50 33" Sample.world = (Ret (), with_cmds [] Sample.world)
  ∧ _recv "R:GETTEMPERATURE 60 21.5" Sample.world = (Ret (), with_cmds [] Sample.world)
  ∧ _recv "R:VARIABLE 5 1" Sample.world = (Ret (), with_cmds [] Sample.world).
Proof.
  split; [|split].
  - refine (proj1 (response_without_value_is_dropped Sample.world "R:GETBLIND 50 33"
                     "GETBLIND" "50" ["33"] eq_refl eq_refl _)).
    intros H. apply (bool_decide_pack _) in H. by vm_compute in H.
  - refine (proj1 (response_without_value_is_dropped Sample.world "R:GETTEMPERATURE 60 21.5"
                     "GETTEMPERATURE" "60" ["21.5"] eq_refl eq_refl _)).
    intros H. apply (bool_decide_pack _) in H. by vm_compute in H.
  - refine (proj1 (response_without_value_is_dropped Sample.world "R:VARIABLE 5 1"
                     "VARIABLE" "5" ["1"] eq_refl eq_refl _)).
    intros H. apply (bool_decide_pack _) in H. by vm_compute in H.
Defined.

(** ** Reading a level *)

(** The commands of a level query of an output (lines 1391-1398). *)
Lemma Output_level_request_first w r self :
  heap w !! r = Some (OOutput self) →
  RequestHelper.__events (Output._query_waiters self) = [] →
  let vid := Entity._vid (Output.base self) in
  let ev := Events.next (events w) in
  let first := Output._dmx_color self && negb (Output._addedstatus self) in
  let query := (if first then [Formatted "ADDSTATUS" vid []] else [])
               ++ [Formatted "GETLOAD" vid []] in
  let self1 := Output.with_query_waiters {| RequestHelper.__events := [ev] |} self in
  ∃ w1,
    Output_level_request r w = (Ret ev, w1)
    ∧ heap w1 = <[r := OOutput (if first then Output_with_addedstatus true self1 else self1)]>
                  (heap w)
    ∧ events w1 = {| Events.next := Datatypes.S ev;
                     Events.flagged := Events.flagged (events w) |}
    ∧ sent w1 = sent w ++ query
    ∧ _cmds w1 = _cmds w ++ query
    ∧ _ids w1 = _ids w ∧ _subscribers w1 = _subscribers w ∧ called w1 = called w.
Proof.
  intros Hr Hq vid ev first query self1.
  unfold Output_level_request, fresh_event, mbind at 1, M_bind at 1. simpl.
  unfold deref at 1, mbind at 1, M_bind at 1. simpl. rewrite Hr.
  unfold RequestHelper.enqueue. rewrite Hq.
  rewrite bool_decide_eq_true_2 by done.
  unfold Output_do_query_level. msimpl. unfold deref. simpl.
  rewrite lookup_insert_eq. simpl. fold vid. fold first.
  subst query. destruct first; msimpl.
  - eexists. split; [done|]. simpl. rewrite insert_insert_eq.
    rewrite <- !(assoc_L (++)). by repeat split.
  - eexists. split; [done|]. simpl. by repeat split.
Qed.

(** A level query of an output while somebody waits sends nothing. *)
Lemma Output_level_request_later w r self :
  heap w !! r = Some (OOutput self) →
  RequestHelper.__events (Output._query_waiters self) ≠ [] →
  let ev := Events.next (events w) in
  ∃ w1,
    Output_level_request r w = (Ret ev, w1)
    ∧ heap w1 = <[r := OOutput (Output.with_query_waiters
                              {| RequestHelper.__events :=
                                   RequestHelper.__events (Output._query_waiters self) ++ [ev] |}
                              self)]> (heap w)
    ∧ events w1 = {| Events.next := Datatypes.S ev;
                     Events.flagged := Events.flagged (events w) |}
    ∧ sent w1 = sent w
    ∧ _cmds w1 = _cmds w
    ∧ _ids w1 = _ids w ∧ _subscribers w1 = _subscribers w ∧ called w1 = called w.
Proof.
  intros Hr Hq ev.
  unfold Output_level_request, fresh_event, mbind at 1, M_bind at 1. simpl.
  unfold deref at 1, mbind at 1, M_bind at 1. simpl. rewrite Hr.
  unfold RequestHelper.enqueue.
  rewrite bool_decide_eq_false_2 by done. msimpl.
  eexists. split; [done|]. simpl. by repeat split.
Qed.

(** X16.  Reading the level of an output that is no colour controller,
    registered under LOAD with a vid that is not negative, while nobody
    waits.  The first reader sends GETLOAD (after ADDSTATUS, once, for a
    full-colour load) and gets a new event; a second reader gets the next
    event and sends nothing.  When the response to GETLOAD comes, with the
    level [a], it takes the oldest pending command, the level is stored,
    the events of both readers are set, nobody waits any more and the
    subscriber of the output, if any, is called. *)
Theorem level_read_round_trip w r self a v :
  heap w !! r = Some (OOutput self) →
  Output._output_type self ≠ "COLOR" →
  RequestHelper.__events (Output._query_waiters self) = [] →
  0 ≤ Entity._vid (Output.base self) →
  registered w (Some "LOAD") (Entity._vid (Output.base self)) = Some r →
  is_piece a = true →
  float_of_string a = Some v →
  ∃ w1 w2 w3 o3,
    Output_level_request r w = (Ret (Events.next (events w)), w1)
    ∧ sent w1
      = sent w
        ++ (if Output._dmx_color self && negb (Output._addedstatus self)
            then [Formatted "ADDSTATUS" (Entity._vid (Output.base self)) []] else [])
        ++ [Formatted "GETLOAD" (Entity._vid (Output.base self)) []]
    ∧ Output_level_request r w1 = (Ret (Datatypes.S (Events.next (events w))), w2)
    ∧ sent w2 = sent w1
    ∧ _recv (line_of R "GETLOAD" (Entity._vid (Output.base self)) [a]) w2 = (Ret (), w3)
    ∧ sent w3 = sent w1
    ∧ _cmds w3 = tail (_cmds w1)
    ∧ heap w3 !! r = Some (OOutput o3)
    ∧ Output._level o3 = v
    ∧ RequestHelper.__events (Output._query_waiters o3) = []
    ∧ Events.next (events w) ∈ Events.flagged (events w3)
    ∧ Datatypes.S (Events.next (events w)) ∈ Events.flagged (events w3)
    ∧ called w3
      = called w ++ match _subscribers w !! r with Some f => [(f, r)] | None => [] end.
Proof.
  intros Hr Hty Hq Hvid Hreg Hpa Hfa.
  destruct (Output_level_request_first w r self Hr Hq)
    as (w1 & E1 & H1 & Ev1 & S1 & C1 & I1 & Su1 & Ca1).
  set (ev := Events.next (events w)) in *.
  set (self1 := if Output._dmx_color self && negb (Output._addedstatus self)
                then Output_with_addedstatus true
                       (Output.with_query_waiters {| RequestHelper.__events := [ev] |} self)
                else Output.with_query_waiters {| RequestHelper.__events := [ev] |} self)
    in *.
  assert (heap w1 !! r = Some (OOutput self1)) as Hr1
    by (rewrite H1; apply lookup_insert_eq).
  assert (RequestHelper.__events (Output._query_waiters self1) = [ev]
          ∧ Output._output_type self1 = Output._output_type self
          ∧ Entity._vid (Output.base self1) = Entity._vid (Output.base self))
    as (Hq1 & Hty1 & Hv1) by (unfold self1; by destruct (_ && _)).
  destruct (Output_level_request_later w1 r self1 Hr1)
    as (w2 & E2 & H2 & Ev2 & S2 & C2 & I2 & Su2 & Ca2); [by rewrite Hq1|].
  rewrite Ev1 in E2, H2, Ev2. simpl in E2, H2, Ev2. rewrite Hq1 in H2. simpl in H2.
  set (self2 := Output.with_query_waiters
                  {| RequestHelper.__events := [ev; Datatypes.S ev] |} self1) in *.
  assert ("GETLOAD" ∈ known_cmds R) as Hk
    by (refine (bool_decide_unpack _ _); vm_compute; exact I).
  pose proof (λ H, recv_line_found w2 R "GETLOAD" (Entity._vid (Output.base self)) [a] r
                     Hk (Forall_cons_2 _ _ _ Hpa (Forall_nil_2 _)) Hvid H) as Hrecv.
  rewrite bool_decide_eq_true_2 in Hrecv
    by (refine (bool_decide_unpack _ _); vm_compute; exact I).
  assert (heap (popped R w2) !! r = Some (OOutput self2)) as Hr2
    by (simpl; rewrite H2; apply lookup_insert_eq).
  assert (py_float (VStr a) = inr v) as Hpf by (simpl; by rewrite Hfa).
  assert (Output._output_type self2 ≠ "COLOR") as Hty2 by (simpl; by rewrite Hty1).
  pose proof (level_update_eq (popped R w2) r self2 (VStr a) v Hr2 Hty2 Hpf) as Hup.
  unfold handle_update_and_notify in Hrecv.
  rewrite (bind_ret _ _ _ _ _ Hup) in Hrecv.
  unfold notify_subscriber in Hrecv. simpl in Hrecv.
  rewrite Su2, Su1 in Hrecv.
  exists w1, w2. 
  destruct (_subscribers w !! r) as [f|] eqn:Hf.
  - eexists _, _. split; [exact E1|]. split; [exact S1|]. split; [exact E2|].
    split; [exact S2|]. split.
    { apply Hrecv. unfold registered. simpl. by rewrite I2, I1. }
    simpl. rewrite lookup_insert_eq, Ev2, Ca2, Ca1, C2. simpl.
    split; [done|]. split; [done|]. split; [done|]. split; [done|].
    split; [done|]. split; [rewrite !elem_of_union, !elem_of_singleton; tauto|].
    split; [rewrite !elem_of_union, !elem_of_singleton; tauto|]. done.
  - eexists _, _. split; [exact E1|]. split; [exact S1|]. split; [exact E2|].
    split; [exact S2|]. split.
    { apply Hrecv. unfold registered. simpl. by rewrite I2, I1. }
    simpl. rewrite lookup_insert_eq, Ev2, Ca2, Ca1, C2. simpl.
    split; [done|]. split; [done|]. split; [done|]. split; [done|].
    split; [done|]. split; [rewrite !elem_of_union, !elem_of_singleton; tauto|].
    split; [rewrite !elem_of_union, !elem_of_singleton; tauto|]. by rewrite app_nil_r.
Qed.

Lemma level_read_round_trip_witness :
  ∃ w1 w2 w3 o3,
    Output_level_request 1%nat quiet_world = (Ret 5%nat, w1)
    ∧ sent w1 = [Formatted "GETLOAD" 101 []]
    ∧ Output_level_request 1%nat w1 = (Ret 6%nat, w2)
    ∧ sent w2 = sent w1
    ∧ _recv (line_of R "GETLOAD" 101 ["45.5"]) w2 = (Ret (), w3)
    ∧ sent w3 = sent w1
    ∧ _cmds w3 = tail (_cmds w1)
    ∧ heap w3 !! 1%nat = Some (OOutput o3)
    ∧ Output._level o3 = Fin (455 # 10)
    ∧ RequestHelper.__events (Output._query_waiters o3) = []
    ∧ 5%nat ∈ Events.flagged (events w3)
    ∧ 6%nat ∈ Events.flagged (events w3)
    ∧ called w3 = [(11%nat, 1%nat)].
Proof.
  apply (level_read_round_trip quiet_world 1%nat
           (Output.with_query_waiters RequestHelper.init Sample.load)
           "45.5" (Fin (455 # 10)));
    [reflexivity | discriminate | reflexivity | simpl; lia | reflexivity
    | reflexivity | reflexivity].
Defined.

(** ** The level of a shade *)

Lemma Shade_level_request_eq w r s :
  heap w !! r = Some (OShade s) →
  let ev := Events.next (events w) in
  let first := bool_decide (RequestHelper.__events (Shade._query_waiters s) = []) in
  let query := if first then [Formatted "GETBLIND" (Entity._vid (Shade.base s)) []]
               else [] in
  ∃ w1,
    Shade_level_request r w = (Ret ev, w1)
    ∧ heap w1 = <[r := OShade (Shade_with_query_waiters
                                 {| RequestHelper.__events :=
                                      RequestHelper.__events (Shade._query_waiters s) ++ [ev] |}
                                 s)]> (heap w)
    ∧ sent w1 = sent w ++ query
    ∧ _cmds w1 = _cmds w ++ query.
Proof.
  intros Hr ev first query.
  unfold Shade_level_request, fresh_event, mbind at 1, M_bind at 1. simpl.
  unfold deref at 1, mbind at 1, M_bind at 1. simpl. rewrite Hr.
  unfold RequestHelper.enqueue. fold first. subst query.
  destruct first; msimpl.
  - unfold Shade_do_query_level. msimpl. unfold deref. simpl.
    rewrite lookup_insert_eq. msimpl. eexists. split; [done|]. simpl. by repeat split.
  - eexists. split; [done|]. simpl. rewrite !app_nil_r. by repeat split.
Qed.

Lemma stable_shade_waiting w w' r : stable w w' → shade_waiting r w → shade_waiting r w'.
Proof.
  intros Hs (s & Hr & Hq). pose proof (stable_lookup w w' r Hs) as H.
  rewrite Hr in H. destruct (heap w' !! r) as [[| | | | | |s']|] eqn:Hr'; try done.
  exists s'. split; [done|]. simpl in H. injection H as _ _ E. by rewrite E.
Qed.

(** X17.  The level of a shade is asked for once.  The first reader of
    the level of a shade sends GETBLIND and waits.  From then on somebody
    waits for ever: no line received, no update of any object and no call
    of the setter of the level ends the wait (the response to GETBLIND is
    dropped, and an update of the shade stores the level and wakes
    nobody), and a reader that comes while somebody waits sends
    nothing. *)
Theorem shade_level_asked_once r :
  (∀ w s, heap w !! r = Some (OShade s) →
     RequestHelper.__events (Shade._query_waiters s) = [] →
     sent (snd (Shade_level_request r w))
     = sent w ++ [Formatted "GETBLIND" (Entity._vid (Shade.base s)) []]
     ∧ shade_waiting r (snd (Shade_level_request r w)))
  ∧ (∀ w, shade_waiting r w →
       sent (snd (Shade_level_request r w)) = sent w
       ∧ shade_waiting r (snd (Shade_level_request r w)))
  ∧ (∀ w line, shade_waiting r w → shade_waiting r (snd (_recv line w)))
  ∧ (∀ w r' args, shade_waiting r w →
       shade_waiting r (snd (handle_update_and_notify r' args w)))
  ∧ (∀ w new_level, shade_waiting r w →
       shade_waiting r (snd (Shade_set_level r new_level w))).
Proof.
  split; [|split; [|split; [|split]]].
  - intros w s Hr Hq.
    destruct (Shade_level_request_eq w r s Hr) as (w1 & -> & H1 & S1 & _). simpl.
    rewrite S1, Hq. split; [done|].
    eexists. rewrite H1, lookup_insert_eq. split; [done|]. simpl. by rewrite Hq.
  - intros w (s & Hr & Hq).
    destruct (Shade_level_request_eq w r s Hr) as (w1 & -> & H1 & S1 & _). simpl.
    rewrite S1, bool_decide_eq_false_2, app_nil_r by done. split; [done|].
    eexists. rewrite H1, lookup_insert_eq. split; [done|]. simpl.
    by destruct (RequestHelper.__events (Shade._query_waiters s)).
  - intros w line Hw.
    apply (stable_shade_waiting _ _ r (recv_stable line w)). unfold taken.
    by case_bool_decide.
  - intros w r' args Hw.
    by apply (stable_shade_waiting _ _ r (update_stable r' args w)).
  - intros w new_level (s & Hr & Hq). unfold Shade_set_level.
    rewrite (bind_ret _ _ _ _ _ (deref_some _ _ _ Hr)).
    destruct (opt_feqb (Shade._level s) new_level); [by exists s|].
    assert (∀ w', heap w' = heap w →
              shade_waiting r (snd (store r (OShade (Shade_with_level new_level s)) w')))
      as Hst.
    { intros w' Hw'. eexists. simpl. rewrite lookup_insert_eq. split; [done|]. done. }
    destruct (opt_feqb new_level (Some (Fin 0))); [by apply Hst|].
    destruct (opt_feqb new_level (Some (Fin 100))); [by apply Hst|].
    destruct new_level; by apply Hst.
Qed.

Lemma shade_level_asked_once_witness :
  sent (snd (Shade_level_request 9%nat Sample.world)) = [Formatted "GETBLIND" 50 []]
  ∧ shade_waiting 9%nat (snd (Shade_level_request 9%nat Sample.world))
  ∧ shade_waiting 9%nat
      (snd (_recv "R:GETBLIND 50 33" (snd (Shade_level_request 9%nat Sample.world))))
  ∧ sent (snd (Shade_level_request 9%nat
                 (snd (_recv "R:GETBLIND 50 33"
                         (snd (Shade_level_request 9%nat Sample.world))))))
    = [Formatted "GETBLIND" 50 []].
Proof.
  destruct (shade_level_asked_once 9%nat) as (H1 & H2 & H3 & _).
  destruct (H1 Sample.world Sample.shade eq_refl eq_refl) as [Hs Hw].
  pose proof (H3 _ "R:GETBLIND 50 33" Hw) as Hw'.
  split; [exact Hs|]. split; [exact Hw|]. split; [exact Hw'|].
  destruct (H2 _ Hw') as [-> _]. reflexivity.
Defined.

(** ** Polling a sensor *)

Lemma get_app K : "GET" +:+ K = String "G" (String "E" (String "T" K)).
Proof. done. Qed.

Lemma canonical_get K :
  canonical ("GET" +:+ K)
  = if bool_decide (K ∈ ["LOAD"; "POWER"; "CURRENT"; "SENSOR"; "LIGHT"])
    then K else "GET" +:+ K.
Proof.
  unfold canonical. rewrite get_app.
  case_bool_decide as H1; case_bool_decide as H2; try done.
  - exfalso. apply H2. clear H2.
    repeat (apply elem_of_cons in H1 as [[= ->]|H1]);
      try (by apply elem_of_nil in H1);
      refine (bool_decide_unpack _ _); vm_compute; exact I.
  - exfalso. apply H1. clear H1.
    repeat (apply elem_of_cons in H2 as [->|H2]);
      try (by apply elem_of_nil in H2);
      refine (bool_decide_unpack _ _); vm_compute; exact I.
Qed.

Lemma get_known K :
  K ∈ ["LOAD"; "POWER"; "CURRENT"; "SENSOR"; "LIGHT"] → "GET" +:+ K ∈ known_cmds R.
Proof.
  intros H. repeat (apply elem_of_cons in H as [->|H]);
    try (by apply elem_of_nil in H);
    refine (bool_decide_unpack _ _); vm_compute; exact I.
Qed.

Lemma is_piece_get K : is_piece K = true → is_piece ("GET" +:+ K) = true.
Proof. intros H. by rewrite get_app. Qed.

(** X18.  Polling a sensor whose kind is one word, registered under its
    kind in capitals with a vid that is not negative.  [update] sends GET
    followed by the kind and queues it.  When the kind is LIGHT, POWER,
    CURRENT, SENSOR or LOAD the response, with the value [a], takes the
    pending command and the value is stored.  For every other kind
    (TEMPERATURE among them) the response takes the pending command and
    is dropped: the value of such a sensor is never updated by a poll. *)
Theorem sensor_poll_round_trip w r s K a v :
  heap w !! r = Some (OSensor s) →
  str_upper (PollingSensor._kind s) = K →
  is_piece K = true →
  0 ≤ Entity._vid (PollingSensor.base s) →
  registered w (Some K) (Entity._vid (PollingSensor.base s)) = Some r →
  is_piece a = true →
  float_of_string a = Some v →
  ∃ w1,
    PollingSensor_update r w = (Ret (), w1)
    ∧ sent w1 = sent w ++ [Formatted ("GET" +:+ K) (Entity._vid (PollingSensor.base s)) []]
    ∧ _cmds w1 = _cmds w ++ [Formatted ("GET" +:+ K) (Entity._vid (PollingSensor.base s)) []]
    ∧ (K ∈ ["LOAD"; "POWER"; "CURRENT"; "SENSOR"; "LIGHT"] →
       ∃ w2 s2,
         _recv (line_of R ("GET" +:+ K) (Entity._vid (PollingSensor.base s)) [a]) w1
         = (Ret (), w2)
         ∧ heap w2 !! r = Some (OSensor s2)
         ∧ PollingSensor._value s2 = Some v
         ∧ _cmds w2 = tail (_cmds w1))
    ∧ (K ∉ ["LOAD"; "POWER"; "CURRENT"; "SENSOR"; "LIGHT"] →
       _recv (line_of R ("GET" +:+ K) (Entity._vid (PollingSensor.base s)) [a]) w1
       = (Ret (), with_cmds (tail (_cmds w1)) w1)).
Proof.
  intros Hr HK HpK Hvid Hreg Hpa Hfa.
  unfold PollingSensor_update.
  rewrite (bind_ret _ _ _ _ _ (deref_some _ _ _ Hr)), HK.
  unfold send. rewrite send_cmd_eq.
  eexists. split; [done|]. split; [done|]. split; [done|]. split.
  - intros Hin.
    set (w1 := with_sent (sent w ++ [Formatted ("GET" +:+ K)
                                           (Entity._vid (PollingSensor.base s)) []])
                     (with_cmds (_cmds w ++ [Formatted ("GET" +:+ K)
                                               (Entity._vid (PollingSensor.base s)) []]) w)).
    pose proof (recv_line_found w1 R ("GET" +:+ K) (Entity._vid (PollingSensor.base s)) [a] r
                  (get_known K Hin) (Forall_cons_2 _ _ _ Hpa (Forall_nil_2 _)) Hvid)
      as Hrecv.
    rewrite canonical_get, !bool_decide_eq_true_2 in Hrecv by done.
    rewrite Hrecv by done.
    unfold handle_update_and_notify, handle_update.
    unfold mbind at 1, M_bind at 1.
    rewrite (bind_ret _ _ _ _ _ (deref_some (popped R w1) r (OSensor s) Hr)).
    unfold PollingSensor_handle_update. msimpl. rewrite Hfa. msimpl.
    unfold notify_subscriber. simpl.
    destruct (_subscribers w !! r); eexists _, _;
      (split; [done|]); simpl; rewrite lookup_insert_eq; done.
  - intros Hnin.
    destruct (tokens_line_of R ("GET" +:+ K) (Entity._vid (PollingSensor.base s)) [a]
                (is_piece_get K HpK) (Forall_cons_2 _ _ _ Hpa (Forall_nil_2 _)))
      as [Hc Ht].
    rewrite (recv_response_dropped _ _ _ _ _ Hc Ht); [done|].
    rewrite canonical_get, bool_decide_eq_false_2 by done.
    rewrite get_app. intros H.
    repeat (apply elem_of_cons in H as [[=]|H]). by apply elem_of_nil in H.
Qed.

Lemma sensor_poll_round_trip_witness :
  ∃ w1,
    PollingSensor_update 10%nat Sample.world = (Ret (), w1)
    ∧ sent w1 = [Formatted "GETLIGHT" 60 []]
    ∧ ∃ w2 s2,
        _recv (line_of R "GETLIGHT" 60 ["812.5"]) w1 = (Ret (), w2)
        ∧ heap w2 !! 10%nat = Some (OSensor s2)
        ∧ PollingSensor._value s2 = Some (Fin (8125 # 10))
        ∧ _cmds w2 = tail (_cmds w1).
Proof.
  destruct (sensor_poll_round_trip Sample.world 10%nat Sample.sensor "LIGHT" "812.5"
              (Fin (8125 # 10)))
    as (w1 & H1 & H2 & _ & H4 & _);
    [reflexivity | reflexivity | reflexivity | simpl; lia | reflexivity
    | reflexivity | reflexivity |].
  exists w1. split; [exact H1|]. split; [exact H2|].
  apply H4. refine (bool_decide_unpack _ _). vm_compute. exact I.
Defined.

(** ** Subscribing *)

Lemma update_keeps_subscribers r args w :
  _subscribers (snd (handle_update r args w)) = _subscribers w.
Proof.
  pose proof (triple_handle_update w r args w (stable_refl w)) as H.
  destruct (handle_update r args w) as [[h|e] w']; simpl;
    destruct H as [_ (_ & _ & _ & _ & H & _)]; done.
Qed.

(** X19.  An object has one subscriber: subscribing again replaces the
    handler, and the handlers of the other objects stay.  After an update
    that an object handles itself, the handler subscribed last is called,
    once, with the object. *)
Theorem subscribe_replaces w r f g :
  subscribe r g (snd (subscribe r f w)) = subscribe r g w
  ∧ _subscribers (snd (subscribe r g w)) !! r = Some g
  ∧ (∀ r', r' ≠ r → _subscribers (snd (subscribe r g w)) !! r' = _subscribers w !! r')
  ∧ (∀ args w',
       handle_update r args (snd (subscribe r g (snd (subscribe r f w))))
       = (Ret (Some r), w') →
       handle_update_and_notify r args (snd (subscribe r g (snd (subscribe r f w))))
       = (Ret (), with_called (called w' ++ [(g, r)]) w')).
Proof.
  split; [|split; [|split]].
  - unfold subscribe. simpl. by rewrite insert_insert_eq.
  - simpl. by rewrite lookup_insert_eq.
  - intros r' Hne. simpl. by rewrite lookup_insert_ne.
  - intros args w' H. unfold handle_update_and_notify.
    rewrite (bind_ret _ _ _ _ _ H).
    pose proof (update_keeps_subscribers r args
                  (snd (subscribe r g (snd (subscribe r f w))))) as Hs.
    rewrite H in Hs. simpl in Hs. unfold notify_subscriber.
    by rewrite Hs, lookup_insert_eq.
Qed.

Lemma subscribe_replaces_witness :
  handle_update_and_notify 7%nat [VStr "1"]
    (snd (subscribe 7%nat 22%nat (snd (subscribe 7%nat 21%nat Sample.world))))
  = (Ret (),
     with_called [(22%nat, 7%nat)]
       (snd (handle_update 7%nat [VStr "1"]
               (snd (subscribe 7%nat 22%nat (snd (subscribe 7%nat 21%nat Sample.world))))))).
Proof.
  destruct (subscribe_replaces Sample.world 7%nat 21%nat 22%nat) as (_ & _ & _ & H).
  apply (H [VStr "1"]). reflexivity.
Defined.

(** ** Setting a level twice *)

Lemma feqb_refl l : l ≠ NaN → feqb l l = true.
Proof. destruct l; try done. intros _. simpl. by apply Qeq_bool_iff. Qed.

(** X20.  The setters of a level remember what they sent.  After the
    setter of an output or of a shade has returned for a level that is a
    number, or [None] for a shade, a second call with that level sends
    nothing and changes nothing.  With NaN, which differs from itself,
    every call of the setter of an output sends RAMPLOAD again. *)
Theorem set_level_twice r :
  (∀ w self l w1,
     heap w !! r = Some (OOutput self) → l ≠ NaN →
     Output_set_level r l w = (Ret (), w1) →
     Output_set_level r l w1 = (Ret (), w1))
  ∧ (∀ w s l w1,
       heap w !! r = Some (OShade s) → l ≠ Some NaN →
       Shade_set_level r l w = (Ret (), w1) →
       Shade_set_level r l w1 = (Ret (), w1))
  ∧ (∀ w self up down color,
       heap w !! r = Some (OOutput self) →
       Output._ramp_sec self = [up; down; color] →
       sent (snd (Output_set_level r NaN (snd (Output_set_level r NaN w))))
       = sent w ++ [Formatted "RAMPLOAD" (Entity._vid (Output.base self)) [VFloat NaN; up];
                    Formatted "RAMPLOAD" (Entity._vid (Output.base self)) [VFloat NaN; up]]).
Proof.
  split; [|split].
  - intros w self l w1 Hr Hl. unfold Output_set_level.
    rewrite (bind_ret _ _ _ _ _ (deref_some _ _ _ Hr)).
    destruct (feqb (Output._level self) l) eqn:He.
    + intros [= <-]. rewrite (bind_ret _ _ _ _ _ (deref_some _ _ _ Hr)). by rewrite He.
    + destruct (feqb l (Fin 0)); unfold index;
        (destruct (Output._ramp_sec self !! _) as [x|]; [|by msimpl]);
        msimpl; intros [= <-]; unfold deref; simpl; rewrite lookup_insert_eq; simpl;
        by rewrite feqb_refl.
  - intros w s l w1 Hr Hl. unfold Shade_set_level.
    rewrite (bind_ret _ _ _ _ _ (deref_some _ _ _ Hr)).
    assert (opt_feqb l l = true) as Hll.
    { destruct l as [x|]; [|done]. simpl. apply feqb_refl. by intros ->. }
    destruct (opt_feqb (Shade._level s) l) eqn:He.
    + intros [= <-]. rewrite (bind_ret _ _ _ _ _ (deref_some _ _ _ Hr)). by rewrite He.
    + assert (∀ w', heap w' = heap w →
                store r (OShade (Shade_with_level l s)) w' = (Ret (), w1) →
                (deref r ≫= λ o, match o with
                   | OShade self =>
                       if opt_feqb (Shade._level self) l then mret ()
                       else
                         (if opt_feqb l (Some (Fin 0)) then
                            send "BLIND" (Entity._vid (Shade.base self)) [VStr "CLOSE"]
                          else if opt_feqb l (Some (Fin 100)) then
                            send "BLIND" (Entity._vid (Shade.base self)) [VStr "OPEN"]
                          else
                            match l with
                            | Some l0 => send "BLIND" (Entity._vid (Shade.base self))
                                           [VStr "POS"; VFloat l0]
                            | None => mret ()
                            end);;
                         store r (OShade (Shade_with_level l self))
                   | _ => raise IllFormed
                   end) w1 = (Ret (), w1)) as Hst.
      { intros w' Hw' [= <-]. unfold mbind, M_bind, deref. simpl.
        rewrite lookup_insert_eq. simpl. by rewrite Hll. }
      destruct (opt_feqb l (Some (Fin 0))); [by apply Hst|].
      destruct (opt_feqb l (Some (Fin 100))); [by apply Hst|].
      destruct l; by apply Hst.
  - intros w self up down color Hr Hramp. unfold Output_set_level.
    rewrite (bind_ret _ _ _ _ _ (deref_some _ _ _ Hr)).
    assert (∀ x, feqb x NaN = false) as Hn by (by intros []).
    rewrite Hn, Hramp. msimpl. unfold deref. simpl. rewrite lookup_insert_eq. simpl.
    rewrite Hramp. simpl. by rewrite <- (assoc_L (++)).
Qed.

Lemma set_level_twice_witness :
  Output_set_level 1%nat (Fin 30) (snd (Output_set_level 1%nat (Fin 30) Sample.world))
  = (Ret (), snd (Output_set_level 1%nat (Fin 30) Sample.world))
  ∧ Shade_set_level 9%nat (Some (Fin 0)) (snd (Shade_set_level 9%nat (Some (Fin 0)) Sample.world))
    = (Ret (), snd (Shade_set_level 9%nat (Some (Fin 0)) Sample.world))
  ∧ sent (snd (Output_set_level 1%nat NaN (snd (Output_set_level 1%nat NaN Sample.world))))
    = [Formatted "RAMPLOAD" 101 [VFloat NaN; VInt 0];
       Formatted "RAMPLOAD" 101 [VFloat NaN; VInt 0]].
Proof.
  destruct (set_level_twice 1%nat) as (H1 & _ & H3).
  destruct (set_level_twice 9%nat) as (_ & H2 & _).
  split; [|split].
  - apply (H1 Sample.world Sample.load (Fin 30)); [reflexivity | discriminate | reflexivity].
  - apply (H2 Sample.world Sample.shade (Some (Fin 0)));
      [reflexivity | discriminate | reflexivity].
  - apply (H3 Sample.world Sample.load (VInt 0) (VInt 0) (VInt 0)); reflexivity.
Defined.

(** ** Numbers given as text *)

Lemma pretty_negative (p : positive) : pretty (Z.neg p) = "-" +:+ pretty (Z.pos p).
Proof. done. Qed.

Lemma digits_last ds : forallb Str.is_digit ds = true → last ds ≠ Some "010"%char.
Proof.
  intros H Hl. apply last_Some in Hl as [l' ->].
  rewrite forallb_app in H. apply andb_true_iff in H as [_ H]. by vm_compute in H.
Qed.

Lemma match_num_keeps l :
  last l ≠ Some "010"%char →
  match last l with Some "010"%char => removelast l | _ => l end = l.
Proof.
  intros H. destruct (last l) as [c|]; [|done].
  destruct c as [[] [] [] [] [] [] [] []]; done.
Qed.

Lemma negative_is_text (z : Z) :
  z < 0 → match_num (pretty z) = false ∧ match_quote_newline (pretty z) = false.
Proof.
  intros Hz. destruct z as [|p|p]; [lia | lia |]. rewrite pretty_negative.
  destruct (pretty_Z_chars (Z.pos p)) as (ds & H1 & H2 & H3 & _); [lia|].
  split; [|done]. unfold match_num.
  change (Str.chars ("-" +:+ pretty (Z.pos p))) with ("-"%char :: Str.chars (pretty (Z.pos p))).
  rewrite H1, match_num_keeps; [done|].
  destruct ds as [|d ds]; [done|]. change (last ("-"%char :: d :: ds)) with (last (d :: ds)).
  by apply digits_last.
Qed.

(** X21.  A number given to [set_variable_vid] as the text of its
    digits is sent as the integer is, when it is not negative.  The text
    of a negative integer is no number for the pattern: it is sent
    between quotes, as a text, where the integer itself is sent bare. *)
Theorem set_variable_vid_numbers w vid (z : Z) :
  (0 ≤ z → set_variable_vid vid (VStr (pretty z)) w = set_variable_vid vid (VInt z) w)
  ∧ (z < 0 →
     set_variable_vid vid (VStr (pretty z)) w
     = send_cmd (Line ("VARIABLE " +:+ pretty vid +:+ " " +:+ dquote +:+ pretty z +:+ dquote)) w
     ∧ set_variable_vid vid (VInt z) w
       = send_cmd (Line ("VARIABLE " +:+ pretty vid +:+ " " +:+ pretty z)) w).
Proof.
  split.
  - intros Hz. destruct (pretty_Z_read z Hz) as (_ & _ & H).
    unfold set_variable_vid. by rewrite H.
  - intros Hz. destruct (negative_is_text z Hz) as [H1 H2].
    split; [|done]. rewrite set_variable_vid_text by done. by rewrite H2.
Qed.

Lemma set_variable_vid_numbers_witness :
  set_variable_vid 5 (VStr (pretty 42)) Sample.world = set_variable_vid 5 (VInt 42) Sample.world
  ∧ set_variable_vid 5 (VStr (pretty (-42))) Sample.world
    = send_cmd (Line ("VARIABLE " +:+ pretty 5 +:+ " " +:+ dquote +:+ pretty (-42) +:+ dquote))
        Sample.world.
Proof.
  destruct (set_variable_vid_numbers Sample.world 5 42) as [H1 _].
  destruct (set_variable_vid_numbers Sample.world 5 (-42)) as [_ H2].
  split; [apply H1; lia|]. apply H2. lia.
Defined.

(** X22.  The ways to call a task.  By vid, an integer and the text of
    its digits send the same TASK command when the vid is not negative;
    the text of a negative integer, as every text that is no number, sends
    nothing and raises nothing.  By name, the command sent is the one for
    the vid of the task the name stands for, and a name that stands for no
    task sends nothing.  The command is sent whether or not the vid is the
    vid of a task. *)
Theorem call_task_ways w (z : Z) (_name_to_task : gmap string ref) name :
  call_task_vid (VInt z) w = send_cmd (Line ("TASK " +:+ pretty z +:+ " RELEASE")) w
  ∧ (0 ≤ z → call_task_vid (VStr (pretty z)) w = call_task_vid (VInt z) w)
  ∧ (z < 0 → call_task_vid (VStr (pretty z)) w = (Ret (), w))
  ∧ (∀ s, match_num s = false → call_task_vid (VStr s) w = (Ret (), w))
  ∧ (∀ tr t, _name_to_task !! name = Some tr → heap w !! tr = Some t →
       call_task _name_to_task name w = call_task_vid (VInt (Entity._vid (obj_base t))) w)
  ∧ (_name_to_task !! name = None → call_task _name_to_task name w = (Ret (), w)).
Proof.
  split; [done|]. split; [|split; [|split; [|split]]].
  - intros Hz. destruct (pretty_Z_read z Hz) as (_ & _ & H).
    unfold call_task_vid. by rewrite H.
  - intros Hz. destruct (negative_is_text z Hz) as [H _].
    unfold call_task_vid. by rewrite H.
  - intros s H. unfold call_task_vid. by rewrite H.
  - intros tr t Hn Ht. unfold call_task. rewrite Hn.
    by rewrite (bind_ret _ _ _ _ _ (deref_some _ _ _ Ht)).
  - intros Hn. unfold call_task. by rewrite Hn.
Qed.

Lemma call_task_ways_witness :
  call_task_vid (VStr (pretty 9)) Sample.world = call_task_vid (VInt 9) Sample.world
  ∧ call_task_vid (VStr "Goodnight") Sample.world = (Ret (), Sample.world)
  ∧ call_task {["Goodnight" := 8%nat]} "Goodnight" Sample.world
    = call_task_vid (VInt 9) Sample.world.
Proof.
  destruct (call_task_ways Sample.world 9 {["Goodnight" := 8%nat]} "Goodnight")
    as (_ & H1 & _ & H2 & H3 & _).
  split; [apply H1; lia|]. split; [apply H2; reflexivity|].
  apply (H3 8%nat (OTask Sample.task)); reflexivity.
Defined.

(** ** The colour of a load *)

Lemma rgb_update_run w r self val ch v c :
  heap w !! r = Some (OOutput self) →
  py_int val = inr v → py_int ch = inr c →
  handle_update r [VStr "RGBLoad.GetRGB"; val; ch] w
  = (((if c <? 3 then
         rgb ← list_assign (Output._rgb self) c (VInt v);
         store r (OOutput (Output.with_rgb rgb self))
       else mret ());;
      (if c =? 2 then Output_notify r else mret ()));;
     mret (Some r)) w.
Proof.
  intros Hr Hv Hc. unfold handle_update.
  rewrite (bind_ret _ _ _ _ _ (deref_some _ _ _ Hr)).
  unfold Output_handle_update. rewrite decide_False by done.
  msimpl. rewrite Hv, Hc. by msimpl.
Qed.

(** X23.  A colour update of a load whose colour has three channels:
    the arguments are the word RGBLoad.GetRGB, a value and a channel.  For
    channel 0, 1 or 2 the value is stored in that channel and the others
    stay; the readers that wait are woken for channel 2 only, when the
    colour is complete.  A channel of 3 or more is ignored.  A negative
    channel counts from the end: -1, -2 and -3 store the value in channel
    2, 1 and 0 and wake nobody, and below -3 IndexError is raised and
    nothing changes. *)
Theorem rgb_update w r self val ch v c :
  heap w !! r = Some (OOutput self) →
  py_int val = inr v → py_int ch = inr c →
  length (Output._rgb self) = 3%nat →
  (0 ≤ c < 3 →
   handle_update r [VStr "RGBLoad.GetRGB"; val; ch] w
   = (Ret (Some r),
      if c =? 2
      then with_events
             (Events.set_all (RequestHelper.__events (Output._query_waiters self)) (events w))
             (with_heap
                (<[r := OOutput (Output.with_query_waiters RequestHelper.init
                           (Output.with_rgb (<[Z.to_nat c := VInt v]> (Output._rgb self))
                              self))]> (heap w)) w)
      else with_heap
             (<[r := OOutput (Output.with_rgb (<[Z.to_nat c := VInt v]> (Output._rgb self))
                                self)]> (heap w)) w))
  ∧ (3 ≤ c → handle_update r [VStr "RGBLoad.GetRGB"; val; ch] w = (Ret (Some r), w))
  ∧ (-3 ≤ c < 0 →
     handle_update r [VStr "RGBLoad.GetRGB"; val; ch] w
     = (Ret (Some r),
        with_heap
          (<[r := OOutput (Output.with_rgb (<[Z.to_nat (c + 3) := VInt v]> (Output._rgb self))
                             self)]> (heap w)) w))
  ∧ (c < -3 →
     handle_update r [VStr "RGBLoad.GetRGB"; val; ch] w = (Raise IndexError, w)).
Proof.
  intros Hr Hv Hc Hlen. rewrite (rgb_update_run w r self val ch v c Hr Hv Hc).
  unfold list_assign. rewrite Hlen.
  split; [|split; [|split]]; intros Hrange.
  - rewrite (proj2 (Z.ltb_lt c 3)) by lia.
    rewrite (proj2 (Z.ltb_ge c 0)) by lia.
    rewrite (proj2 (Z.leb_le 0 c)) by lia.
    rewrite (proj2 (Z.ltb_lt c (Z.of_nat 3))) by lia. msimpl.
    destruct (c =? 2); [|done]. msimpl.
    erewrite Output_notify_eq by (simpl; apply lookup_insert_eq).
    unfold with_events, with_heap. simpl. by rewrite insert_insert_eq.
  - rewrite (proj2 (Z.ltb_ge c 3)) by lia.
    rewrite (proj2 (Z.eqb_neq c 2)) by lia. by msimpl.
  - rewrite (proj2 (Z.ltb_lt c 3)) by lia.
    rewrite (proj2 (Z.ltb_lt c 0)) by lia.
    rewrite (proj2 (Z.leb_le 0 (c + Z.of_nat 3))) by lia.
    rewrite (proj2 (Z.ltb_lt (c + Z.of_nat 3) (Z.of_nat 3))) by lia. msimpl.
    by rewrite (proj2 (Z.eqb_neq c 2)) by lia.
  - rewrite (proj2 (Z.ltb_lt c 3)) by lia.
    rewrite (proj2 (Z.ltb_lt c 0)) by lia.
    rewrite (proj2 (Z.leb_gt 0 (c + Z.of_nat 3))) by lia. by msimpl.
Qed.

Lemma rgb_update_witness :
  handle_update 1%nat [VStr "RGBLoad.GetRGB"; VStr "255"; VStr "2"] Sample.world
  = (Ret (Some 1%nat),
     with_events (Events.set_all [3%nat; 4%nat] (events Sample.world))
       (with_heap
          (<[1%nat := OOutput (Output.with_query_waiters RequestHelper.init
                        (Output.with_rgb [VInt 0; VInt 0; VInt 255] Sample.load))]>
             (heap Sample.world)) Sample.world))
  ∧ handle_update 1%nat [VStr "RGBLoad.GetRGB"; VStr "255"; VStr "-1"] Sample.world
    = (Ret (Some 1%nat),
       with_heap
         (<[1%nat := OOutput (Output.with_rgb [VInt 0; VInt 0; VInt 255] Sample.load)]>
            (heap Sample.world)) Sample.world)
  ∧ handle_update 1%nat [VStr "RGBLoad.GetRGB"; VStr "255"; VStr "-4"] Sample.world
    = (Raise IndexError, Sample.world).
Proof.
  destruct (rgb_update Sample.world 1%nat Sample.load (VStr "255") (VStr "2") 255 2
              eq_refl eq_refl eq_refl eq_refl) as (H1 & _).
  destruct (rgb_update Sample.world 1%nat Sample.load (VStr "255") (VStr "-1") 255 (-1)
              eq_refl eq_refl eq_refl eq_refl) as (_ & _ & H2 & _).
  destruct (rgb_update Sample.world 1%nat Sample.load (VStr "255") (VStr "-4") 255 (-4)
              eq_refl eq_refl eq_refl eq_refl) as (_ & _ & _ & H3).
  split; [apply H1; lia|]. split; [apply H2; lia | apply H3; lia].
Defined.

